(** * Gold provenance prototype: canonical JSON, fingerprints and
      chain-of-custody verification

    A shallow embedding of the integrity subsystem of the repository:
    - [src/services/hashing.js]   (canonicalizeJSON, sha256, computeEventHash, ...)
    - [src/models/index.js]       (createBatch, createEvent, createDocument)
    - [src/services/database.js]  (the Map-based store)
    - [src/services/anchoring.js] (anchorHash, verifyAnchor)
    - [src/services/provenance.js] (registerDocument, recordShipment,
      recordReceipt, verifyBatchIntegrity, ...)
    - [src/api.js]                (the routes over the service and what they
      answer when it throws)

    JavaScript values are a tree type, objects are association lists in
    property order, the stores and the anchoring service are explicit state
    threaded by a small state-and-exception monad, and the host facilities
    the code calls (SHA-256, uuid, clock, random numbers, the ledger) are
    parameters.  Exceptions are those the code can raise on the modelled
    values: the TypeError of [hash.update] and of a call of [forEach] on a
    value without one, the RangeError of [toISOString] on an invalid Date,
    and the Errors the service throws itself. *)

From Stdlib Require Import String Ascii List ZArith NArith Bool Lia.
From Stdlib Require Import Permutation DecimalString Sorted.
Import ListNotations.
Local Open Scope string_scope.
Local Set Warnings "-register-all".

(* ================================================================== *)
(** ** JavaScript values *)

(** Numbers.  The special doubles are explicit.  [Int z] is the integer [z],
    of absolute value below 10^21, which Number::toString prints in decimal.
    [Finite text] is any other finite number, one that is not an integer
    (25.5) or one printed with an exponent (1e+21), carried by the text
    Number::toString prints for it; such a number is not zero. *)
Inductive jsnum : Type :=
| NaN
| Infinity (negative : bool)
| NegZero
| Int (z : Z)
| Finite (text : string).

(** Values.  Strings are sequences of code units below 256.  [JDate] carries
    the text [toISOString] returns for it, or nothing when it is an invalid
    Date ([new Date(NaN)]), on which [toISOString] throws.  [JFun] is a
    function; the code never calls one.  Objects list their own enumerable
    properties in property order; a well-formed object has no repeated key
    (see [wf]). *)
Inductive jsval : Type :=
| JUndefined
| JNull
| JBool (b : bool)
| JNum (n : jsnum)
| JStr (s : string)
| JFun
| JDate (iso : option string)
| JArr (items : list jsval)
| JObj (props : list (string * jsval)).

(** ToBoolean. *)
Definition truthy (v : jsval) : bool :=
  match v with
  | JUndefined | JNull => false
  | JBool b => b
  | JNum NaN | JNum NegZero => false
  | JNum (Int z) => negb (z =? 0)%Z
  | JNum (Infinity _) | JNum (Finite _) => true
  | JStr s => negb (s =? "")
  | JFun | JDate _ | JArr _ | JObj _ => true
  end.

(** [a || b] *)
Definition or_else (a b : jsval) : jsval := if truthy a then a else b.

(** A destructured parameter with a default: the default applies to
    [undefined] only. *)
Definition with_default (v d : jsval) : jsval :=
  match v with JUndefined => d | _ => v end.

Definition is_undefined (v : jsval) : bool :=
  match v with JUndefined => true | _ => false end.

(** [s === v] for a string [s]. *)
Definition str_strict_eq (s : string) (v : jsval) : bool :=
  match v with JStr t => (s =? t) | _ => false end.

(** [props[key]]: the first own property of that name, else [undefined]. *)
Fixpoint get (props : list (string * jsval)) (key : string) : jsval :=
  match props with
  | [] => JUndefined
  | (k, v) :: rest => if (key =? k) then v else get rest key
  end.

Definition keys {A} (props : list (string * A)) : list string := map fst props.

(** Objects of the running program have pairwise distinct keys, at every
    depth. *)
Fixpoint wf (v : jsval) : Prop :=
  match v with
  | JArr items => fold_right (fun x P => wf x /\ P) True items
  | JObj props =>
      NoDup (keys props) /\ fold_right (fun p P => wf (snd p) /\ P) True props
  | _ => True
  end.

(** Two values with the same content: equal up to the order in which the
    properties of their objects were inserted, at any nesting depth. *)
Inductive same_content : jsval -> jsval -> Prop :=
| sc_undefined : same_content JUndefined JUndefined
| sc_null : same_content JNull JNull
| sc_bool b : same_content (JBool b) (JBool b)
| sc_num n : same_content (JNum n) (JNum n)
| sc_str s : same_content (JStr s) (JStr s)
| sc_fun : same_content JFun JFun
| sc_date iso : same_content (JDate iso) (JDate iso)
| sc_arr l l' :
    Forall2 same_content l l' -> same_content (JArr l) (JArr l')
| sc_obj l l' l'' :
    Forall2 (fun p q => fst p = fst q /\ same_content (snd p) (snd q)) l l' ->
    Permutation l' l'' ->
    same_content (JObj l) (JObj l'').

(* ================================================================== *)
(** ** JSON.stringify on primitives *)

Definition dq : string := String "034"%char "".

Definition hex_digit (n : N) : string :=
  String (nth (N.to_nat n)
            ["0"; "1"; "2"; "3"; "4"; "5"; "6"; "7"; "8"; "9";
             "a"; "b"; "c"; "d"; "e"; "f"]%char "0"%char) "".

(** QuoteJSONString, one code unit. *)
Definition quote_char (c : ascii) : string :=
  let n := N_of_ascii c in
  if (n =? 8)%N then "\b"
  else if (n =? 9)%N then "\t"
  else if (n =? 10)%N then "\n"
  else if (n =? 12)%N then "\f"
  else if (n =? 13)%N then "\r"
  else if (n =? 34)%N then "\" ++ dq
  else if (n =? 92)%N then "\\"
  else if (n <? 32)%N then "\u00" ++ hex_digit (n / 16) ++ hex_digit (n mod 16)
  else String c "".

Fixpoint quote_body (s : string) : string :=
  match s with
  | EmptyString => ""
  | String c rest => quote_char c ++ quote_body rest
  end.

(** [JSON.stringify(s)] for a string. *)
Definition JSON_quote (s : string) : string := dq ++ quote_body s ++ dq.

(** Number::toString on the modelled numbers, as JSON.stringify uses it. *)
Definition number_text (n : jsnum) : string :=
  match n with
  | NaN | Infinity _ => "null"
  | NegZero => "0"
  | Int z => NilZero.string_of_int (Z.to_int z)
  | Finite text => text
  end.

(** [JSON.stringify(v)] where canonicalizeJSON calls it: [v] is [null] or not
    of type object.  [None] is the JavaScript value [undefined]. *)
Definition JSON_stringify_primitive (v : jsval) : option string :=
  match v with
  | JUndefined | JFun => None
  | JNull => Some "null"
  | JBool true => Some "true"
  | JBool false => Some "false"
  | JNum n => Some (number_text n)
  | JStr s => Some (JSON_quote s)
  | JDate _ | JArr _ | JObj _ => None
  end.

(* ================================================================== *)
(** ** Array.prototype.sort() on strings *)

Fixpoint insert_sorted (k : string) (l : list string) : list string :=
  match l with
  | [] => [k]
  | h :: t => if (k <=? h) then k :: l else h :: insert_sorted k t
  end.

(** The default comparator orders strings by code units. *)
Definition sort (l : list string) : list string :=
  fold_right insert_sorted [] l.

(* ================================================================== *)
(** ** hashing.js *)

(** An element of the array handed to [join]: [undefined] joins as the empty
    string. *)
Definition join_operand (x : option string) : string :=
  match x with Some s => s | None => "" end.

(** The right operand of [+] with a string: [undefined] concatenates as the
    text undefined. *)
Definition concat_operand (x : option string) : string :=
  match x with Some s => s | None => "undefined" end.

Fixpoint assoc (table : list (string * option string)) (key : string)
  : option string :=
  match table with
  | [] => None
  | (k, x) :: rest => if (key =? k) then x else assoc rest key
  end.

(** canonicalizeJSON.  The result is a string or [undefined] ([None]).  The
    recursive calls on the property values are made once per property and
    looked up by key; [canonicalizeJSON_object] restates the object case with
    the call [canonicalizeJSON(obj[key])] under the map, as the source has
    it.  A Date is an object without own keys. *)
Fixpoint canonicalizeJSON (obj : jsval) : option string :=
  match obj with
  | JArr items =>
      Some ("[" ++ String.concat ","
                     (map (fun item => join_operand (canonicalizeJSON item))
                          items)
                ++ "]")
  | JObj props =>
      let encoded := map (fun p => (fst p, canonicalizeJSON (snd p))) props in
      let sortedKeys := sort (keys props) in
      let pairs :=
        map (fun key => JSON_quote key ++ ":" ++ concat_operand (assoc encoded key))
            (filter (fun key => negb (is_undefined (get props key))) sortedKeys) in
      Some ("{" ++ String.concat "," pairs ++ "}")
  | JDate _ => Some "{}"
  | _ => JSON_stringify_primitive obj
  end.

(** Replaces each apostrophe by a double quote: expected JSON texts are
    written with apostrophes below. *)
Fixpoint jtext (s : string) : string :=
  match s with
  | EmptyString => ""
  | String c rest =>
      String (if (N_of_ascii c =? 39)%N then "034"%char else c) (jtext rest)
  end.


(** What a call does: it returns a value or throws. *)
Inductive JsError : Type :=
| TypeError (msg : string)
| RangeError (msg : string)
| Error (msg : string).

Inductive completion (A : Type) : Type :=
| Normal (a : A)
| Throw (e : JsError).
Arguments Normal {A} a.
Arguments Throw {A} e.

(* ================================================================== *)
(** ** models/index.js: enumerations and entity records *)

Module BatchStatus.
Inductive t : Type := CREATED | IN_TRANSIT | RECEIVED | CLOSED | DISPUTE.
Definition text (s : t) : string :=
  match s with
  | CREATED => "Created"
  | IN_TRANSIT => "InTransit"
  | RECEIVED => "Received"
  | CLOSED => "Closed"
  | DISPUTE => "Dispute"
  end.
End BatchStatus.

Module EventType.
Inductive t : Type :=
| CREATE | TRANSFER | SHIP | RECEIVE
| INSPECT_TEST | ASSAY_FINALIZED | DISPUTE | RESOLVE.
Definition text (e : t) : string :=
  match e with
  | CREATE => "Create"
  | TRANSFER => "Transfer"
  | SHIP => "Ship"
  | RECEIVE => "Receive"
  | INSPECT_TEST => "InspectTest"
  | ASSAY_FINALIZED => "AssayFinalized"
  | DISPUTE => "Dispute"
  | RESOLVE => "Resolve"
  end.
End EventType.

Module Quantity.
Record t : Type := mk { weight : jsval; unit : jsval }.
(** The object literal [{ weight, unit }]. *)
Definition obj (q : t) : jsval :=
  JObj [("weight", weight q); ("unit", unit q)].
End Quantity.

Module Batch.
Record t : Type := mk {
  batchId : string;
  externalReferenceNumber : jsval;
  commodityType : jsval;
  originFacilityId : jsval;
  ownerPartyId : jsval;
  creationTimestamp : jsval;
  quantity : Quantity.t;
  declaredAssay : jsval;
  status : BatchStatus.t;
  parentBatchIds : list string;
  notes : jsval;
  documentIds : jsval;
  eventIds : list string
}.
Definition set_status (s : BatchStatus.t) (b : t) : t :=
  mk (batchId b) (externalReferenceNumber b) (commodityType b)
     (originFacilityId b) (ownerPartyId b) (creationTimestamp b) (quantity b)
     (declaredAssay b) s (parentBatchIds b) (notes b) (documentIds b)
     (eventIds b).
Definition set_ownerPartyId (o : jsval) (b : t) : t :=
  mk (batchId b) (externalReferenceNumber b) (commodityType b)
     (originFacilityId b) o (creationTimestamp b) (quantity b)
     (declaredAssay b) (status b) (parentBatchIds b) (notes b)
     (documentIds b) (eventIds b).
Definition set_declaredAssay (a : jsval) (b : t) : t :=
  mk (batchId b) (externalReferenceNumber b) (commodityType b)
     (originFacilityId b) (ownerPartyId b) (creationTimestamp b) (quantity b)
     a (status b) (parentBatchIds b) (notes b) (documentIds b) (eventIds b).
Definition set_documentIds (d : jsval) (b : t) : t :=
  mk (batchId b) (externalReferenceNumber b) (commodityType b)
     (originFacilityId b) (ownerPartyId b) (creationTimestamp b) (quantity b)
     (declaredAssay b) (status b) (parentBatchIds b) (notes b) d (eventIds b).
(** [batch.eventIds.push(id)] *)
Definition push_eventId (id : string) (b : t) : t :=
  mk (batchId b) (externalReferenceNumber b) (commodityType b)
     (originFacilityId b) (ownerPartyId b) (creationTimestamp b) (quantity b)
     (declaredAssay b) (status b) (parentBatchIds b) (notes b)
     (documentIds b) (eventIds b ++ [id]).
End Batch.

Module Event.
Record t : Type := mk {
  eventId : string;
  eventType : EventType.t;
  eventTimestamp : jsval;
  batchId : string;
  fromPartyId : jsval;
  toPartyId : jsval;
  fromFacilityId : jsval;
  toFacilityId : jsval;
  quantity : jsval;
  references : jsval;
  notes : jsval;
  eventPayloadHash : jsval;
  onChainTxHash : jsval
}.
Definition set_eventPayloadHash (h : jsval) (e : t) : t :=
  mk (eventId e) (eventType e) (eventTimestamp e) (batchId e)
     (fromPartyId e) (toPartyId e) (fromFacilityId e) (toFacilityId e)
     (quantity e) (references e) (notes e) h (onChainTxHash e).
Definition set_onChainTxHash (tx : jsval) (e : t) : t :=
  mk (eventId e) (eventType e) (eventTimestamp e) (batchId e)
     (fromPartyId e) (toPartyId e) (fromFacilityId e) (toFacilityId e)
     (quantity e) (references e) (notes e) (eventPayloadHash e) tx.
Definition set_notes (n : jsval) (e : t) : t :=
  mk (eventId e) (eventType e) (eventTimestamp e) (batchId e)
     (fromPartyId e) (toPartyId e) (fromFacilityId e) (toFacilityId e)
     (quantity e) (references e) n (eventPayloadHash e) (onChainTxHash e).
End Event.

Module Document.
Record t : Type := mk {
  documentId : string;
  documentType : jsval;
  fileName : jsval;
  storageUri : jsval;
  sha256Hash : jsval;
  issuerPartyId : jsval;
  issuedDate : jsval;
  relatedBatchId : jsval;
  relatedEventId : jsval;
  confidentialityLevel : jsval;
  createdAt : string
}.
(** The object [createDocument] returns, property by property. *)
Definition obj (d : t) : jsval :=
  JObj [("documentId", JStr (documentId d));
        ("documentType", documentType d);
        ("fileName", fileName d);
        ("storageUri", storageUri d);
        ("sha256Hash", sha256Hash d);
        ("issuerPartyId", issuerPartyId d);
        ("issuedDate", issuedDate d);
        ("relatedBatchId", relatedBatchId d);
        ("relatedEventId", relatedEventId d);
        ("confidentialityLevel", confidentialityLevel d);
        ("createdAt", JStr (createdAt d))].
(** [doc.relatedBatchId = b; doc.relatedEventId = e] *)
Definition link (b e : jsval) (d : t) : t :=
  mk (documentId d) (documentType d) (fileName d) (storageUri d)
     (sha256Hash d) (issuerPartyId d) (issuedDate d) b e
     (confidentialityLevel d) (createdAt d).
End Document.

(** The argument objects of the factories, before defaults. *)
Module BatchData.
Record t : Type := mk {
  externalReferenceNumber : jsval;
  commodityType : jsval;
  originFacilityId : jsval;
  ownerPartyId : jsval;
  weight : jsval;
  weightUnit : jsval;
  declaredAssayValue : jsval;
  declaredAssayUnit : jsval;
  notes : jsval
}.
End BatchData.

Module EventData.
Record t : Type := mk {
  eventType : EventType.t;
  batchId : string;
  fromPartyId : jsval;
  toPartyId : jsval;
  fromFacilityId : jsval;
  toFacilityId : jsval;
  weight : jsval;
  weightUnit : jsval;
  documentIds : jsval;
  notes : jsval
}.
End EventData.

Module DocumentData.
Record t : Type := mk {
  content : jsval;
  documentType : jsval;
  fileName : jsval;
  storageUri : jsval;
  sha256Hash : jsval;
  issuerPartyId : jsval;
  issuedDate : jsval;
  relatedBatchId : jsval;
  relatedEventId : jsval;
  confidentialityLevel : jsval
}.
(** [documentData.sha256Hash = h; delete documentData.content] *)
Definition with_hash (h : jsval) (d : t) : t :=
  mk JUndefined (documentType d) (fileName d) (storageUri d) h
     (issuerPartyId d) (issuedDate d) (relatedBatchId d) (relatedEventId d)
     (confidentialityLevel d).
End DocumentData.

(** createBatch; [id] is the uuid drawn and [now] the clock text. *)
Definition createBatch (id now : string) (d : BatchData.t) : Batch.t :=
  let weightUnit := with_default (BatchData.weightUnit d) (JStr "kg") in
  let declaredAssayValue := with_default (BatchData.declaredAssayValue d) JNull in
  let declaredAssayUnit := with_default (BatchData.declaredAssayUnit d) JNull in
  let notes := with_default (BatchData.notes d) JNull in
  {| Batch.batchId := id;
     Batch.externalReferenceNumber := BatchData.externalReferenceNumber d;
     Batch.commodityType := BatchData.commodityType d;
     Batch.originFacilityId := BatchData.originFacilityId d;
     Batch.ownerPartyId := BatchData.ownerPartyId d;
     Batch.creationTimestamp := JStr now;
     Batch.quantity := Quantity.mk (BatchData.weight d) weightUnit;
     Batch.declaredAssay :=
       if truthy declaredAssayValue
       then JObj [("value", declaredAssayValue); ("unit", declaredAssayUnit)]
       else JNull;
     Batch.status := BatchStatus.CREATED;
     Batch.parentBatchIds := [];
     Batch.notes := notes;
     Batch.documentIds := JArr [];
     Batch.eventIds := [] |}.

(** createEvent *)
Definition createEvent (id now : string) (d : EventData.t) : Event.t :=
  let fromPartyId := with_default (EventData.fromPartyId d) JNull in
  let toPartyId := with_default (EventData.toPartyId d) JNull in
  let fromFacilityId := with_default (EventData.fromFacilityId d) JNull in
  let toFacilityId := with_default (EventData.toFacilityId d) JNull in
  let weight := with_default (EventData.weight d) JNull in
  let weightUnit := with_default (EventData.weightUnit d) (JStr "kg") in
  let documentIds := with_default (EventData.documentIds d) (JArr []) in
  let notes := with_default (EventData.notes d) JNull in
  {| Event.eventId := id;
     Event.eventType := EventData.eventType d;
     Event.eventTimestamp := JStr now;
     Event.batchId := EventData.batchId d;
     Event.fromPartyId := fromPartyId;
     Event.toPartyId := toPartyId;
     Event.fromFacilityId := fromFacilityId;
     Event.toFacilityId := toFacilityId;
     Event.quantity :=
       if truthy weight
       then JObj [("weight", weight); ("unit", weightUnit)]
       else JNull;
     Event.references := documentIds;
     Event.notes := notes;
     Event.eventPayloadHash := JNull;
     Event.onChainTxHash := JNull |}.

(** createDocument *)
Definition createDocument (id now : string) (d : DocumentData.t) : Document.t :=
  {| Document.documentId := id;
     Document.documentType := DocumentData.documentType d;
     Document.fileName := DocumentData.fileName d;
     Document.storageUri := DocumentData.storageUri d;
     Document.sha256Hash := DocumentData.sha256Hash d;
     Document.issuerPartyId := DocumentData.issuerPartyId d;
     Document.issuedDate := with_default (DocumentData.issuedDate d) JNull;
     Document.relatedBatchId := with_default (DocumentData.relatedBatchId d) JNull;
     Document.relatedEventId := with_default (DocumentData.relatedEventId d) JNull;
     Document.confidentialityLevel :=
       with_default (DocumentData.confidentialityLevel d) (JStr "Restricted");
     Document.createdAt := now |}.

(* ================================================================== *)
(** ** hashing.js: digests *)

Section Hashing.

(** [createHash('sha256').update(text, 'utf8').digest('hex')] *)
Variable digest : string -> string.

(** The message of the TypeError [hash.update(undefined, 'utf8')] throws. *)
Definition update_undefined_message : string :=
  jtext "The 'data' argument must be of type string or an instance of Buffer, TypedArray, or DataView. Received undefined".

(** sha256.  No value of the model is a Buffer, so the branch for one is
    never taken.  When canonicalizeJSON returns [undefined], [hash.update]
    rejects it. *)
Definition sha256 (data : jsval) : completion string :=
  match data with
  | JStr s => Normal (digest s)
  | _ =>
      match canonicalizeJSON data with
      | Some text => Normal (digest text)
      | None =>
          Throw (TypeError update_undefined_message)
      end
  end.

Definition keccak256 (data : jsval) : completion string := sha256 data.

Definition hashDocument (content : jsval) : completion string :=
  sha256 content.

(** [t.toISOString()] on a Date: a RangeError on an invalid Date. *)
Definition toISOString (iso : option string) : completion string :=
  match iso with
  | Some text => Normal text
  | None => Throw (RangeError "Invalid time value")
  end.

(** [t instanceof Date ? t.toISOString() : t] *)
Definition normalize_date (t : jsval) : completion jsval :=
  match t with
  | JDate iso =>
      match toISOString iso with
      | Normal text => Normal (JStr text)
      | Throw e => Throw e
      end
  | _ => Normal t
  end.

(** The normalization returns: the value is anything but an invalid Date. *)
Definition normalizable (t : jsval) : bool :=
  match normalize_date t with Normal _ => true | Throw _ => false end.

(** The normalized timestamp, where the normalization returns. *)
Definition normalized (t : jsval) : jsval :=
  match normalize_date t with Normal v => v | Throw _ => t end.

(** The object the payload literal of computeEventHash evaluates to, when
    its timestamp entry does. *)
Definition eventPayload (event : Event.t) : list (string * jsval) :=
  [("eventId", JStr (Event.eventId event));
   ("eventType", JStr (EventType.text (Event.eventType event)));
   ("eventTimestamp", normalized (Event.eventTimestamp event));
   ("batchId", JStr (Event.batchId event));
   ("fromPartyId", or_else (Event.fromPartyId event) JNull);
   ("toPartyId", or_else (Event.toPartyId event) JNull);
   ("fromFacilityId", or_else (Event.fromFacilityId event) JNull);
   ("toFacilityId", or_else (Event.toFacilityId event) JNull);
   ("quantity", or_else (Event.quantity event) JNull);
   ("references", or_else (Event.references event) (JArr []))].

(** computeEventHash: the payload literal is evaluated, which throws when
    the timestamp is an invalid Date, and handed to sha256. *)
Definition computeEventHash (event : Event.t) : completion string :=
  match normalize_date (Event.eventTimestamp event) with
  | Normal _ => sha256 (JObj (eventPayload event))
  | Throw e => Throw e
  end.

(** The object the payload literal of computeBatchHash evaluates to, when
    its timestamp entry does. *)
Definition batchPayload (batch : Batch.t) : list (string * jsval) :=
  [("batchId", JStr (Batch.batchId batch));
   ("externalReferenceNumber", Batch.externalReferenceNumber batch);
   ("commodityType", Batch.commodityType batch);
   ("originFacilityId", Batch.originFacilityId batch);
   ("ownerPartyId", Batch.ownerPartyId batch);
   ("creationTimestamp", normalized (Batch.creationTimestamp batch));
   ("quantity", Quantity.obj (Batch.quantity batch));
   ("declaredAssay", or_else (Batch.declaredAssay batch) JNull)].

Definition computeBatchHash (batch : Batch.t) : completion string :=
  match normalize_date (Batch.creationTimestamp batch) with
  | Normal _ => sha256 (JObj (batchPayload batch))
  | Throw e => Throw e
  end.

Record DocumentHashCheck : Type := {
  isValid : bool;
  dhc_computedHash : string;
  dhc_storedHash : jsval
}.

(** verifyDocumentHash *)
Definition verifyDocumentHash (content storedHash : jsval)
  : completion DocumentHashCheck :=
  match hashDocument content with
  | Normal computedHash =>
      Normal {| isValid := str_strict_eq computedHash storedHash;
                dhc_computedHash := computedHash;
                dhc_storedHash := storedHash |}
  | Throw e => Throw e
  end.

End Hashing.

(* ================================================================== *)
(** ** database.js: the Map-based store *)

(** A JavaScript [Map] with string keys: entries in insertion order; [set] on
    a present key keeps its position. *)
Fixpoint map_set {V : Type} (k : string) (v : V) (m : list (string * V))
  : list (string * V) :=
  match m with
  | [] => [(k, v)]
  | (k', v') :: rest =>
      if (k =? k') then (k, v) :: rest else (k', v') :: map_set k v rest
  end.

Fixpoint map_get {V : Type} (k : string) (m : list (string * V)) : option V :=
  match m with
  | [] => None
  | (k', v') :: rest => if (k =? k') then Some v' else map_get k rest
  end.

(** An audit entry; its clock text and its data summary are left out. *)
Record AuditEntry : Type := {
  action : string;
  entityType : string;
  entityId : string;
  userId : string
}.

Record Database : Type := {
  batches : list (string * Batch.t);
  events : list (string * Event.t);
  documents : list (string * Document.t);
  auditLog : list AuditEntry
}.

Definition emptyDatabase : Database :=
  {| batches := []; events := []; documents := []; auditLog := [] |}.

Definition logAction (action entityType entityId : string) (d : Database)
  : Database :=
  {| batches := batches d; events := events d; documents := documents d;
     auditLog := auditLog d ++
       [{| action := action; entityType := entityType; entityId := entityId;
           userId := "system" |}] |}.

Definition put_batch (b : Batch.t) (d : Database) : Database :=
  {| batches := map_set (Batch.batchId b) b (batches d); events := events d;
     documents := documents d; auditLog := auditLog d |}.

Definition put_event (e : Event.t) (d : Database) : Database :=
  {| batches := batches d; events := map_set (Event.eventId e) e (events d);
     documents := documents d; auditLog := auditLog d |}.

Definition put_document (x : Document.t) (d : Database) : Database :=
  {| batches := batches d; events := events d;
     documents := map_set (Document.documentId x) x (documents d);
     auditLog := auditLog d |}.

Definition saveBatch (b : Batch.t) (d : Database) : Database :=
  logAction "CREATE" "Batch" (Batch.batchId b) (put_batch b d).

Definition updateBatch (b : Batch.t) (d : Database) : Database :=
  logAction "UPDATE" "Batch" (Batch.batchId b) (put_batch b d).

Definition getBatch (d : Database) (batchId : string) : option Batch.t :=
  map_get batchId (batches d).

Definition saveEvent (e : Event.t) (d : Database) : Database :=
  logAction "CREATE" "Event" (Event.eventId e) (put_event e d).

Definition getAllEvents (d : Database) : list Event.t := map snd (events d).

Definition saveDocument (x : Document.t) (d : Database) : Database :=
  logAction "CREATE" "Document" (Document.documentId x) (put_document x d).

Definition getDocument (d : Database) (documentId : string)
  : option Document.t :=
  map_get documentId (documents d).

Section EventOrder.

(** The time value of [new Date(v)]; [None] is NaN. *)
Variable Date_value : jsval -> option Z.

(** [new Date(a.eventTimestamp) - new Date(b.eventTimestamp)]; a NaN
    difference counts as 0 for the sort. *)
Definition compare_events (a b : Event.t) : Z :=
  match Date_value (Event.eventTimestamp a),
        Date_value (Event.eventTimestamp b) with
  | Some x, Some y => x - y
  | _, _ => 0
  end.

Fixpoint insert_event (a : Event.t) (l : list Event.t) : list Event.t :=
  match l with
  | [] => [a]
  | b :: rest =>
      if (compare_events a b <=? 0)%Z then a :: l
      else b :: insert_event a rest
  end.

(** [Array.prototype.sort(compare)].  When every timestamp has a time value
    the comparator is consistent and the sort is the stable ascending one,
    which the insertion below computes.  When some difference is NaN the
    comparator is not consistent and ECMAScript leaves the order to the
    engine: the list below is then one rearrangement among those an engine
    may return, and nothing about its order is claimed. *)
Definition sort_events (l : list Event.t) : list Event.t :=
  fold_right insert_event [] l.

Definition getEventsByBatch (d : Database) (batchId : string)
  : list Event.t :=
  sort_events
    (filter (fun e => (Event.batchId e =? batchId)) (getAllEvents d)).

End EventOrder.

(* ================================================================== *)
(** ** anchoring.js *)

Record AnchorRecord : Type := {
  ar_id : string;
  ar_hash : string;
  ar_timestamp : string;
  ar_txHash : string;
  ar_blockNumber : Z;
  ar_explorerUrl : string;
  ar_simulated : bool
}.

(** What anchorHash resolves to: [{ success: true, ...anchorRecord }] or
    [{ success: false, error }]. *)
Inductive AnchorResult : Type :=
| AnchorSuccess (r : AnchorRecord)
| AnchorFailure (error : string).

(** [anchor.txHash] *)
Definition anchor_txHash (a : AnchorResult) : jsval :=
  match a with
  | AnchorSuccess r => JStr (ar_txHash r)
  | AnchorFailure _ => JUndefined
  end.

Record AnchoringService : Type := {
  explorerUrl : string;
  simulationMode : bool;
  simulatedTransactions : list AnchorRecord
}.

(** The singleton as constructed: Polygon Amoy, simulation mode. *)
Definition newAnchoringService : AnchoringService :=
  {| explorerUrl := "https://amoy.polygonscan.com";
     simulationMode := true;
     simulatedTransactions := [] |}.

(** The ledger's answers, seen from the service. *)
Inductive LedgerOutcome : Type :=
| Mined (receiptHash : string) (blockNumber : Z)
| LedgerFailed (message : string).

Inductive ReceiptOutcome : Type :=
| ReceiptFound
| ReceiptNull
| ReceiptFailed (message : string).

Record AnchorCheck : Type := {
  verified : bool;
  ac_record : option AnchorRecord
}.

(* ================================================================== *)
(** ** The host and the world *)

(** What the code obtains from outside itself.  The [nat] argument is the
    number of draws made so far. *)
Record Host : Type := {
  digest : string -> string;
  uuidv4 : nat -> string;
  now_iso : nat -> string;
  random_hex64 : nat -> string;
  random_block : nat -> Z;
  ledger_logHash : nat -> string -> string -> LedgerOutcome;
  ledger_receipt : nat -> jsval -> ReceiptOutcome;
  Date_value : jsval -> option Z
}.

Record World : Type := {
  db : Database;
  anchoring : AnchoringService;
  tick : nat
}.

Definition newWorld : World :=
  {| db := emptyDatabase; anchoring := newAnchoringService; tick := 0 |}.

(** State and exceptions. *)
Definition M (A : Type) : Type := World -> completion A * World.

Definition ret {A : Type} (a : A) : M A := fun w => (Normal a, w).

Definition bind {A B : Type} (m : M A) (k : A -> M B) : M B :=
  fun w =>
    match m w with
    | (Normal a, w') => k a w'
    | (Throw e, w') => (Throw e, w')
    end.

Definition throw {A : Type} (e : JsError) : M A := fun w => (Throw e, w).

Definition lift {A : Type} (c : completion A) : M A := fun w => (c, w).

Declare Scope m_scope.
Delimit Scope m_scope with M.
Notation "x <- c ;; k" := (bind c (fun x => k))
  (at level 61, c at next level, right associativity) : m_scope.
Notation "c ;;; k" := (bind c (fun _ => k))
  (at level 61, right associativity) : m_scope.

Definition draw {A : Type} (f : nat -> A) : M A :=
  fun w =>
    (Normal (f (tick w)),
     {| db := db w; anchoring := anchoring w; tick := S (tick w) |}).

Definition read_db {A : Type} (f : Database -> A) : M A :=
  fun w => (Normal (f (db w)), w).

Definition write_db (f : Database -> Database) : M unit :=
  fun w =>
    (Normal tt, {| db := f (db w); anchoring := anchoring w; tick := tick w |}).

Definition read_anchoring {A : Type} (f : AnchoringService -> A) : M A :=
  fun w => (Normal (f (anchoring w)), w).

Definition write_anchoring (f : AnchoringService -> AnchoringService)
  : M unit :=
  fun w =>
    (Normal tt, {| db := db w; anchoring := f (anchoring w); tick := tick w |}).

(* ================================================================== *)
(** ** anchoring.js and provenance.js over a host *)

Record DocumentVerification : Type := {
  valid : bool;
  dv_error : option string;
  dv_documentId : option string;
  dv_fileName : option jsval;
  dv_computedHash : option string;
  dv_storedHash : option jsval
}.

Record BatchCreation : Type := {
  bc_batch : Batch.t;
  bc_event : Event.t;
  bc_batchAnchor : AnchorResult;
  bc_eventAnchor : AnchorResult
}.

(** [{ event, anchor, batch }] *)
Record Recorded : Type := {
  rec_event : Event.t;
  rec_anchor : AnchorResult;
  rec_batch : Batch.t
}.

Module ShipmentData.
Record t : Type := mk {
  toPartyId : jsval;
  fromFacilityId : jsval;
  toFacilityId : jsval;
  documentIds : jsval;
  notes : jsval
}.
End ShipmentData.

Module ReceiptData.
Record t : Type := mk {
  receiverPartyId : jsval;
  facilityId : jsval;
  receivedWeight : jsval;
  documentIds : jsval;
  notes : jsval
}.
End ReceiptData.

Module DisputeData.
Record t : Type := mk {
  raisedByPartyId : jsval;
  documentIds : jsval;
  reason : jsval
}.
End DisputeData.

Record EventCheck : Type := {
  ec_eventId : string;
  ec_eventType : EventType.t;
  ec_storedHash : jsval;
  ec_computedHash : string;
  hashMatch : bool;
  anchorValid : option bool
}.

Record AnchorVerification : Type := {
  av_eventId : string;
  av_txHash : jsval;
  av_verified : bool
}.

Record VerificationResults : Type := {
  vr_batchId : string;
  overallValid : bool;
  batchHashValid : bool;
  vr_events : list EventCheck;
  anchorVerifications : list AnchorVerification
}.

(** [{ valid: false, error: 'Batch not found' }] or the results object. *)
Inductive VerifyOutput : Type :=
| BatchNotFound
| Verification (r : VerificationResults).

Definition push_anchorVerification (a : AnchorVerification)
  (r : VerificationResults) : VerificationResults :=
  {| vr_batchId := vr_batchId r; overallValid := overallValid r;
     batchHashValid := batchHashValid r; vr_events := vr_events r;
     anchorVerifications := anchorVerifications r ++ [a] |}.

Definition push_eventCheck (c : EventCheck) (r : VerificationResults)
  : VerificationResults :=
  {| vr_batchId := vr_batchId r; overallValid := overallValid r;
     batchHashValid := batchHashValid r; vr_events := vr_events r ++ [c];
     anchorVerifications := anchorVerifications r |}.

Definition set_overallValid (b : bool) (r : VerificationResults)
  : VerificationResults :=
  {| vr_batchId := vr_batchId r; overallValid := b;
     batchHashValid := batchHashValid r; vr_events := vr_events r;
     anchorVerifications := anchorVerifications r |}.

Section Service.

Variable host : Host.
Local Open Scope m_scope.

(** *** anchoring.js *)

Definition push_simulated (r : AnchorRecord) (a : AnchoringService)
  : AnchoringService :=
  {| explorerUrl := explorerUrl a; simulationMode := simulationMode a;
     simulatedTransactions := simulatedTransactions a ++ [r] |}.

(** anchorHash.  In simulation mode the transaction is invented and kept
    in [simulatedTransactions]; otherwise the ledger answers, and a failure
    is caught and reported in the result. *)
Definition anchorHash (id hash : string) : M AnchorResult :=
  timestamp <- draw (now_iso host) ;;
  simulation <- read_anchoring simulationMode ;;
  url <- read_anchoring explorerUrl ;;
  if simulation then
    hex <- draw (random_hex64 host) ;;
    let fakeTxHash := "0x" ++ hex in
    block <- draw (random_block host) ;;
    let anchorRecord :=
      {| ar_id := id; ar_hash := hash; ar_timestamp := timestamp;
         ar_txHash := fakeTxHash;
         ar_blockNumber := block + 50000000;
         ar_explorerUrl := url ++ "/tx/" ++ fakeTxHash;
         ar_simulated := true |} in
    write_anchoring (push_simulated anchorRecord) ;;;
    ret (AnchorSuccess anchorRecord)
  else
    outcome <- draw (fun n => ledger_logHash host n id hash) ;;
    match outcome with
    | Mined receiptHash blockNumber =>
        ret (AnchorSuccess
               {| ar_id := id; ar_hash := hash; ar_timestamp := timestamp;
                  ar_txHash := receiptHash;
                  ar_blockNumber := blockNumber;
                  ar_explorerUrl := url ++ "/tx/" ++ receiptHash;
                  ar_simulated := false |})
    | LedgerFailed message => ret (AnchorFailure message)
    end.

Definition anchorBatch (batchId batchHash : string) : M AnchorResult :=
  anchorHash ("batch:" ++ batchId) batchHash.

Definition anchorEvent (eventId eventHash : string) : M AnchorResult :=
  anchorHash ("event:" ++ eventId) eventHash.

(** verifyAnchor *)
Definition verifyAnchor (txHash : jsval) : M AnchorCheck :=
  simulation <- read_anchoring simulationMode ;;
  if simulation then
    transactions <- read_anchoring simulatedTransactions ;;
    let found := find (fun t => str_strict_eq (ar_txHash t) txHash)
                      transactions in
    ret {| verified := match found with Some _ => true | None => false end;
           ac_record := found |}
  else
    outcome <- draw (fun n => ledger_receipt host n txHash) ;;
    match outcome with
    | ReceiptFound => ret {| verified := true; ac_record := None |}
    | ReceiptNull => ret {| verified := false; ac_record := None |}
    | ReceiptFailed _ => ret {| verified := false; ac_record := None |}
    end.

(** *** provenance.js: documents *)

Definition registerDocument (documentData : DocumentData.t)
  : M Document.t :=
  documentData' <-
    (if truthy (DocumentData.content documentData)
        && negb (truthy (DocumentData.sha256Hash documentData))
     then
       h <- lift (hashDocument (digest host)
                    (DocumentData.content documentData)) ;;
       ret (DocumentData.with_hash (JStr h) documentData)
     else ret documentData) ;;
  id <- draw (uuidv4 host) ;;
  now <- draw (now_iso host) ;;
  let document := createDocument id now documentData' in
  write_db (saveDocument document) ;;;
  ret document.

Definition verifyDocument (documentId : string) (content : jsval)
  : M DocumentVerification :=
  found <- read_db (fun d => getDocument d documentId) ;;
  match found with
  | None =>
      ret {| valid := false; dv_error := Some "Document not found";
             dv_documentId := None; dv_fileName := None;
             dv_computedHash := None; dv_storedHash := None |}
  | Some doc =>
      result <- lift (verifyDocumentHash (digest host) content
                        (Document.sha256Hash doc)) ;;
      ret {| valid := isValid result; dv_error := None;
             dv_documentId := Some documentId;
             dv_fileName := Some (Document.fileName doc);
             dv_computedHash := Some (dhc_computedHash result);
             dv_storedHash := Some (dhc_storedHash result) |}
  end.

(** *** provenance.js: batches and events *)

(** [db.getDocument(docId)] for any value as the key: the keys of the Map
    are strings, and no other value is the same as one of them. *)
Definition lookup_document (d : Database) (docId : jsval) : option Document.t :=
  match docId with
  | JStr id => getDocument d id
  | _ => None
  end.

(** The callback of [documentIds.forEach], called on each element of an
    array in turn: [const doc = db.getDocument(docId); if (doc) {
    doc.relatedBatchId = ...; doc.relatedEventId = ...; }].  The stored
    document is changed in place. *)
Fixpoint link_documents (documentIds : list jsval) (b e : jsval)
  (d : Database) : Database :=
  match documentIds with
  | [] => d
  | docId :: rest =>
      link_documents rest b e
        match lookup_document d docId with
        | Some doc => put_document (Document.link b e doc) d
        | None => d
        end
  end.

(** The elements [documentIds.forEach] visits.  An array has the method;
    reading it from [null] or [undefined] is a TypeError, and so is calling
    it on another value, which has none.  (An object that carries a function
    under the name forEach is not covered: the code would call it.) *)
Definition forEach_items (documentIds : jsval) : completion (list jsval) :=
  match documentIds with
  | JArr items => Normal items
  | JNull =>
      Throw (TypeError "Cannot read properties of null (reading 'forEach')")
  | JUndefined =>
      Throw (TypeError "Cannot read properties of undefined (reading 'forEach')")
  | _ => Throw (TypeError "documentIds.forEach is not a function")
  end.

(** The value carries a function of its own under the name forEach. *)
Definition carries_forEach (v : jsval) : bool :=
  match v with
  | JObj props => match get props "forEach" with JFun => true | _ => false end
  | _ => false
  end.

(** createBatchAtMine.  The parameter default [documentIds = []] applies to
    [undefined] only; batch and event are saved before the documents are
    linked. *)
Definition createBatchAtMine (batchData : BatchData.t)
  (documentIds : jsval) : M BatchCreation :=
  let documentIds := with_default documentIds (JArr []) in
  bid <- draw (uuidv4 host) ;;
  bnow <- draw (now_iso host) ;;
  let batch :=
    Batch.set_documentIds documentIds (createBatch bid bnow batchData) in
  let createEventData :=
    {| EventData.eventType := EventType.CREATE;
       EventData.batchId := Batch.batchId batch;
       EventData.fromPartyId := JNull;
       EventData.toPartyId := Batch.ownerPartyId batch;
       EventData.fromFacilityId := JNull;
       EventData.toFacilityId := Batch.originFacilityId batch;
       EventData.weight := Quantity.weight (Batch.quantity batch);
       EventData.weightUnit := Quantity.unit (Batch.quantity batch);
       EventData.documentIds := documentIds;
       EventData.notes := JStr "Batch created at origin facility" |} in
  eid <- draw (uuidv4 host) ;;
  enow <- draw (now_iso host) ;;
  let event := createEvent eid enow createEventData in
  h <- lift (computeEventHash (digest host) event) ;;
  let event := Event.set_eventPayloadHash (JStr h) event in
  batchHash <- lift (computeBatchHash (digest host) batch) ;;
  batchAnchor <- anchorBatch (Batch.batchId batch) batchHash ;;
  eventAnchor <- anchorEvent (Event.eventId event) h ;;
  let event := Event.set_onChainTxHash (anchor_txHash eventAnchor) event in
  let batch := Batch.push_eventId (Event.eventId event) batch in
  write_db (saveBatch batch) ;;;
  write_db (saveEvent event) ;;;
  items <- lift (forEach_items documentIds) ;;
  write_db (link_documents items (JStr (Batch.batchId batch))
              (JStr (Event.eventId event))) ;;;
  ret {| bc_batch := batch; bc_event := event;
         bc_batchAnchor := batchAnchor; bc_eventAnchor := eventAnchor |}.

Definition batch_or_throw (batchId : string) : M Batch.t :=
  found <- read_db (fun d => getBatch d batchId) ;;
  match found with
  | Some batch => ret batch
  | None => throw (Error ("Batch " ++ batchId ++ " not found"))
  end.

Definition recordShipment (batchId : string) (shipmentData : ShipmentData.t)
  : M Recorded :=
  batch <- batch_or_throw batchId ;;
  id <- draw (uuidv4 host) ;;
  now <- draw (now_iso host) ;;
  let event := createEvent id now
    {| EventData.eventType := EventType.SHIP;
       EventData.batchId := batchId;
       EventData.fromPartyId := Batch.ownerPartyId batch;
       EventData.toPartyId := ShipmentData.toPartyId shipmentData;
       EventData.fromFacilityId :=
         or_else (ShipmentData.fromFacilityId shipmentData)
                 (Batch.originFacilityId batch);
       EventData.toFacilityId := ShipmentData.toFacilityId shipmentData;
       EventData.weight := Quantity.weight (Batch.quantity batch);
       EventData.weightUnit := Quantity.unit (Batch.quantity batch);
       EventData.documentIds :=
         or_else (ShipmentData.documentIds shipmentData) (JArr []);
       EventData.notes :=
         or_else (ShipmentData.notes shipmentData)
                 (JStr "Shipment dispatched") |} in
  h <- lift (computeEventHash (digest host) event) ;;
  let event := Event.set_eventPayloadHash (JStr h) event in
  anchor <- anchorEvent (Event.eventId event) h ;;
  let event := Event.set_onChainTxHash (anchor_txHash anchor) event in
  let batch := Batch.set_status BatchStatus.IN_TRANSIT batch in
  let batch := Batch.push_eventId (Event.eventId event) batch in
  write_db (updateBatch batch) ;;;
  write_db (saveEvent event) ;;;
  ret {| rec_event := event; rec_anchor := anchor; rec_batch := batch |}.

Definition recordTransfer (batchId : string) (transferData : ShipmentData.t)
  : M Recorded :=
  batch <- batch_or_throw batchId ;;
  id <- draw (uuidv4 host) ;;
  now <- draw (now_iso host) ;;
  let event := createEvent id now
    {| EventData.eventType := EventType.TRANSFER;
       EventData.batchId := batchId;
       EventData.fromPartyId := Batch.ownerPartyId batch;
       EventData.toPartyId := ShipmentData.toPartyId transferData;
       EventData.fromFacilityId := ShipmentData.fromFacilityId transferData;
       EventData.toFacilityId := ShipmentData.toFacilityId transferData;
       EventData.weight := Quantity.weight (Batch.quantity batch);
       EventData.weightUnit := Quantity.unit (Batch.quantity batch);
       EventData.documentIds :=
         or_else (ShipmentData.documentIds transferData) (JArr []);
       EventData.notes :=
         or_else (ShipmentData.notes transferData)
                 (JStr "Custody transferred") |} in
  h <- lift (computeEventHash (digest host) event) ;;
  let event := Event.set_eventPayloadHash (JStr h) event in
  anchor <- anchorEvent (Event.eventId event) h ;;
  let event := Event.set_onChainTxHash (anchor_txHash anchor) event in
  let batch :=
    Batch.set_ownerPartyId (ShipmentData.toPartyId transferData) batch in
  let batch := Batch.push_eventId (Event.eventId event) batch in
  write_db (updateBatch batch) ;;;
  write_db (saveEvent event) ;;;
  ret {| rec_event := event; rec_anchor := anchor; rec_batch := batch |}.

Definition recordReceipt (batchId : string) (receiptData : ReceiptData.t)
  : M Recorded :=
  batch <- batch_or_throw batchId ;;
  id <- draw (uuidv4 host) ;;
  now <- draw (now_iso host) ;;
  let event := createEvent id now
    {| EventData.eventType := EventType.RECEIVE;
       EventData.batchId := batchId;
       EventData.fromPartyId := Batch.ownerPartyId batch;
       EventData.toPartyId := ReceiptData.receiverPartyId receiptData;
       EventData.fromFacilityId := JNull;
       EventData.toFacilityId := ReceiptData.facilityId receiptData;
       EventData.weight :=
         or_else (ReceiptData.receivedWeight receiptData)
                 (Quantity.weight (Batch.quantity batch));
       EventData.weightUnit := Quantity.unit (Batch.quantity batch);
       EventData.documentIds :=
         or_else (ReceiptData.documentIds receiptData) (JArr []);
       EventData.notes :=
         or_else (ReceiptData.notes receiptData)
                 (JStr "Shipment received and acknowledged") |} in
  h <- lift (computeEventHash (digest host) event) ;;
  let event := Event.set_eventPayloadHash (JStr h) event in
  anchor <- anchorEvent (Event.eventId event) h ;;
  let event := Event.set_onChainTxHash (anchor_txHash anchor) event in
  let batch := Batch.set_status BatchStatus.RECEIVED batch in
  let batch :=
    Batch.set_ownerPartyId (ReceiptData.receiverPartyId receiptData) batch in
  let batch := Batch.push_eventId (Event.eventId event) batch in
  write_db (updateBatch batch) ;;;
  write_db (saveEvent event) ;;;
  ret {| rec_event := event; rec_anchor := anchor; rec_batch := batch |}.

Definition recordDispute (batchId : string) (disputeData : DisputeData.t)
  : M Recorded :=
  batch <- batch_or_throw batchId ;;
  id <- draw (uuidv4 host) ;;
  now <- draw (now_iso host) ;;
  let event := createEvent id now
    {| EventData.eventType := EventType.DISPUTE;
       EventData.batchId := batchId;
       EventData.fromPartyId := DisputeData.raisedByPartyId disputeData;
       EventData.toPartyId := JNull;
       EventData.fromFacilityId := JNull;
       EventData.toFacilityId := JNull;
       EventData.weight := JUndefined;
       EventData.weightUnit := JUndefined;
       EventData.documentIds :=
         or_else (DisputeData.documentIds disputeData) (JArr []);
       EventData.notes :=
         or_else (DisputeData.reason disputeData)
                 (JStr "Dispute raised") |} in
  h <- lift (computeEventHash (digest host) event) ;;
  let event := Event.set_eventPayloadHash (JStr h) event in
  anchor <- anchorEvent (Event.eventId event) h ;;
  let event := Event.set_onChainTxHash (anchor_txHash anchor) event in
  let batch := Batch.set_status BatchStatus.DISPUTE batch in
  let batch := Batch.push_eventId (Event.eventId event) batch in
  write_db (updateBatch batch) ;;;
  write_db (saveEvent event) ;;;
  ret {| rec_event := event; rec_anchor := anchor; rec_batch := batch |}.

(** *** provenance.js: verification *)

(** The body of [for (const event of events)], once per event. *)
Fixpoint verify_events (events : list Event.t)
  (verificationResults : VerificationResults) : M VerificationResults :=
  match events with
  | [] => ret verificationResults
  | event :: rest =>
      computedHash <- lift (computeEventHash (digest host) event) ;;
      let hashMatch :=
        str_strict_eq computedHash (Event.eventPayloadHash event) in
      checked <-
        (if truthy (Event.onChainTxHash event) then
           anchorCheck <- verifyAnchor (Event.onChainTxHash event) ;;
           ret (Some (verified anchorCheck),
                push_anchorVerification
                  {| av_eventId := Event.eventId event;
                     av_txHash := Event.onChainTxHash event;
                     av_verified := verified anchorCheck |}
                  verificationResults)
         else ret (None, verificationResults)) ;;
      let verificationResults :=
        push_eventCheck
          {| ec_eventId := Event.eventId event;
             ec_eventType := Event.eventType event;
             ec_storedHash := Event.eventPayloadHash event;
             ec_computedHash := computedHash;
             hashMatch := hashMatch;
             anchorValid := fst checked |}
          (snd checked) in
      verify_events rest
        (if negb hashMatch
         then set_overallValid false verificationResults
         else verificationResults)
  end.

Definition verifyBatchIntegrity (batchId : string) : M VerifyOutput :=
  found <- read_db (fun d => getBatch d batchId) ;;
  match found with
  | None => ret BatchNotFound
  | Some batch =>
      events <- read_db (fun d => getEventsByBatch (Date_value host) d batchId) ;;
      let verificationResults :=
        {| vr_batchId := batchId; overallValid := true;
           batchHashValid := true; vr_events := [];
           anchorVerifications := [] |} in
      computedBatchHash <- lift (computeBatchHash (digest host) batch) ;;
      results <- verify_events events verificationResults ;;
      ret (Verification results)
  end.

End Service.

(* ================================================================== *)
(** ** A host to run the code on *)

(** SHA-256 (FIPS 180-4) over the UTF-8 bytes of a string, in lowercase
    hexadecimal: the digest Node's [crypto] module computes. *)
Module SHA256.
Local Open Scope Z_scope.

Definition w32 (x : Z) : Z := x mod 4294967296.
Definition add (x y : Z) : Z := w32 (x + y).
Definition rotr (n x : Z) : Z :=
  Z.lor (Z.shiftr x n) (w32 (Z.shiftl x (32 - n))).
Definition Ch (x y z : Z) : Z :=
  Z.lxor (Z.land x y) (Z.land (Z.lxor x 4294967295) z).
Definition Maj (x y z : Z) : Z :=
  Z.lxor (Z.lxor (Z.land x y) (Z.land x z)) (Z.land y z).
Definition Sigma0 (x : Z) : Z :=
  Z.lxor (Z.lxor (rotr 2 x) (rotr 13 x)) (rotr 22 x).
Definition Sigma1 (x : Z) : Z :=
  Z.lxor (Z.lxor (rotr 6 x) (rotr 11 x)) (rotr 25 x).
Definition sigma0 (x : Z) : Z :=
  Z.lxor (Z.lxor (rotr 7 x) (rotr 18 x)) (Z.shiftr x 3).
Definition sigma1 (x : Z) : Z :=
  Z.lxor (Z.lxor (rotr 17 x) (rotr 19 x)) (Z.shiftr x 10).

(** The round constants and the initial state are derived as FIPS 180-4
    defines them: the first 32 bits of the fractional parts of the cube
    roots of the first 64 primes, and of the square roots of the first 8. *)
Definition is_prime (n : Z) : bool :=
  (1 <? n)
  && forallb (fun d => negb (n mod d =? 0))
             (map Z.of_nat (seq 2 (Z.to_nat n - 2))).

Definition primes64 : list Z :=
  Eval vm_compute in firstn 64 (filter is_prime (map Z.of_nat (seq 2 310))).

(** The integer cube root of [n], one bit at a time from bit [bits - 1]. *)
Fixpoint cube_root (bits : nat) (n x : Z) : Z :=
  match bits with
  | O => x
  | S b =>
      let y := x + 2 ^ Z.of_nat b in
      cube_root b n (if y * y * y <=? n then y else x)
  end.

Definition K : list Z :=
  Eval vm_compute in map (fun p => w32 (cube_root 36 (p * 2 ^ 96) 0)) primes64.

Definition H0 : list Z :=
  Eval vm_compute in map (fun p => w32 (Z.sqrt (p * 2 ^ 64))) (firstn 8 primes64).

(** UTF-8 of a string of code units below 256. *)
Fixpoint utf8 (s : string) : list Z :=
  match s with
  | EmptyString => []
  | String c rest =>
      let n := Z.of_N (N_of_ascii c) in
      if n <? 128 then n :: utf8 rest
      else Z.lor 192 (Z.shiftr n 6) :: Z.lor 128 (Z.land n 63) :: utf8 rest
  end.

Definition be_bytes (count : nat) (x : Z) : list Z :=
  map (fun i => Z.land (Z.shiftr x (8 * Z.of_nat i)) 255)
      (rev (seq 0 count)).

Definition pad (bytes : list Z) : list Z :=
  let len := Z.of_nat (length bytes) in
  let zeros := Z.to_nat ((55 - len) mod 64) in
  bytes ++ [128] ++ repeat 0 zeros ++ be_bytes 8 (8 * len).

Fixpoint words (fuel : nat) (bytes : list Z) : list Z :=
  match fuel, bytes with
  | S fuel', a :: b :: c :: d :: rest =>
      (((a * 256 + b) * 256 + c) * 256 + d) :: words fuel' rest
  | _, _ => []
  end.

(** The message schedule, most recent word first. *)
Fixpoint extend (count : nat) (w : list Z) : list Z :=
  match count with
  | O => w
  | S count' =>
      let x := add (add (sigma1 (nth 1 w 0)) (nth 6 w 0))
                   (add (sigma0 (nth 14 w 0)) (nth 15 w 0)) in
      extend count' (x :: w)
  end.

Definition round (st : list Z) (kw : Z * Z) : list Z :=
  match st with
  | [a; b; c; d; e; f; g; h] =>
      let t1 := add (add (add h (Sigma1 e)) (add (Ch e f g) (fst kw)))
                    (snd kw) in
      let t2 := add (Sigma0 a) (Maj a b c) in
      [add t1 t2; a; b; c; add d t1; e; f; g]
  | _ => st
  end.

Definition compress (st : list Z) (block : list Z) : list Z :=
  let w := rev (extend 48 (rev block)) in
  let st' := fold_left round (combine K w) st in
  map (fun p => add (fst p) (snd p)) (combine st st').

Fixpoint blocks (fuel : nat) (ws : list Z) (st : list Z) : list Z :=
  match fuel with
  | O => st
  | S fuel' =>
      match ws with
      | [] => st
      | _ => blocks fuel' (skipn 16 ws) (compress st (firstn 16 ws))
      end
  end.

Definition hex_byte (b : Z) : string :=
  hex_digit (Z.to_N (b / 16)) ++ hex_digit (Z.to_N (b mod 16)).

Definition hex (s : string) : string :=
  let bytes := pad (utf8 s) in
  let ws := words (length bytes) bytes in
  let st := blocks (length ws) ws H0 in
  String.concat "" (map hex_byte (flat_map (be_bytes 4) st)).
End SHA256.

Definition nat_text (n : nat) : string :=
  NilZero.string_of_uint (Nat.to_uint n).

Definition two_digits (n : nat) : string :=
  nat_text (n / 10 mod 10) ++ nat_text (n mod 10).

Definition digit_value (c : ascii) : Z := Z.of_N (N_of_ascii c) - 48.

(** A host for running the code: real SHA-256, numbered uuids, a clock that
    advances one second per draw within 2024-01-01T00:00, a ledger that is
    not reachable. *)
Definition sampleHost : Host :=
  {| digest := SHA256.hex;
     uuidv4 := fun n => "uuid-" ++ nat_text n;
     now_iso := fun n => "2024-01-01T00:00:" ++ two_digits n ++ ".000Z";
     random_hex64 := fun n => SHA256.hex ("tx" ++ nat_text n);
     random_block := fun n => Z.of_nat n;
     ledger_logHash := fun _ _ _ => LedgerFailed "no provider";
     ledger_receipt := fun _ _ => ReceiptNull;
     Date_value := fun v =>
       match v with
       | JStr s | JDate (Some s) =>
           match substring 17 2 s with
           | String a (String b EmptyString) =>
               Some (1704067200000
                     + 1000 * (10 * digit_value a + digit_value b))%Z
           | _ => None
           end
       | _ => None
       end |}.

Definition sampleBatchData : BatchData.t :=
  {| BatchData.externalReferenceNumber := JStr "GOLD-2024-001";
     BatchData.commodityType := JStr "Gold";
     BatchData.originFacilityId := JStr "facility-mine";
     BatchData.ownerPartyId := JStr "party-mine";
     BatchData.weight := JNum (Int 25);
     BatchData.weightUnit := JUndefined;
     BatchData.declaredAssayValue := JUndefined;
     BatchData.declaredAssayUnit := JUndefined;
     BatchData.notes := JUndefined |}.

Definition sampleShipment : ShipmentData.t :=
  {| ShipmentData.toPartyId := JStr "party-buyer";
     ShipmentData.fromFacilityId := JUndefined;
     ShipmentData.toFacilityId := JStr "facility-port";
     ShipmentData.documentIds := JUndefined;
     ShipmentData.notes := JUndefined |}.

Definition sampleReceipt : ReceiptData.t :=
  {| ReceiptData.receiverPartyId := JStr "party-buyer";
     ReceiptData.facilityId := JStr "facility-port";
     ReceiptData.receivedWeight := JUndefined;
     ReceiptData.documentIds := JUndefined;
     ReceiptData.notes := JUndefined |}.

Definition run {A : Type} (m : M A) (w : World) : World := snd (m w).

(** The batch "uuid-0" created at the mine: status Created, one event. *)
Definition worldCreated : World :=
  Eval vm_compute in
    run (createBatchAtMine sampleHost sampleBatchData JUndefined) newWorld.

(** ... then shipped ... *)
Definition worldShipped : World :=
  Eval vm_compute in run (recordShipment sampleHost "uuid-0" sampleShipment) worldCreated.

(** ... then received: three events. *)
Definition worldReceived : World :=
  Eval vm_compute in run (recordReceipt sampleHost "uuid-0" sampleReceipt) worldShipped.

(** Storage corruption: a stored record is overwritten behind the service's
    back. *)
Definition corrupt_db (f : Database -> Database) (w : World) : World :=
  {| db := f (db w); anchoring := anchoring w; tick := tick w |}.

Definition retarget_event (party : jsval) (e : Event.t) : Event.t :=
  Event.mk (Event.eventId e) (Event.eventType e) (Event.eventTimestamp e)
    (Event.batchId e) (Event.fromPartyId e) party (Event.fromFacilityId e)
    (Event.toFacilityId e) (Event.quantity e) (Event.references e)
    (Event.notes e) (Event.eventPayloadHash e) (Event.onChainTxHash e).

Definition relabel_batch (commodity : jsval) (b : Batch.t) : Batch.t :=
  Batch.mk (Batch.batchId b) (Batch.externalReferenceNumber b) commodity
    (Batch.originFacilityId b) (Batch.ownerPartyId b)
    (Batch.creationTimestamp b) (Batch.quantity b) (Batch.declaredAssay b)
    (Batch.status b) (Batch.parentBatchIds b) (Batch.notes b)
    (Batch.documentIds b) (Batch.eventIds b).

Definition map_adjust {V : Type} (f : V -> V) (k : string)
  (m : list (string * V)) : list (string * V) :=
  map (fun kv => if (fst kv =? k) then (fst kv, f (snd kv)) else kv) m.

Definition corrupt_event (f : Event.t -> Event.t) (eventId : string)
  (d : Database) : Database :=
  {| batches := batches d; events := map_adjust f eventId (events d);
     documents := documents d; auditLog := auditLog d |}.

Definition corrupt_batch (f : Batch.t -> Batch.t) (batchId : string)
  (d : Database) : Database :=
  {| batches := map_adjust f batchId (batches d); events := events d;
     documents := documents d; auditLog := auditLog d |}.

Definition forget_anchors (w : World) : World :=
  {| db := db w;
     anchoring := {| explorerUrl := explorerUrl (anchoring w);
                     simulationMode := simulationMode (anchoring w);
                     simulatedTransactions := [] |};
     tick := tick w |}.

(** The same record built in two property orders. *)
Definition sampleRecord : jsval :=
  JObj [("weight", JNum (Int 25));
        ("holder", JObj [("name", JStr "Acme"); ("tags", JArr [JNull; JBool true])]);
        ("unit", JStr "kg")].

Definition sampleRecordReordered : jsval :=
  JObj [("unit", JStr "kg");
        ("holder", JObj [("tags", JArr [JNull; JBool true]); ("name", JStr "Acme")]);
        ("weight", JNum (Int 25))].

(** The text canonicalizeJSON returns for an object with the given
    properties (see [canonicalizeJSON_object]). *)
Definition object_text (props : list (string * jsval)) : string :=
  "{" ++ String.concat ","
           (map (fun key =>
                   JSON_quote key ++ ":"
                   ++ concat_operand (canonicalizeJSON (get props key)))
                (filter (fun key => negb (is_undefined (get props key)))
                        (sort (keys props))))
      ++ "}".

(** [computedHash === event.eventPayloadHash], as verifyBatchIntegrity
    evaluates it for one event. *)
Definition fingerprint_intact (digest : string -> string) (e : Event.t)
  : bool :=
  match computeEventHash digest e with
  | Normal computedHash => str_strict_eq computedHash (Event.eventPayloadHash e)
  | Throw _ => false
  end.

(** The payload literal of the event can be evaluated: its timestamp is not
    an invalid Date. *)
Definition hashable (e : Event.t) : bool :=
  normalizable (Event.eventTimestamp e).

(** The entry [c] of [verificationResults.events] reports the event [e]. *)
Definition reports (digest : string -> string) (e : Event.t) (c : EventCheck)
  : Prop :=
  ec_eventId c = Event.eventId e
  /\ ec_eventType c = Event.eventType e
  /\ ec_storedHash c = Event.eventPayloadHash e
  /\ computeEventHash digest e = Normal (ec_computedHash c)
  /\ hashMatch c = str_strict_eq (ec_computedHash c) (ec_storedHash c).

(** The received batch after the Ship event's recipient was overwritten in
    storage. *)
Definition worldEventTampered : World :=
  Eval vm_compute in
    corrupt_db (corrupt_event (retarget_event (JStr "party-thief")) "uuid-10")
               worldReceived.



(** The same corruption applied to the event's timestamp. *)
Definition retime_event (t : jsval) (e : Event.t) : Event.t :=
  Event.mk (Event.eventId e) (Event.eventType e) t
    (Event.batchId e) (Event.fromPartyId e) (Event.toPartyId e)
    (Event.fromFacilityId e) (Event.toFacilityId e) (Event.quantity e)
    (Event.references e) (Event.notes e) (Event.eventPayloadHash e)
    (Event.onChainTxHash e).

Definition retime_batch (t : jsval) (b : Batch.t) : Batch.t :=
  Batch.mk (Batch.batchId b) (Batch.externalReferenceNumber b)
    (Batch.commodityType b) (Batch.originFacilityId b) (Batch.ownerPartyId b)
    t (Batch.quantity b) (Batch.declaredAssay b) (Batch.status b)
    (Batch.parentBatchIds b) (Batch.notes b) (Batch.documentIds b)
    (Batch.eventIds b).



(** The created batch after its commodity was overwritten in storage. *)
Definition worldBatchRelabelled : World :=
  Eval vm_compute in
    corrupt_db (corrupt_batch (relabel_batch (JStr "Lead")) "uuid-0")
               worldCreated.

(** The received batch seen by an anchoring service that has lost its
    simulated transactions: no anchor can be confirmed. *)
Definition worldUnanchored : World :=
  Eval vm_compute in forget_anchors worldReceived.




Definition object_keys (v : jsval) : list string :=
  match v with JObj props => keys props | _ => [] end.

(** The argument object with one property replaced. *)
Definition with_weight (weight : jsval) (d : EventData.t) : EventData.t :=
  EventData.mk (EventData.eventType d) (EventData.batchId d)
    (EventData.fromPartyId d) (EventData.toPartyId d)
    (EventData.fromFacilityId d) (EventData.toFacilityId d) weight
    (EventData.weightUnit d) (EventData.documentIds d) (EventData.notes d).

Definition with_declaredAssayValue (value : jsval) (d : BatchData.t)
  : BatchData.t :=
  BatchData.mk (BatchData.externalReferenceNumber d) (BatchData.commodityType d)
    (BatchData.originFacilityId d) (BatchData.ownerPartyId d)
    (BatchData.weight d) (BatchData.weightUnit d) value
    (BatchData.declaredAssayUnit d) (BatchData.notes d).

Definition with_content (content : jsval) (d : DocumentData.t)
  : DocumentData.t :=
  DocumentData.mk content (DocumentData.documentType d)
    (DocumentData.fileName d) (DocumentData.storageUri d)
    (DocumentData.sha256Hash d) (DocumentData.issuerPartyId d)
    (DocumentData.issuedDate d) (DocumentData.relatedBatchId d)
    (DocumentData.relatedEventId d) (DocumentData.confidentialityLevel d).

(** A dispute raised with nothing but the batch id. *)
Definition sampleBareEvent : Event.t :=
  createEvent "event-1" "2024-01-01T00:00:30.000Z"
    {| EventData.eventType := EventType.DISPUTE;
       EventData.batchId := "uuid-0";
       EventData.fromPartyId := JUndefined;
       EventData.toPartyId := JUndefined;
       EventData.fromFacilityId := JUndefined;
       EventData.toFacilityId := JUndefined;
       EventData.weight := JUndefined;
       EventData.weightUnit := JUndefined;
       EventData.documentIds := JUndefined;
       EventData.notes := JUndefined |}.

Definition sampleDocumentData : DocumentData.t :=
  {| DocumentData.content := JStr "hello";
     DocumentData.documentType := JStr "AssayReport";
     DocumentData.fileName := JStr "assay.pdf";
     DocumentData.storageUri := JStr "file:///assay.pdf";
     DocumentData.sha256Hash := JUndefined;
     DocumentData.issuerPartyId := JStr "party-mine";
     DocumentData.issuedDate := JUndefined;
     DocumentData.relatedBatchId := JUndefined;
     DocumentData.relatedEventId := JUndefined;
     DocumentData.confidentialityLevel := JUndefined |}.

(** The same registration with the empty string as content. *)
Definition emptyDocumentData : DocumentData.t :=
  with_content (JStr "") sampleDocumentData.

(* ================================================================== *)
(** ** More of database.js, anchoring.js and provenance.js *)

Definition getAllBatches (d : Database) : list Batch.t := map snd (batches d).

(** [find(b => b.externalReferenceNumber === ref) || null] *)
Definition getBatchByReference (d : Database) (externalReferenceNumber : string)
  : option Batch.t :=
  find (fun b => str_strict_eq externalReferenceNumber
                   (Batch.externalReferenceNumber b))
       (getAllBatches d).

Definition getBatchesByOwner (d : Database) (ownerPartyId : string)
  : list Batch.t :=
  filter (fun b => str_strict_eq ownerPartyId (Batch.ownerPartyId b))
         (getAllBatches d).

Definition getEvent (d : Database) (eventId : string) : option Event.t :=
  map_get eventId (events d).

Definition getAllDocuments (d : Database) : list Document.t :=
  map snd (documents d).

Definition getDocumentsByBatch (d : Database) (batchId : string)
  : list Document.t :=
  filter (fun x => str_strict_eq batchId (Document.relatedBatchId x))
         (getAllDocuments d).

Definition getDocumentsByEvent (d : Database) (eventId : string)
  : list Document.t :=
  filter (fun x => str_strict_eq eventId (Document.relatedEventId x))
         (getAllDocuments d).

(** getAuditLog: the entries of one entity, or, for a falsy id, a copy of
    the whole log. *)
Definition getAuditLog (d : Database) (id : jsval) : list AuditEntry :=
  if truthy id
  then filter (fun entry => str_strict_eq (entityId entry) id) (auditLog d)
  else auditLog d.

(** getExplorerUrl *)
Definition getExplorerUrl (a : AnchoringService) (txHash : string) : string :=
  explorerUrl a ++ "/tx/" ++ txHash.

Definition getSimulatedTransactions (a : AnchoringService)
  : list AnchorRecord :=
  simulatedTransactions a.

Definition isSimulated (a : AnchoringService) : bool := simulationMode a.

Module InspectionData.
Record t : Type := mk {
  inspectorPartyId : jsval;
  facilityId : jsval;
  documentIds : jsval;
  notes : jsval
}.
End InspectionData.

Module AssayData.
Record t : Type := mk {
  assayerPartyId : jsval;
  facilityId : jsval;
  assayValue : jsval;
  assayUnit : jsval;
  documentIds : jsval
}.
End AssayData.

(** [{ status, message }] of _computeVerificationStatus. *)
Inductive DisplayStatus : Type :=
| DISPLAY_DISPUTED
| DISPLAY_INCOMPLETE (message : string)
| DISPLAY_PARTIAL
| DISPLAY_VERIFIED.

Definition is_create (t : EventType.t) : bool :=
  match t with EventType.CREATE => true | _ => false end.

Definition is_dispute_status (s : BatchStatus.t) : bool :=
  match s with BatchStatus.DISPUTE => true | _ => false end.

(** _computeVerificationStatus *)
Definition _computeVerificationStatus (batch : Batch.t)
  (events : list Event.t) (documents : list Document.t) : DisplayStatus :=
  let hasCreateEvent := existsb (fun e => is_create (Event.eventType e)) events in
  let hasDocuments := (0 <? length documents)%nat in
  let allEventsAnchored :=
    forallb (fun e => truthy (Event.onChainTxHash e)) events in
  if is_dispute_status (Batch.status batch) then DISPLAY_DISPUTED
  else if negb hasCreateEvent then DISPLAY_INCOMPLETE "Missing creation event"
  else if negb hasDocuments
       then DISPLAY_INCOMPLETE "No supporting documents attached"
  else if negb allEventsAnchored then DISPLAY_PARTIAL
  else DISPLAY_VERIFIED.

Section MoreServices.

Variable host : Host.

(** The text a template literal gives for a value. *)
Variable ToString : jsval -> string.

Local Open Scope m_scope.

Definition recordInspection (batchId : string)
  (inspectionData : InspectionData.t) : M Recorded :=
  batch <- batch_or_throw batchId ;;
  id <- draw (uuidv4 host) ;;
  now <- draw (now_iso host) ;;
  let event := createEvent id now
    {| EventData.eventType := EventType.INSPECT_TEST;
       EventData.batchId := batchId;
       EventData.fromPartyId := InspectionData.inspectorPartyId inspectionData;
       EventData.toPartyId := JNull;
       EventData.fromFacilityId := InspectionData.facilityId inspectionData;
       EventData.toFacilityId := JNull;
       EventData.weight := Quantity.weight (Batch.quantity batch);
       EventData.weightUnit := Quantity.unit (Batch.quantity batch);
       EventData.documentIds :=
         or_else (InspectionData.documentIds inspectionData) (JArr []);
       EventData.notes :=
         or_else (InspectionData.notes inspectionData)
                 (JStr "Inspection/testing completed") |} in
  h <- lift (computeEventHash (digest host) event) ;;
  let event := Event.set_eventPayloadHash (JStr h) event in
  anchor <- anchorEvent host (Event.eventId event) h ;;
  let event := Event.set_onChainTxHash (anchor_txHash anchor) event in
  let batch := Batch.push_eventId (Event.eventId event) batch in
  write_db (updateBatch batch) ;;;
  write_db (saveEvent event) ;;;
  ret {| rec_event := event; rec_anchor := anchor; rec_batch := batch |}.

Definition recordAssayFinalized (batchId : string) (assayData : AssayData.t)
  : M Recorded :=
  batch <- batch_or_throw batchId ;;
  id <- draw (uuidv4 host) ;;
  now <- draw (now_iso host) ;;
  let event := createEvent id now
    {| EventData.eventType := EventType.ASSAY_FINALIZED;
       EventData.batchId := batchId;
       EventData.fromPartyId := AssayData.assayerPartyId assayData;
       EventData.toPartyId := JNull;
       EventData.fromFacilityId := AssayData.facilityId assayData;
       EventData.toFacilityId := JNull;
       EventData.weight := Quantity.weight (Batch.quantity batch);
       EventData.weightUnit := Quantity.unit (Batch.quantity batch);
       EventData.documentIds :=
         or_else (AssayData.documentIds assayData) (JArr []);
       EventData.notes :=
         JStr ("Assay finalized: " ++ ToString (AssayData.assayValue assayData)
               ++ " "
               ++ ToString (or_else (AssayData.assayUnit assayData)
                                    (JStr "g/t"))) |} in
  h <- lift (computeEventHash (digest host) event) ;;
  let event := Event.set_eventPayloadHash (JStr h) event in
  anchor <- anchorEvent host (Event.eventId event) h ;;
  let event := Event.set_onChainTxHash (anchor_txHash anchor) event in
  let batch :=
    Batch.set_declaredAssay
      (JObj [("value", AssayData.assayValue assayData);
             ("unit", or_else (AssayData.assayUnit assayData) (JStr "g/t"))])
      batch in
  let batch := Batch.push_eventId (Event.eventId event) batch in
  write_db (updateBatch batch) ;;;
  write_db (saveEvent event) ;;;
  ret {| rec_event := event; rec_anchor := anchor; rec_batch := batch |}.

(** The calls a client of the provenance service can make. *)
Inductive Request : Type :=
| RegisterDocument (documentData : DocumentData.t)
| VerifyDocument (documentId : string) (content : jsval)
| CreateBatchAtMine (batchData : BatchData.t) (documentIds : jsval)
| RecordShipment (batchId : string) (data : ShipmentData.t)
| RecordTransfer (batchId : string) (data : ShipmentData.t)
| RecordReceipt (batchId : string) (data : ReceiptData.t)
| RecordInspection (batchId : string) (data : InspectionData.t)
| RecordAssayFinalized (batchId : string) (data : AssayData.t)
| RecordDispute (batchId : string) (data : DisputeData.t)
| VerifyBatchIntegrity (batchId : string).

(** The world after one call, whether it returned or threw. *)
Definition serve (w : World) (q : Request) : World :=
  match q with
  | RegisterDocument d => run (registerDocument host d) w
  | VerifyDocument id content => run (verifyDocument host id content) w
  | CreateBatchAtMine d ids => run (createBatchAtMine host d ids) w
  | RecordShipment id d => run (recordShipment host id d) w
  | RecordTransfer id d => run (recordTransfer host id d) w
  | RecordReceipt id d => run (recordReceipt host id d) w
  | RecordInspection id d => run (recordInspection id d) w
  | RecordAssayFinalized id d => run (recordAssayFinalized id d) w
  | RecordDispute id d => run (recordDispute host id d) w
  | VerifyBatchIntegrity id => run (verifyBatchIntegrity host id) w
  end.

(** The world after a sequence of calls on the freshly started service. *)
Definition serve_all (qs : list Request) : World := fold_left serve qs newWorld.

End MoreServices.

Definition display_status_text (s : DisplayStatus) : string :=
  match s with
  | DISPLAY_DISPUTED => "DISPUTED"
  | DISPLAY_INCOMPLETE _ => "INCOMPLETE"
  | DISPLAY_PARTIAL => "PARTIAL"
  | DISPLAY_VERIFIED => "VERIFIED"
  end.

Definition display_message (s : DisplayStatus) : string :=
  match s with
  | DISPLAY_DISPUTED => "Batch has an active dispute"
  | DISPLAY_INCOMPLETE message => message
  | DISPLAY_PARTIAL => "Some events not yet anchored on blockchain"
  | DISPLAY_VERIFIED => "All events recorded and anchored"
  end.

(** What each event-recording service does on a stored [batch]: it draws an
    id and a clock text, fingerprints the new event, anchors the fingerprint,
    attaches the anchor reference, applies [update] to the batch, pushes the
    event id, and writes batch and event. *)
Definition recording (host : Host) (ty : EventType.t) (batchId : string)
  (update : Batch.t -> Batch.t) (w : World) (batch : Batch.t)
  (r : Recorded) (w' : World) : Prop :=
  exists h wa,
    anchorEvent host (uuidv4 host (tick w)) h
      {| db := db w; anchoring := anchoring w; tick := S (S (tick w)) |}
    = (Normal (rec_anchor r), wa)
    /\ db wa = db w
    /\ Event.eventId (rec_event r) = uuidv4 host (tick w)
    /\ Event.eventType (rec_event r) = ty
    /\ Event.batchId (rec_event r) = batchId
    /\ Event.eventTimestamp (rec_event r) = JStr (now_iso host (S (tick w)))
    /\ Event.eventPayloadHash (rec_event r) = JStr h
    /\ computeEventHash (digest host) (rec_event r) = Normal h
    /\ Event.onChainTxHash (rec_event r) = anchor_txHash (rec_anchor r)
    /\ rec_batch r = Batch.push_eventId (uuidv4 host (tick w)) (update batch)
    /\ w' = {| db := saveEvent (rec_event r)
                       (updateBatch (rec_batch r) (db w));
               anchoring := anchoring wa;
               tick := tick wa |}.

(** A change of a batch that keeps its id, its event list and its creation
    timestamp and does not close it. *)
Definition keeps_batch (update : Batch.t -> Batch.t) : Prop :=
  forall b,
    Batch.batchId (update b) = Batch.batchId b
    /\ Batch.eventIds (update b) = Batch.eventIds b
    /\ (Batch.status b <> BatchStatus.CLOSED ->
        Batch.status (update b) <> BatchStatus.CLOSED)
    /\ Batch.creationTimestamp (update b) = Batch.creationTimestamp b.

(** The state of a service that runs in simulation mode and whose store was
    written by the provenance service only. *)
Record sound (host : Host) (w : World) : Prop := {
  sound_simulation : simulationMode (anchoring w) = true;
  sound_batches : forall k b,
    In (k, b) (batches (db w)) ->
    Batch.batchId b = k
    /\ Batch.status b <> BatchStatus.CLOSED
    /\ (forall id, In id (Batch.eventIds b) -> getEvent (db w) id <> None)
    /\ normalizable (Batch.creationTimestamp b) = true;
  sound_events : forall k e,
    In (k, e) (events (db w)) ->
    Event.eventId e = k
    /\ fingerprint_intact (digest host) e = true
    /\ Event.eventType e <> EventType.RESOLVE
    /\ getBatch (db w) (Event.batchId e) <> None
    /\ truthy (Event.onChainTxHash e) = true
    /\ exists t,
        In t (simulatedTransactions (anchoring w))
        /\ Event.onChainTxHash e = JStr (ar_txHash t)
        /\ Event.eventPayloadHash e = JStr (ar_hash t)
        /\ ar_id t = "event:" ++ Event.eventId e;
  sound_documents : forall k x,
    In (k, x) (documents (db w)) -> Document.documentId x = k
}.

(** Template-literal text for the sample host: primitives as JavaScript
    prints them, every object as its default text. *)
Definition sampleToString (v : jsval) : string :=
  match v with
  | JUndefined => "undefined"
  | JNull => "null"
  | JBool true => "true"
  | JBool false => "false"
  | JNum NaN => "NaN"
  | JNum (Infinity false) => "Infinity"
  | JNum (Infinity true) => "-Infinity"
  | JNum n => number_text n
  | JStr s => s
  | _ => "[object Object]"
  end.

(** A session: create a batch, ship it, inspect it, receive it, finalize the
    assay. *)
Definition sampleSession : list Request :=
  [CreateBatchAtMine sampleBatchData JUndefined;
   RecordShipment "uuid-0" sampleShipment;
   RecordInspection "uuid-0"
     {| InspectionData.inspectorPartyId := JStr "party-auditor";
        InspectionData.facilityId := JStr "facility-port";
        InspectionData.documentIds := JUndefined;
        InspectionData.notes := JUndefined |};
   RecordReceipt "uuid-0" sampleReceipt;
   RecordAssayFinalized "uuid-0"
     {| AssayData.assayerPartyId := JStr "party-refinery";
        AssayData.facilityId := JStr "facility-refinery";
        AssayData.assayValue := JNum (Int 0);
        AssayData.assayUnit := JUndefined;
        AssayData.documentIds := JUndefined |}].

Definition worldSession : World :=
  Eval vm_compute in serve_all sampleHost sampleToString sampleSession.

(** Entries written under the default user id. *)
Definition system_entries (l : list AuditEntry) : Prop :=
  Forall (fun entry => userId entry = "system") l.










(** The store createBatchAtMine leaves: batch and event saved, and the
    documents linked when [forEach] could be called. *)
Definition created_store (documentIds : jsval) (batch : Batch.t)
  (event : Event.t) (d : Database) : Database :=
  match forEach_items documentIds with
  | Normal items =>
      link_documents items (JStr (Batch.batchId batch))
        (JStr (Event.eventId event)) (saveEvent event (saveBatch batch d))
  | Throw _ => saveEvent event (saveBatch batch d)
  end.

(** What linking does to one stored document. *)
Definition linked (ids : list jsval) (b e : jsval) (k : string)
  (doc : Document.t) : Document.t :=
  if existsb (str_strict_eq k) ids then Document.link b e doc else doc.

(** A document registered with a structured content. *)
Definition structuredDocumentData : DocumentData.t :=
  with_content (JObj [("grade", JNum (Int 22)); ("assayer", JStr "Acme")])
    sampleDocumentData.

(** A store holding one registered document, and a batch created with that
    document and an unknown one attached. *)
Definition worldWithDocument : World :=
  Eval vm_compute in run (registerDocument sampleHost sampleDocumentData) newWorld.

(* ================================================================== *)
(** ** api.js: the routes over the provenance service *)





Section Routes.

Variable host : Host.
Variable ToString : jsval -> string.












End Routes.

(* ================================================================== *)
(** * Properties *)

(** ** The order of strings and the sort *)

Lemma ascii_compare_lt_trans (a b c : ascii) :
  Ascii.compare a b = Lt -> Ascii.compare b c = Lt -> Ascii.compare a c = Lt.
Proof.
  unfold Ascii.compare. rewrite !N.compare_lt_iff. lia.
Qed.

Lemma string_compare_lt_trans (a b c : string) :
  String.compare a b = Lt -> String.compare b c = Lt -> String.compare a c = Lt.
Proof.
  revert b c. induction a as [|x a IH]; intros [|y b] [|z c]; simpl;
    try congruence.
  destruct (Ascii.compare x y) eqn:Exy; try discriminate.
  - apply Ascii.compare_eq_iff in Exy. subst y.
    destruct (Ascii.compare x z); try congruence. intros. eauto.
  - intros _. destruct (Ascii.compare y z) eqn:Eyz; try discriminate.
    + apply Ascii.compare_eq_iff in Eyz. subst z. rewrite Exy. reflexivity.
    + intros _. rewrite (ascii_compare_lt_trans x y z Exy Eyz). reflexivity.
Qed.

Lemma string_leb_trans (a b c : string) :
  (a <=? b) = true -> (b <=? c) = true -> (a <=? c) = true.
Proof.
  unfold String.leb.
  destruct (String.compare a b) eqn:Eab; try discriminate; intros _.
  - apply String.compare_eq_iff in Eab. subst b. trivial.
  - destruct (String.compare b c) eqn:Ebc; try discriminate; intros _.
    + apply String.compare_eq_iff in Ebc. subst c. rewrite Eab. reflexivity.
    + rewrite (string_compare_lt_trans a b c Eab Ebc). reflexivity.
Qed.

Lemma string_leb_false (a b : string) :
  (a <=? b) = false -> (b <=? a) = true.
Proof.
  intros H. destruct (String.leb_total a b) as [H'|H']; congruence.
Qed.

Lemma insert_sorted_comm (a b : string) (l : list string) :
  insert_sorted a (insert_sorted b l) = insert_sorted b (insert_sorted a l).
Proof.
  induction l as [|c l IH]; simpl.
  - destruct (a <=? b) eqn:Eab, (b <=? a) eqn:Eba; trivial.
    + rewrite (String.leb_antisym a b Eab Eba). reflexivity.
    + apply string_leb_false in Eab. congruence.
  - destruct (b <=? c) eqn:Ebc, (a <=? c) eqn:Eac; simpl;
      rewrite ?Ebc, ?Eac.
    + destruct (a <=? b) eqn:Eab, (b <=? a) eqn:Eba; trivial.
      * rewrite (String.leb_antisym a b Eab Eba). reflexivity.
      * apply string_leb_false in Eab. congruence.
    + destruct (a <=? b) eqn:Eab.
      * rewrite (string_leb_trans a b c Eab Ebc) in Eac. discriminate.
      * reflexivity.
    + destruct (b <=? a) eqn:Eba.
      * rewrite (string_leb_trans b a c Eba Eac) in Ebc. discriminate.
      * reflexivity.
    + rewrite IH. reflexivity.
Qed.

(** The sorted keys depend on the set of keys only, not on their order. *)
Lemma sort_Permutation (l l' : list string) :
  Permutation l l' -> sort l = sort l'.
Proof.
  induction 1; simpl; try congruence.
  apply insert_sorted_comm.
Qed.

(** ** Induction over values *)

Lemma jsval_nested_ind (P : jsval -> Prop) :
  P JUndefined -> P JNull -> (forall b, P (JBool b)) ->
  (forall n, P (JNum n)) -> (forall s, P (JStr s)) -> P JFun ->
  (forall iso, P (JDate iso)) ->
  (forall items, Forall P items -> P (JArr items)) ->
  (forall props, Forall (fun p => P (snd p)) props -> P (JObj props)) ->
  forall v, P v.
Proof.
  intros Hu Hn Hb Hnum Hs Hf Hd Harr Hobj.
  fix IH 1.
  intros [ | | b | n | s | | iso | items | props];
    [exact Hu | exact Hn | apply Hb | apply Hnum | apply Hs | exact Hf
    | apply Hd | | ].
  - apply Harr. revert items. fix IHl 1. intros [|x rest].
    + constructor.
    + constructor; [apply IH | apply IHl].
  - apply Hobj. revert props. fix IHl 1. intros [|[k x] rest].
    + constructor.
    + constructor; [apply IH | apply IHl].
Qed.

(** ** canonicalizeJSON *)

Lemma assoc_encoded (props : list (string * jsval)) (key : string) :
  assoc (map (fun p => (fst p, canonicalizeJSON (snd p))) props) key
  = canonicalizeJSON (get props key).
Proof.
  induction props as [|[k v] rest IH]; simpl; trivial.
  destruct (key =? k); trivial.
Qed.

(** The object case, as the source writes it: the recursive call is
    [canonicalizeJSON(obj[key])] under the map over the sorted, filtered
    keys. *)
Lemma canonicalizeJSON_object (props : list (string * jsval)) :
  canonicalizeJSON (JObj props) = Some (object_text props).
Proof.
  unfold object_text. simpl. do 3 f_equal. f_equal. apply map_ext. intros key.
  rewrite assoc_encoded. reflexivity.
Qed.

Lemma same_content_is_undefined (v w : jsval) :
  same_content v w -> is_undefined v = is_undefined w.
Proof. destruct 1; reflexivity. Qed.

Lemma same_content_refl (v : jsval) : same_content v v.
Proof.
  induction v using jsval_nested_ind; try constructor.
  - induction H; constructor; auto.
  - apply sc_obj with (l' := props); [|apply Permutation_refl].
    induction H; constructor; auto.
Qed.

Lemma get_In (props : list (string * jsval)) (key : string) :
  get props key = JUndefined \/ In (key, get props key) props.
Proof.
  induction props as [|[k v] rest IH]; simpl; auto.
  destruct (key =? k) eqn:E.
  - apply String.eqb_eq in E. subst. auto.
  - destruct IH; auto.
Qed.

Lemma get_NoDup_In (props : list (string * jsval)) (key : string) (v : jsval) :
  NoDup (keys props) -> In (key, v) props -> get props key = v.
Proof.
  induction props as [|[k x] rest IH]; simpl; [tauto|].
  intros Hnd [Heq|Hin].
  - inversion Heq; subst. rewrite String.eqb_refl. reflexivity.
  - inversion Hnd; subst. destruct (key =? k) eqn:E.
    + apply String.eqb_eq in E. subst k. exfalso. apply H1.
      unfold keys. change key with (fst (key, v)). apply in_map. exact Hin.
    + auto.
Qed.

(** Reading a property does not depend on the property order. *)
Lemma get_Permutation (l l' : list (string * jsval)) (key : string) :
  NoDup (keys l) -> Permutation l l' -> get l key = get l' key.
Proof.
  intros Hnd Hp.
  assert (Hnd' : NoDup (keys l')).
  { eapply Permutation_NoDup; [|exact Hnd]. apply Permutation_map. exact Hp. }
  destruct (get_In l key) as [Hu|Hin].
  - destruct (get_In l' key) as [Hu'|Hin']; [congruence|].
    apply (Permutation_in _ (Permutation_sym Hp)) in Hin'.
    rewrite <- (get_NoDup_In l key _ Hnd Hin'). reflexivity.
  - apply (Permutation_in _ Hp) in Hin.
    symmetry. apply get_NoDup_In; assumption.
Qed.

Lemma keyed_Forall2_keys (R : jsval -> jsval -> Prop)
  (l l' : list (string * jsval)) :
  Forall2 (fun p q => fst p = fst q /\ R (snd p) (snd q)) l l' ->
  keys l = keys l'.
Proof.
  induction 1 as [|p q l l' [Hk _] _ IH]; simpl; congruence.
Qed.

Lemma wf_object (props : list (string * jsval)) :
  wf (JObj props) -> NoDup (keys props) /\ Forall (fun p => wf (snd p)) props.
Proof.
  simpl. intros [Hnd Hall]. split; trivial.
  induction props as [|p rest IH]; constructor; simpl in Hall; try tauto.
  apply IH; try tauto. inversion Hnd; assumption.
Qed.

Lemma wf_array (items : list jsval) :
  wf (JArr items) -> Forall wf items.
Proof.
  simpl. induction items as [|x rest IH]; constructor; simpl in *; tauto.
Qed.

(** The canonical text depends on the content only. *)
Lemma canonicalizeJSON_same_content (v : jsval) :
  forall w, wf v -> same_content v w -> canonicalizeJSON v = canonicalizeJSON w.
Proof.
  induction v as [ | | b | n | s | | iso | items IH | props IH]
    using jsval_nested_ind; intros w Hwf Hsc; inversion Hsc; subst; trivial.
  - (* arrays *)
    apply wf_array in Hwf. simpl. do 3 f_equal. f_equal.
    match goal with H : Forall2 same_content _ _ |- _ => induction H end;
      simpl; trivial.
    inversion IH; subst. inversion Hwf; subst. f_equal.
    + f_equal. auto.
    + apply IHForall2; auto. constructor; auto.
  - (* objects *)
    rename l' into mid, l'' into props'.
    match goal with H : Forall2 _ props mid |- _ => rename H into HF end.
    match goal with H : Permutation mid props' |- _ => rename H into HP end.
    apply wf_object in Hwf. destruct Hwf as [Hnd Hwfs].
    assert (Hkeys : keys props = keys mid) by (eapply keyed_Forall2_keys; eauto).
    assert (Hget : forall key,
               same_content (get props key) (get mid key)
               /\ canonicalizeJSON (get props key)
                  = canonicalizeJSON (get mid key)).
    { intros key. clear Hsc Hnd Hkeys HP.
      induction HF as [|p q l l' [Hk Hs] _ IHf]; simpl.
      - split; [constructor | reflexivity].
      - destruct p as [k x], q as [k' y]. simpl in Hk, Hs. subst k'.
        inversion IH; subst. inversion Hwfs; subst. simpl in *.
        destruct (key =? k); auto. }
    assert (Hmid : forall key, get mid key = get props' key).
    { intros key. apply get_Permutation; [congruence | assumption]. }
    rewrite !canonicalizeJSON_object. unfold object_text.
    assert (Hsort : sort (keys props) = sort (keys props')).
    { rewrite Hkeys. apply sort_Permutation. apply Permutation_map. assumption. }
    rewrite Hsort. do 3 f_equal. f_equal.
    rewrite (filter_ext _ (fun key => negb (is_undefined (get props' key)))).
    + apply map_ext. intros key. rewrite <- Hmid.
      destruct (Hget key) as [_ ->]. reflexivity.
    + intros key. rewrite <- Hmid. f_equal.
      apply same_content_is_undefined. apply Hget.
Qed.

(** ** C1: determinism of the fingerprint *)

(** C1.  The canonical encoding and the SHA-256 fingerprint of a record are
    functions of its content only: two records that differ only in the order
    in which the keys of their objects were inserted, at any nesting depth,
    have the same canonical text and the same fingerprint (and, taking the
    same record twice, computing the fingerprint twice gives the same
    output). *)
Theorem fingerprint_independent_of_key_order
  (digest : string -> string) (v w : jsval) :
  wf v -> same_content v w ->
  canonicalizeJSON v = canonicalizeJSON w
  /\ sha256 digest v = sha256 digest w.
Proof.
  intros Hwf Hsc.
  pose proof (canonicalizeJSON_same_content v w Hwf Hsc) as Hc.
  split; [exact Hc|].
  destruct Hsc; try reflexivity; unfold sha256; rewrite Hc; reflexivity.
Qed.

Lemma fingerprint_independent_of_key_order_witness :
  canonicalizeJSON sampleRecord = canonicalizeJSON sampleRecordReordered
  /\ sha256 SHA256.hex sampleRecord = sha256 SHA256.hex sampleRecordReordered.
Proof.
  apply (fingerprint_independent_of_key_order SHA256.hex).
  - simpl. repeat split; repeat constructor; simpl; intuition discriminate.
  - unfold sampleRecord, sampleRecordReordered.
    apply sc_obj with
      (l' := [("weight", JNum (Int 25));
              ("holder", JObj [("tags", JArr [JNull; JBool true]);
                               ("name", JStr "Acme")]);
              ("unit", JStr "kg")]).
    + constructor; [split; [reflexivity | apply sc_num]|].
      constructor; [split; [reflexivity|]|].
      * apply sc_obj with
          (l' := [("name", JStr "Acme"); ("tags", JArr [JNull; JBool true])]);
          [|apply perm_swap].
        repeat (constructor; [split; [reflexivity | apply same_content_refl]|]).
        constructor.
      * constructor; [split; [reflexivity | apply sc_str]|]. constructor.
    + eapply perm_trans; [apply perm_swap|].
      eapply perm_trans; [apply perm_skip; apply perm_swap|].
      apply perm_swap.
Defined.

(** The canonical text of the sample record: keys sorted, no whitespace. *)
Example canonical_text_of_sampleRecord :
  canonicalizeJSON sampleRecord
  = Some (jtext "{'holder':{'name':'Acme','tags':[null,true]},'unit':'kg','weight':25}")
  /\ canonicalizeJSON sampleRecordReordered = canonicalizeJSON sampleRecord.
Proof. split; vm_compute; reflexivity. Qed.

(** ** Running the services *)

Lemma sha256_object (digest : string -> string) (props : list (string * jsval)) :
  sha256 digest (JObj props) = Normal (digest (object_text props)).
Proof.
  unfold sha256. rewrite canonicalizeJSON_object. reflexivity.
Qed.

Lemma normalize_date_throws (t : jsval) :
  normalizable t = false ->
  normalize_date t = Throw (RangeError "Invalid time value").
Proof.
  destruct t as [ | | b | n | s | | [iso|] | items | props];
    try discriminate. reflexivity.
Qed.

Lemma computeEventHash_normal (digest : string -> string) (e : Event.t) :
  normalizable (Event.eventTimestamp e) = true ->
  computeEventHash digest e = Normal (digest (object_text (eventPayload e))).
Proof.
  unfold normalizable, computeEventHash. intros H.
  destruct (normalize_date (Event.eventTimestamp e));
    [apply sha256_object | discriminate].
Qed.

Lemma computeEventHash_invalid (digest : string -> string) (e : Event.t) :
  normalizable (Event.eventTimestamp e) = false ->
  computeEventHash digest e = Throw (RangeError "Invalid time value").
Proof.
  intros H. unfold computeEventHash. rewrite (normalize_date_throws _ H).
  reflexivity.
Qed.

Lemma computeBatchHash_normal (digest : string -> string) (b : Batch.t) :
  normalizable (Batch.creationTimestamp b) = true ->
  computeBatchHash digest b = Normal (digest (object_text (batchPayload b))).
Proof.
  unfold normalizable, computeBatchHash. intros H.
  destruct (normalize_date (Batch.creationTimestamp b));
    [apply sha256_object | discriminate].
Qed.

Lemma computeBatchHash_invalid (digest : string -> string) (b : Batch.t) :
  normalizable (Batch.creationTimestamp b) = false ->
  computeBatchHash digest b = Throw (RangeError "Invalid time value").
Proof.
  intros H. unfold computeBatchHash. rewrite (normalize_date_throws _ H).
  reflexivity.
Qed.

Lemma fingerprint_intact_normalizable (digest : string -> string)
  (e : Event.t) :
  fingerprint_intact digest e = true ->
  normalizable (Event.eventTimestamp e) = true.
Proof.
  unfold fingerprint_intact. intros H.
  destruct (normalizable (Event.eventTimestamp e)) eqn:E; trivial.
  rewrite (computeEventHash_invalid _ _ E) in H. discriminate.
Qed.

Lemma map_get_set {V : Type} (k : string) (v : V) (m : list (string * V)) :
  map_get k (map_set k v m) = Some v.
Proof.
  induction m as [|[k' v'] rest IH]; simpl.
  - rewrite String.eqb_refl. reflexivity.
  - destruct (k =? k') eqn:E; simpl; rewrite ?String.eqb_refl, ?E; auto.
Qed.

Lemma bind_run {A B : Type} (m : M A) (k : A -> M B) (w w1 : World) (a : A) :
  m w = (Normal a, w1) -> bind m k w = k a w1.
Proof. intros H. unfold bind. rewrite H. reflexivity. Qed.

Lemma bind_throw {A B : Type} (m : M A) (k : A -> M B) (w w1 : World)
  (e : JsError) :
  m w = (Throw e, w1) -> bind m k w = (Throw e, w1).
Proof. intros H. unfold bind. rewrite H. reflexivity. Qed.

Ltac unfold_monad :=
  cbv beta iota zeta
    delta [bind ret lift draw read_db write_db read_anchoring write_anchoring
           throw batch_or_throw];
  cbn [db anchoring tick fst snd].

Section ServiceFacts.

Variable host : Host.

(** Anchoring never throws and leaves the store alone. *)
Lemma anchorHash_total (id hash : string) (w : World) :
  exists a w', anchorHash host id hash w = (Normal a, w') /\ db w' = db w.
Proof.
  unfold anchorHash. unfold_monad.
  destruct (simulationMode (anchoring w)).
  - eexists; eexists; split; reflexivity.
  - simpl. destruct (ledger_logHash host (S (tick w)) id hash);
      eexists; eexists; split; reflexivity.
Qed.

Lemma anchorEvent_total (eventId hash : string) (w : World) :
  exists a w', anchorEvent host eventId hash w = (Normal a, w') /\ db w' = db w.
Proof. apply anchorHash_total. Qed.

Lemma verifyAnchor_total (txHash : jsval) (w : World) :
  exists c w', verifyAnchor host txHash w = (Normal c, w') /\ db w' = db w.
Proof.
  unfold verifyAnchor. unfold_monad.
  destruct (simulationMode (anchoring w)).
  - eexists; eexists; split; reflexivity.
  - simpl. destruct (ledger_receipt host (tick w) txHash);
      eexists; eexists; split; reflexivity.
Qed.

(** The loop of verifyBatchIntegrity over events whose timestamps can be
    normalized: it reports every event in order, and clears [overallValid]
    exactly on a fingerprint mismatch. *)
Lemma verify_events_spec (events : list Event.t) :
  forall (acc : VerificationResults) (w : World),
  forallb hashable events = true ->
  exists r w' checks,
    verify_events host events acc w = (Normal r, w')
    /\ db w' = db w
    /\ batchHashValid r = batchHashValid acc
    /\ overallValid r
       = overallValid acc && forallb (fingerprint_intact (digest host)) events
    /\ vr_events r = (vr_events acc ++ checks)%list
    /\ Forall2 (reports (digest host)) events checks.
Proof.
  induction events as [|e rest IH]; intros acc w Hok.
  - exists acc, w, []. simpl. rewrite andb_true_r, app_nil_r.
    repeat split; constructor.
  - cbn [forallb] in Hok. apply andb_prop in Hok. destruct Hok as [He0 Hrest].
    unfold hashable in He0.
    cbn [verify_events].
    rewrite (computeEventHash_normal _ _ He0).
    erewrite bind_run by reflexivity.
    assert (Hm : fingerprint_intact (digest host) e
                 = str_strict_eq (digest host (object_text (eventPayload e)))
                     (Event.eventPayloadHash e)).
    { unfold fingerprint_intact. rewrite (computeEventHash_normal _ _ He0).
      reflexivity. }
    match goal with
    | |- context [bind ?m _ w] =>
        assert (Hstep : exists c w1 acc1,
                   m w = (Normal (c, acc1), w1)
                   /\ db w1 = db w
                   /\ batchHashValid acc1 = batchHashValid acc
                   /\ overallValid acc1 = overallValid acc
                   /\ vr_events acc1 = vr_events acc)
    end.
    { destruct (truthy (Event.onChainTxHash e)).
      - destruct (verifyAnchor_total (Event.onChainTxHash e) w)
          as (c & w1 & Hv & Hdb1).
        erewrite bind_run by exact Hv.
        eexists; eexists; eexists.
        split; [reflexivity|]. repeat split; trivial.
      - eexists; eexists; eexists.
        split; [reflexivity|]. repeat split; trivial. }
    destruct Hstep as (c & w1 & acc1 & Hs & Hdb1 & Hb1 & Ho1 & He1).
    erewrite bind_run by exact Hs. cbv beta zeta. cbn [fst snd].
    match goal with
    | |- context [verify_events host rest ?a w1] =>
        destruct (IH a w1 Hrest)
          as (r & w' & checks & Hrun & Hdb & Hb & Ho & He & Hf)
    end.
    rewrite Hrun.
    exists r, w',
      ({| ec_eventId := Event.eventId e;
          ec_eventType := Event.eventType e;
          ec_storedHash := Event.eventPayloadHash e;
          ec_computedHash := digest host (object_text (eventPayload e));
          hashMatch :=
            str_strict_eq (digest host (object_text (eventPayload e)))
              (Event.eventPayloadHash e);
          anchorValid := c |} :: checks).
    split; [reflexivity|]. split; [congruence|].
    cbn [forallb]. rewrite Hm, Hb, Ho, He.
    assert (Hrep : reports (digest host) e
                     {| ec_eventId := Event.eventId e;
                        ec_eventType := Event.eventType e;
                        ec_storedHash := Event.eventPayloadHash e;
                        ec_computedHash :=
                          digest host (object_text (eventPayload e));
                        hashMatch :=
                          str_strict_eq
                            (digest host (object_text (eventPayload e)))
                            (Event.eventPayloadHash e);
                        anchorValid := c |}).
    { unfold reports.
      cbn [ec_eventId ec_eventType ec_storedHash ec_computedHash hashMatch].
      rewrite (computeEventHash_normal _ _ He0). repeat split; reflexivity. }
    destruct (str_strict_eq (digest host (object_text (eventPayload e)))
                (Event.eventPayloadHash e)) eqn:Em;
      cbn [negb batchHashValid overallValid vr_events set_overallValid
           push_eventCheck];
      rewrite ?Hb1, ?Ho1, ?He1, ?andb_false_r, ?andb_true_r, <- ?app_assoc;
      (split; [reflexivity|]); (split; [reflexivity|]);
      (split; [reflexivity|]);
      (constructor; [exact Hrep | exact Hf]).
Qed.

(** The loop leaves the store and the anchoring service as they are, whether
    it returns or throws; in simulation mode it leaves the whole world. *)
Lemma verify_events_frame (events : list Event.t) :
  forall (acc : VerificationResults) (w : World),
  db (snd (verify_events host events acc w)) = db w
  /\ anchoring (snd (verify_events host events acc w)) = anchoring w
  /\ (simulationMode (anchoring w) = true ->
      snd (verify_events host events acc w) = w).
Proof.
  induction events as [|e rest IH]; intros acc w.
  - repeat split.
  - cbn [verify_events].
    destruct (normalizable (Event.eventTimestamp e)) eqn:He0.
    + rewrite (computeEventHash_normal _ _ He0).
      erewrite bind_run by reflexivity.
      match goal with
      | |- context [bind ?m _ w] =>
          assert (Hstep : exists c w1,
                     m w = (Normal c, w1)
                     /\ db w1 = db w /\ anchoring w1 = anchoring w
                     /\ (simulationMode (anchoring w) = true -> w1 = w))
      end.
      { destruct (truthy (Event.onChainTxHash e)).
        - unfold verifyAnchor. unfold_monad.
          destruct (simulationMode (anchoring w)).
          + eexists; eexists. repeat split.
          + cbn [db anchoring tick].
            destruct (ledger_receipt host (tick w) (Event.onChainTxHash e));
              eexists; eexists; (split; [reflexivity|]);
              repeat split; discriminate.
        - eexists; eexists. repeat split. }
      destruct Hstep as (c & w1 & Hs & Hdb1 & Ha1 & Hsim1).
      erewrite bind_run by exact Hs. cbv beta zeta.
      match goal with
      | |- context [verify_events host rest ?a w1] =>
          destruct (IH a w1) as (Hdb & Ha & Hsim)
      end.
      split; [congruence|]. split; [congruence|].
      intros Hmode. rewrite Hsim by (rewrite Ha1; exact Hmode).
      apply Hsim1. exact Hmode.
    + rewrite (computeEventHash_invalid _ _ He0).
      erewrite bind_throw by reflexivity. repeat split.
Qed.

(** An invalid Date among the timestamps makes the loop throw. *)
Lemma verify_events_throws (events : list Event.t) :
  forall (acc : VerificationResults) (w : World),
  forallb hashable events = false ->
  fst (verify_events host events acc w)
  = Throw (RangeError "Invalid time value").
Proof.
  induction events as [|e rest IH]; intros acc w Hbad; [discriminate|].
  cbn [forallb] in Hbad. unfold hashable at 1 in Hbad.
  cbn [verify_events].
  destruct (normalizable (Event.eventTimestamp e)) eqn:He0.
  - rewrite (computeEventHash_normal _ _ He0).
    erewrite bind_run by reflexivity.
    match goal with
    | |- context [bind ?m _ w] =>
        assert (Hstep : exists c w1, m w = (Normal c, w1))
    end.
    { destruct (truthy (Event.onChainTxHash e)).
      - destruct (verifyAnchor_total (Event.onChainTxHash e) w)
          as (c & w1 & Hv & _).
        erewrite bind_run by exact Hv. eexists; eexists; reflexivity.
      - eexists; eexists; reflexivity. }
    destruct Hstep as (c & w1 & Hs).
    erewrite bind_run by exact Hs. cbv beta zeta.
    apply IH. exact Hbad.
  - rewrite (computeEventHash_invalid _ _ He0).
    erewrite bind_throw by reflexivity. reflexivity.
Qed.

(** verifyBatchIntegrity on a stored batch whose timestamps can be
    normalized. *)
Lemma verifyBatchIntegrity_spec (w : World) (batchId : string)
  (batch : Batch.t) :
  getBatch (db w) batchId = Some batch ->
  normalizable (Batch.creationTimestamp batch) = true ->
  forallb hashable (getEventsByBatch (Date_value host) (db w) batchId) = true ->
  exists r w',
    verifyBatchIntegrity host batchId w = (Normal (Verification r), w')
    /\ db w' = db w
    /\ batchHashValid r = true
    /\ overallValid r
       = forallb (fingerprint_intact (digest host))
                 (getEventsByBatch (Date_value host) (db w) batchId)
    /\ Forall2 (reports (digest host))
               (getEventsByBatch (Date_value host) (db w) batchId)
               (vr_events r).
Proof.
  intros Hget Hb0 Hes. unfold verifyBatchIntegrity. unfold_monad. rewrite Hget.
  rewrite (computeBatchHash_normal _ _ Hb0). cbv beta iota.
  match goal with
  | |- context [verify_events host ?es ?a w] =>
      destruct (verify_events_spec es a w Hes)
        as (r & w' & checks & Hrun & Hdb & Hb & Ho & He & Hf)
  end.
  rewrite Hrun. exists r, w'. cbn [vr_events overallValid batchHashValid app andb] in *.
  rewrite He. repeat split; trivial.
Qed.

(** An invalid Date as the batch's creation timestamp, or as the timestamp of
    one of its events, makes verifyBatchIntegrity throw. *)
Lemma verifyBatchIntegrity_throws (w : World) (batchId : string)
  (batch : Batch.t) :
  getBatch (db w) batchId = Some batch ->
  normalizable (Batch.creationTimestamp batch)
  && forallb hashable (getEventsByBatch (Date_value host) (db w) batchId)
  = false ->
  fst (verifyBatchIntegrity host batchId w)
  = Throw (RangeError "Invalid time value").
Proof.
  intros Hget Hbad. unfold verifyBatchIntegrity. unfold_monad. rewrite Hget.
  destruct (normalizable (Batch.creationTimestamp batch)) eqn:Hb0.
  - rewrite (computeBatchHash_normal _ _ Hb0). cbv beta iota.
    cbn [andb] in Hbad.
    match goal with
    | |- context [verify_events host ?es ?a w] =>
        pose proof (verify_events_throws es a w Hbad) as Hthrow;
        destruct (verify_events host es a w) as [c w']
    end.
    cbn [fst] in Hthrow. rewrite Hthrow. reflexivity.
  - rewrite (computeBatchHash_invalid _ _ Hb0). reflexivity.
Qed.

Lemma verifyBatchIntegrity_missing (w : World) (batchId : string) :
  getBatch (db w) batchId = None ->
  verifyBatchIntegrity host batchId w = (Normal BatchNotFound, w).
Proof.
  intros Hget. unfold verifyBatchIntegrity. unfold_monad. rewrite Hget.
  reflexivity.
Qed.

(** verifyBatchIntegrity leaves the store and the anchoring service as they
    are, whether it returns or throws; in simulation mode it leaves the whole
    world. *)
Lemma verifyBatchIntegrity_frame (batchId : string) (w : World) :
  db (snd (verifyBatchIntegrity host batchId w)) = db w
  /\ anchoring (snd (verifyBatchIntegrity host batchId w)) = anchoring w
  /\ (simulationMode (anchoring w) = true ->
      snd (verifyBatchIntegrity host batchId w) = w).
Proof.
  unfold verifyBatchIntegrity. unfold_monad.
  destruct (getBatch (db w) batchId) as [batch|] eqn:Hget;
    [|repeat split].
  destruct (computeBatchHash (digest host) batch); [|repeat split].
  cbv beta iota.
  match goal with
  | |- context [verify_events host ?es ?a w] =>
      pose proof (verify_events_frame es a w) as Hframe;
      destruct (verify_events host es a w) as [[r|err] w']
  end; cbn [snd] in *; exact Hframe.
Qed.

End ServiceFacts.

(** ** verifyBatchIntegrity: C3, C4, C5 *)

Lemma reports_hashMatch (digest : string -> string) (e : Event.t)
  (c : EventCheck) :
  reports digest e c -> hashMatch c = fingerprint_intact digest e.
Proof.
  intros (_ & _ & Hs & Hc & Hm). unfold fingerprint_intact.
  rewrite Hc, Hm, Hs. reflexivity.
Qed.

Lemma reports_forallb (digest : string -> string) (es : list Event.t)
  (cs : list EventCheck) :
  Forall2 (reports digest) es cs ->
  map hashMatch cs = map (fingerprint_intact digest) es.
Proof.
  induction 1 as [|e c es cs Hr _ IH]; simpl; trivial.
  rewrite (reports_hashMatch _ _ _ Hr), IH. reflexivity.
Qed.

Lemma forallb_map {A : Type} (f : A -> bool) (l : list A) :
  forallb f l = forallb (fun b => b) (map f l).
Proof. induction l; simpl; congruence. Qed.

Lemma insert_event_Permutation (dv : jsval -> option Z) (a : Event.t)
  (l : list Event.t) :
  Permutation (insert_event dv a l) (a :: l).
Proof.
  induction l as [|b rest IH]; simpl; [apply Permutation_refl|].
  destruct (compare_events dv a b <=? 0)%Z; [apply Permutation_refl|].
  eapply perm_trans; [apply perm_skip; exact IH | apply perm_swap].
Qed.

Lemma sort_events_Permutation (dv : jsval -> option Z) (l : list Event.t) :
  Permutation (sort_events dv l) l.
Proof.
  induction l as [|a rest IH]; simpl; [constructor|].
  eapply perm_trans; [apply insert_event_Permutation|].
  apply perm_skip. exact IH.
Qed.

(** The events verification looks at are the stored events of the batch,
    each once. *)
Lemma getEventsByBatch_Permutation (dv : jsval -> option Z) (d : Database)
  (batchId : string) :
  Permutation (getEventsByBatch dv d batchId)
    (filter (fun e => (Event.batchId e =? batchId)) (getAllEvents d)).
Proof. apply sort_events_Permutation. Qed.

Lemma getEventsByBatch_In (dv : jsval -> option Z) (d : Database)
  (batchId : string) (e : Event.t) :
  In e (getEventsByBatch dv d batchId)
  <-> In e (getAllEvents d) /\ Event.batchId e = batchId.
Proof.
  rewrite <- String.eqb_eq.
  rewrite <- (filter_In (fun e => (Event.batchId e =? batchId))).
  split; apply Permutation_in;
    [|apply Permutation_sym]; apply getEventsByBatch_Permutation.
Qed.

(** The batch created, shipped and received: three events, every recomputed
    fingerprint matches, every anchor is found. *)
Example received_batch_verifies :
  exists r w',
    verifyBatchIntegrity sampleHost "uuid-0" worldReceived
    = (Normal (Verification r), w')
    /\ map ec_eventType (vr_events r)
       = [EventType.CREATE; EventType.SHIP; EventType.RECEIVE]
    /\ map hashMatch (vr_events r) = [true; true; true]
    /\ map anchorValid (vr_events r) = [Some true; Some true; Some true]
    /\ overallValid r = true.
Proof.
  eexists; eexists. split; [vm_compute; reflexivity|].
  repeat split; reflexivity.
Qed.

(** When verifyBatchIntegrity returned the results object, the batch is
    stored and every timestamp it normalized was not an invalid Date. *)
Lemma verifyBatchIntegrity_returned (host : Host) (w w' : World)
  (batchId : string) (r : VerificationResults) :
  verifyBatchIntegrity host batchId w = (Normal (Verification r), w') ->
  exists batch,
    getBatch (db w) batchId = Some batch
    /\ normalizable (Batch.creationTimestamp batch) = true
    /\ forallb hashable (getEventsByBatch (Date_value host) (db w) batchId)
       = true.
Proof.
  intros Hrun. destruct (getBatch (db w) batchId) as [batch|] eqn:Hget.
  - exists batch. split; [reflexivity|]. apply andb_prop.
    destruct (normalizable (Batch.creationTimestamp batch)
              && forallb hashable
                   (getEventsByBatch (Date_value host) (db w) batchId))
      eqn:Hok; trivial.
    pose proof (verifyBatchIntegrity_throws host w batchId batch Hget Hok)
      as Hthrow.
    rewrite Hrun in Hthrow. discriminate.
  - rewrite (verifyBatchIntegrity_missing host w batchId Hget) in Hrun.
    discriminate.
Qed.

(** Whatever the stored batch holds, [batchHashValid] is reported true. *)
Lemma verifyBatchIntegrity_batchHashValid (host : Host) (w w' : World)
  (batchId : string) (r : VerificationResults) :
  verifyBatchIntegrity host batchId w = (Normal (Verification r), w') ->
  batchHashValid r = true.
Proof.
  intros Hrun.
  destruct (verifyBatchIntegrity_returned host w w' batchId r Hrun)
    as (batch & Hget & Hb0 & Hes).
  destruct (verifyBatchIntegrity_spec host w batchId batch Hget Hb0 Hes)
    as (r0 & w0 & Hrun0 & _ & Hb & _).
  rewrite Hrun0 in Hrun. inversion Hrun; subst. exact Hb.
Qed.

(** C3 (the code departs from the claim).  Evaluation at a tampered batch:
    the fingerprint anchored when the batch was created differs from the one
    recomputed from the stored fields, and verifyBatchIntegrity still reports
    [batchHashValid = true] and [overallValid = true]; the recomputed batch
    fingerprint is compared with nothing. *)
Theorem tampered_batch_passes_verification :
  (exists batch anchored recomputed,
      getBatch (db worldBatchRelabelled) "uuid-0" = Some batch
      /\ option_map ar_hash
           (find (fun t => (ar_id t =? "batch:uuid-0"))
                 (simulatedTransactions (anchoring worldBatchRelabelled)))
         = Some anchored
      /\ computeBatchHash SHA256.hex batch = Normal recomputed
      /\ recomputed <> anchored)
  /\ exists r w',
      verifyBatchIntegrity sampleHost "uuid-0" worldBatchRelabelled
      = (Normal (Verification r), w')
      /\ batchHashValid r = true
      /\ overallValid r = true.
Proof.
  split.
  - eexists; eexists; eexists.
    split; [reflexivity|]. split; [reflexivity|].
    split; [vm_compute; reflexivity|]. discriminate.
  - eexists; eexists. split; [vm_compute; reflexivity|].
    split; reflexivity.
Qed.




(** C5.  [overallValid] is the conjunction of the per-event [hashMatch]
    flags and nothing else: when every event's recomputed fingerprint matches
    its stored one, [overallValid] is true whatever the anchor checks
    answered, and running the verification against any other anchoring
    service, ledger and clock over the same store gives the same
    [overallValid] and the same [hashMatch] flags. *)
Theorem anchor_outcomes_do_not_affect_overallValid
  (host : Host) (w w' : World) (batchId : string) (r : VerificationResults) :
  verifyBatchIntegrity host batchId w = (Normal (Verification r), w') ->
  overallValid r = forallb hashMatch (vr_events r)
  /\ ((forall c, In c (vr_events r) -> hashMatch c = true) ->
      overallValid r = true)
  /\ forall (host2 : Host) (w2 : World),
      digest host2 = digest host ->
      Date_value host2 = Date_value host ->
      db w2 = db w ->
      exists r2 w2',
        verifyBatchIntegrity host2 batchId w2 = (Normal (Verification r2), w2')
        /\ overallValid r2 = overallValid r
        /\ map hashMatch (vr_events r2) = map hashMatch (vr_events r).
Proof.
  intros Hrun.
  destruct (verifyBatchIntegrity_returned host w w' batchId r Hrun)
    as (batch & Hget & Hb0 & Hes).
  destruct (verifyBatchIntegrity_spec host w batchId batch Hget Hb0 Hes)
    as (r0 & w0 & Hrun0 & _ & _ & Ho & Hf).
  rewrite Hrun0 in Hrun. inversion Hrun; subst r0 w0. clear Hrun.
  assert (Hall : overallValid r = forallb hashMatch (vr_events r)).
  { rewrite Ho, (forallb_map hashMatch), (reports_forallb _ _ _ Hf).
    apply forallb_map. }
  split; [exact Hall|]. split.
  - intros Hmatch. rewrite Hall. apply forallb_forall. exact Hmatch.
  - intros host2 w2 Hd Hv Hdb.
    assert (Hget2 : getBatch (db w2) batchId = Some batch) by congruence.
    assert (Hes2 : forallb hashable
                     (getEventsByBatch (Date_value host2) (db w2) batchId)
                   = true) by (rewrite Hv, Hdb; exact Hes).
    destruct (verifyBatchIntegrity_spec host2 w2 batchId batch Hget2 Hb0 Hes2)
      as (r2 & w2' & Hrun2 & _ & _ & Ho2 & Hf2).
    exists r2, w2'. split; [exact Hrun2|].
    rewrite Hd, Hv, Hdb in *. split; [congruence|].
    rewrite (reports_forallb _ _ _ Hf2), (reports_forallb _ _ _ Hf).
    reflexivity.
Qed.

Lemma anchor_outcomes_do_not_affect_overallValid_witness :
  exists r w',
    verifyBatchIntegrity sampleHost "uuid-0" worldUnanchored
    = (Normal (Verification r), w')
    /\ map anchorValid (vr_events r) = [Some false; Some false; Some false]
    /\ map hashMatch (vr_events r) = [true; true; true]
    /\ overallValid r = true.
Proof.
  eexists; eexists. split; [vm_compute; reflexivity|].
  split; [reflexivity|]. split; [reflexivity|].
  refine (proj1 (proj2 (anchor_outcomes_do_not_affect_overallValid
                          sampleHost worldUnanchored _ "uuid-0" _ _)) _).
  - vm_compute. reflexivity.
  - intros c [<-|[<-|[<-|[]]]]; reflexivity.
Defined.

(** ** Recording events: C2 *)

Lemma getBatch_after_update (b : Batch.t) (e : Event.t) (d : Database) :
  getBatch (saveEvent e (updateBatch b d)) (Batch.batchId b) = Some b.
Proof. unfold getBatch. simpl. apply map_get_set. Qed.

Lemma getEvent_after_save (e : Event.t) (d : Database) :
  map_get (Event.eventId e) (events (saveEvent e d)) = Some e.
Proof. simpl. apply map_get_set. Qed.

Section RecordingFacts.

Variable host : Host.

Lemma batch_or_throw_found (w : World) (batchId : string) (batch : Batch.t) :
  getBatch (db w) batchId = Some batch ->
  batch_or_throw batchId w = (Normal batch, w).
Proof. intros H. unfold batch_or_throw. unfold_monad. rewrite H. reflexivity. Qed.

Lemma batch_or_throw_missing (w : World) (batchId : string) :
  getBatch (db w) batchId = None ->
  batch_or_throw batchId w
  = (Throw (Error ("Batch " ++ batchId ++ " not found")), w).
Proof. intros H. unfold batch_or_throw. unfold_monad. rewrite H. reflexivity. Qed.

Ltac run_to_anchor Hget :=
  erewrite bind_run by (apply batch_or_throw_found; exact Hget);
  erewrite bind_run by reflexivity;
  erewrite bind_run by reflexivity;
  cbv zeta; rewrite computeEventHash_normal by reflexivity;
  erewrite bind_run by reflexivity;
  match goal with
  | |- context [bind (anchorEvent host ?i ?h) _ ?W] =>
      let a := fresh "anchor" in
      let wa := fresh "wa" in
      let Ha := fresh "Ha" in
      let Hdb := fresh "Hdb" in
      destruct (anchorEvent_total host i h W) as (a & wa & Ha & Hdb);
      erewrite bind_run by exact Ha;
      erewrite bind_run by reflexivity;
      erewrite bind_run by reflexivity;
      cbn [db anchoring tick] in Hdb |- *; rewrite Hdb
  end.

Ltac stored_intact :=
  unfold fingerprint_intact; rewrite computeEventHash_normal by reflexivity;
  apply String.eqb_refl.

(** recordReceipt on a stored batch, whatever its status. *)
Lemma recordReceipt_runs (w : World) (batchId : string) (batch : Batch.t)
  (receiptData : ReceiptData.t) :
  getBatch (db w) batchId = Some batch ->
  exists r w',
    recordReceipt host batchId receiptData w = (Normal r, w')
    /\ Event.eventType (rec_event r) = EventType.RECEIVE
    /\ Event.batchId (rec_event r) = batchId
    /\ fingerprint_intact (digest host) (rec_event r) = true
    /\ rec_batch r
       = Batch.push_eventId (Event.eventId (rec_event r))
           (Batch.set_ownerPartyId (ReceiptData.receiverPartyId receiptData)
              (Batch.set_status BatchStatus.RECEIVED batch))
    /\ db w' = saveEvent (rec_event r) (updateBatch (rec_batch r) (db w)).
Proof.
  intros Hget. unfold recordReceipt. run_to_anchor Hget.
  eexists; eexists. split; [reflexivity|].
  cbn [rec_event rec_batch db].
  split; [reflexivity|]. split; [reflexivity|].
  split; [stored_intact|]. split; reflexivity.
Qed.

(** recordShipment on a stored batch, whatever its status. *)
Lemma recordShipment_runs (w : World) (batchId : string) (batch : Batch.t)
  (shipmentData : ShipmentData.t) :
  getBatch (db w) batchId = Some batch ->
  exists r w',
    recordShipment host batchId shipmentData w = (Normal r, w')
    /\ Event.eventType (rec_event r) = EventType.SHIP
    /\ Event.batchId (rec_event r) = batchId
    /\ fingerprint_intact (digest host) (rec_event r) = true
    /\ rec_batch r
       = Batch.push_eventId (Event.eventId (rec_event r))
           (Batch.set_status BatchStatus.IN_TRANSIT batch)
    /\ db w' = saveEvent (rec_event r) (updateBatch (rec_batch r) (db w)).
Proof.
  intros Hget. unfold recordShipment. run_to_anchor Hget.
  eexists; eexists. split; [reflexivity|].
  cbn [rec_event rec_batch db].
  split; [reflexivity|]. split; [reflexivity|].
  split; [stored_intact|]. split; reflexivity.
Qed.

Lemma recordReceipt_missing (w : World) (batchId : string)
  (receiptData : ReceiptData.t) :
  getBatch (db w) batchId = None ->
  recordReceipt host batchId receiptData w
  = (Throw (Error ("Batch " ++ batchId ++ " not found")), w).
Proof.
  intros Hget. unfold recordReceipt.
  erewrite bind_throw by (apply batch_or_throw_missing; exact Hget).
  reflexivity.
Qed.

Lemma recordShipment_missing (w : World) (batchId : string)
  (shipmentData : ShipmentData.t) :
  getBatch (db w) batchId = None ->
  recordShipment host batchId shipmentData w
  = (Throw (Error ("Batch " ++ batchId ++ " not found")), w).
Proof.
  intros Hget. unfold recordShipment.
  erewrite bind_throw by (apply batch_or_throw_missing; exact Hget).
  reflexivity.
Qed.

End RecordingFacts.

(** C2 (counterexample).  The batch "uuid-0" is still in status Created;
    recordReceipt on it returns normally: the Receive event is fingerprinted
    and stored, and the stored batch is in status Received.  Nothing raises
    InvalidTransition. *)
Lemma receipt_on_created_batch_is_accepted :
  option_map Batch.status (getBatch (db worldCreated) "uuid-0")
  = Some BatchStatus.CREATED
  /\ exists r w',
      recordReceipt sampleHost "uuid-0" sampleReceipt worldCreated
      = (Normal r, w')
      /\ Event.eventType (rec_event r) = EventType.RECEIVE
      /\ Event.eventPayloadHash (rec_event r)
         = JStr "05d9c5d2e14436a2dcf59e14cfe41b983b20f06de956df435957720ba0b167da"
      /\ map_get (Event.eventId (rec_event r)) (events (db w'))
         = Some (rec_event r)
      /\ option_map Batch.status (getBatch (db w') "uuid-0")
         = Some BatchStatus.RECEIVED.
Proof.
  split; [reflexivity|].
  eexists; eexists. split; [vm_compute; reflexivity|].
  repeat split; vm_compute; reflexivity.
Qed.

(** C2 (amended).  The services that append events check only that the batch
    exists.  For a stored batch in any status, recordReceipt returns
    normally, the Receive event it returns carries the fingerprint of its own
    fields and is stored, and the stored batch is in status Received;
    recordShipment followed by recordReceipt succeeds and leaves the batch in
    status Received.  For an id with no batch, both throw the error
    "Batch <id> not found" and leave the store, the anchoring service and the
    clock as they were. *)
Theorem recording_checks_existence_only
  (host : Host) (w : World) (batchId : string) (batch : Batch.t)
  (shipmentData : ShipmentData.t) (receiptData : ReceiptData.t) :
  getBatch (db w) batchId = Some batch ->
  Batch.batchId batch = batchId ->
  (exists r w',
      recordReceipt host batchId receiptData w = (Normal r, w')
      /\ Event.eventType (rec_event r) = EventType.RECEIVE
      /\ fingerprint_intact (digest host) (rec_event r) = true
      /\ map_get (Event.eventId (rec_event r)) (events (db w'))
         = Some (rec_event r)
      /\ getBatch (db w') batchId = Some (rec_batch r)
      /\ Batch.status (rec_batch r) = BatchStatus.RECEIVED)
  /\ (exists r1 w1 r2 w2,
      recordShipment host batchId shipmentData w = (Normal r1, w1)
      /\ getBatch (db w1) batchId = Some (rec_batch r1)
      /\ Batch.status (rec_batch r1) = BatchStatus.IN_TRANSIT
      /\ recordReceipt host batchId receiptData w1 = (Normal r2, w2)
      /\ getBatch (db w2) batchId = Some (rec_batch r2)
      /\ Batch.status (rec_batch r2) = BatchStatus.RECEIVED)
  /\ (forall missing,
      getBatch (db w) missing = None ->
      recordReceipt host missing receiptData w
      = (Throw (Error ("Batch " ++ missing ++ " not found")), w)
      /\ recordShipment host missing shipmentData w
         = (Throw (Error ("Batch " ++ missing ++ " not found")), w)).
Proof.
  intros Hget Hid. split; [|split].
  - destruct (recordReceipt_runs host w batchId batch receiptData Hget)
      as (r & w' & Hrun & Hty & _ & Hfp & Hb & Hdb).
    exists r, w'. split; [exact Hrun|]. split; [exact Hty|].
    split; [exact Hfp|]. rewrite Hdb.
    split; [apply getEvent_after_save|].
    split.
    + replace batchId with (Batch.batchId (rec_batch r))
        by (rewrite Hb; exact Hid).
      apply getBatch_after_update.
    + rewrite Hb. reflexivity.
  - destruct (recordShipment_runs host w batchId batch shipmentData Hget)
      as (r1 & w1 & Hrun1 & _ & _ & _ & Hb1 & Hdb1).
    assert (Hid1 : Batch.batchId (rec_batch r1) = batchId)
      by (rewrite Hb1; exact Hid).
    assert (Hget1 : getBatch (db w1) batchId = Some (rec_batch r1)).
    { rewrite Hdb1, <- Hid1. apply getBatch_after_update. }
    destruct (recordReceipt_runs host w1 batchId (rec_batch r1) receiptData Hget1)
      as (r2 & w2 & Hrun2 & _ & _ & _ & Hb2 & Hdb2).
    exists r1, w1, r2, w2.
    split; [exact Hrun1|]. split; [exact Hget1|].
    split; [rewrite Hb1; reflexivity|]. split; [exact Hrun2|].
    split.
    + rewrite Hdb2.
      replace batchId with (Batch.batchId (rec_batch r2))
        by (rewrite Hb2; exact Hid1).
      apply getBatch_after_update.
    + rewrite Hb2. reflexivity.
  - intros missing Hnone. split.
    + apply recordReceipt_missing. exact Hnone.
    + apply recordShipment_missing. exact Hnone.
Qed.

Lemma recording_checks_existence_only_witness :
  (exists r w',
      recordReceipt sampleHost "uuid-0" sampleReceipt worldCreated
      = (Normal r, w')
      /\ Batch.status (rec_batch r) = BatchStatus.RECEIVED)
  /\ (exists r1 w1 r2 w2,
      recordShipment sampleHost "uuid-0" sampleShipment worldCreated
      = (Normal r1, w1)
      /\ recordReceipt sampleHost "uuid-0" sampleReceipt w1 = (Normal r2, w2)
      /\ Batch.status (rec_batch r2) = BatchStatus.RECEIVED)
  /\ recordReceipt sampleHost "no-such-batch" sampleReceipt worldCreated
     = (Throw (Error "Batch no-such-batch not found"), worldCreated).
Proof.
  destruct (recording_checks_existence_only sampleHost worldCreated "uuid-0" _
              sampleShipment sampleReceipt eq_refl eq_refl)
    as ((r & w' & Hrun & _ & _ & _ & _ & Hst)
        & (r1 & w1 & r2 & w2 & Hs1 & _ & _ & Hs2 & _ & Hst2) & Hmiss).
  split; [exists r, w'; split; assumption|].
  split; [exists r1, w1, r2, w2; repeat split; assumption|].
  exact (proj1 (Hmiss "no-such-batch" eq_refl)).
Defined.

(** ** The event payload: C6, C8, C10 *)





(** C8.  The fingerprint of an event does not depend on its anchor
    reference, nor on its notes or on the stored fingerprint itself: none of
    the three is a property of the payload, so attaching [onChainTxHash]
    after the fingerprint was computed leaves [computeEventHash]
    unchanged. *)
Theorem anchor_reference_not_fingerprinted
  (digest : string -> string) (event : Event.t) (tx notes stored : jsval) :
  computeEventHash digest (Event.set_onChainTxHash tx event)
  = computeEventHash digest event
  /\ computeEventHash digest (Event.set_onChainTxHash tx event)
     = computeEventHash digest (Event.set_onChainTxHash JNull event)
  /\ computeEventHash digest (Event.set_notes notes event)
     = computeEventHash digest event
  /\ computeEventHash digest (Event.set_eventPayloadHash stored event)
     = computeEventHash digest event
  /\ ~ In "onChainTxHash" (keys (eventPayload event))
  /\ ~ In "notes" (keys (eventPayload event)).
Proof.
  repeat split; try reflexivity;
    simpl; intuition discriminate.
Qed.

(** C10.  At the factories a zero is an absent value: createEvent with
    [weight = 0] builds the event it builds without a weight, with
    [quantity = null], and createBatch with [declaredAssayValue = 0] builds
    the batch it builds without an assay value, with [declaredAssay = null];
    the payloads carry [null] and the fingerprints are those of the records
    built without the value. *)
Theorem zero_is_absent_at_the_factories
  (digest : string -> string) (id now : string)
  (eventData : EventData.t) (batchData : BatchData.t) :
  let zero := JNum (Int 0) in
  Event.quantity (createEvent id now (with_weight zero eventData)) = JNull
  /\ createEvent id now (with_weight zero eventData)
     = createEvent id now (with_weight JUndefined eventData)
  /\ get (eventPayload (createEvent id now (with_weight zero eventData)))
         "quantity" = JNull
  /\ computeEventHash digest (createEvent id now (with_weight zero eventData))
     = computeEventHash digest
         (createEvent id now (with_weight JUndefined eventData))
  /\ Batch.declaredAssay
       (createBatch id now (with_declaredAssayValue zero batchData)) = JNull
  /\ createBatch id now (with_declaredAssayValue zero batchData)
     = createBatch id now (with_declaredAssayValue JUndefined batchData)
  /\ get (batchPayload
            (createBatch id now (with_declaredAssayValue zero batchData)))
         "declaredAssay" = JNull
  /\ computeBatchHash digest
       (createBatch id now (with_declaredAssayValue zero batchData))
     = computeBatchHash digest
         (createBatch id now (with_declaredAssayValue JUndefined batchData)).
Proof.
  repeat split; reflexivity.
Qed.

(** ** What the encoder does with values that have no JSON form: C7 *)

Lemma object_text_ext (l l' : list (string * jsval)) :
  keys l = keys l' ->
  (forall key, canonicalizeJSON (get l key) = canonicalizeJSON (get l' key)) ->
  (forall key, is_undefined (get l key) = is_undefined (get l' key)) ->
  object_text l = object_text l'.
Proof.
  intros Hk Hc Hu. unfold object_text. rewrite Hk. do 2 f_equal.
  rewrite (filter_ext _ (fun key => negb (is_undefined (get l' key))))
    by (intros key; rewrite Hu; reflexivity).
  f_equal. apply map_ext. intros key. rewrite Hc. reflexivity.
Qed.

Lemma get_replaced (before after : list (string * jsval)) (key k : string)
  (v v' : jsval) :
  get (before ++ (key, v) :: after) k = get (before ++ (key, v') :: after) k
  \/ (get (before ++ (key, v) :: after) k = v
      /\ get (before ++ (key, v') :: after) k = v').
Proof.
  induction before as [|[k0 x] rest IH]; simpl.
  - destruct (k =? key); auto.
  - destruct (k =? k0); auto.
Qed.

(** A number without a JSON form, as a property value, gets the text and the
    fingerprint of [null]. *)
Lemma special_number_as_null (digest : string -> string) (n : jsnum)
  (before after : list (string * jsval)) (key : string) :
  number_text n = "null" ->
  canonicalizeJSON (JObj (before ++ (key, JNum n) :: after))
  = canonicalizeJSON (JObj (before ++ (key, JNull) :: after))
  /\ sha256 digest (JObj (before ++ (key, JNum n) :: after))
     = sha256 digest (JObj (before ++ (key, JNull) :: after))
  /\ exists h, sha256 digest (JObj (before ++ (key, JNum n) :: after))
               = Normal h.
Proof.
  intros Hn.
  assert (Ht : object_text (before ++ (key, JNum n) :: after)
               = object_text (before ++ (key, JNull) :: after)).
  { apply object_text_ext.
    - unfold keys. rewrite !map_app. reflexivity.
    - intros k.
      destruct (get_replaced before after key k (JNum n) JNull)
        as [->|[-> ->]]; [reflexivity|].
      simpl. rewrite Hn. reflexivity.
    - intros k.
      destruct (get_replaced before after key k (JNum n) JNull)
        as [->|[-> ->]]; reflexivity. }
  rewrite !canonicalizeJSON_object, !sha256_object, Ht.
  split; [reflexivity|]. split; [reflexivity|]. eexists. reflexivity.
Qed.

(** C7 (the code departs from the claim).  canonicalizeJSON, whose header
    says it canonicalizes per RFC 8785 and handles the special number cases,
    raises nothing on a value without a canonical form.  NaN and the
    infinities are encoded as the text null, bare and as a property value of
    any record, so a record with a weight of NaN has the canonical text and
    the fingerprint of the record with a weight of [null].  A function is
    encoded as an empty element inside an array and as the text undefined as
    a property value (a text that is not JSON), and both are fingerprinted;
    only a function or [undefined] at top level stops sha256, and then with
    the TypeError of [hash.update], not with an error of the encoder. *)
Theorem special_values_are_encoded_silently (digest : string -> string) :
  canonicalizeJSON (JNum NaN) = Some "null"
  /\ (forall negative,
        canonicalizeJSON (JNum (Infinity negative)) = Some "null")
  /\ canonicalizeJSON (JObj [("weight", JNum NaN)])
     = Some (jtext "{'weight':null}")
  /\ (forall before after key,
        canonicalizeJSON (JObj (before ++ (key, JNum NaN) :: after))
        = canonicalizeJSON (JObj (before ++ (key, JNull) :: after))
        /\ sha256 digest (JObj (before ++ (key, JNum NaN) :: after))
           = sha256 digest (JObj (before ++ (key, JNull) :: after))
        /\ exists h, sha256 digest (JObj (before ++ (key, JNum NaN) :: after))
                     = Normal h)
  /\ (forall negative before after key,
        canonicalizeJSON
          (JObj (before ++ (key, JNum (Infinity negative)) :: after))
        = canonicalizeJSON (JObj (before ++ (key, JNull) :: after))
        /\ sha256 digest
             (JObj (before ++ (key, JNum (Infinity negative)) :: after))
           = sha256 digest (JObj (before ++ (key, JNull) :: after)))
  /\ canonicalizeJSON (JArr [JFun]) = Some "[]"
  /\ sha256 digest (JArr [JFun]) = Normal (digest "[]")
  /\ (forall key,
        canonicalizeJSON (JObj [(key, JFun)])
        = Some ("{" ++ (JSON_quote key ++ ":undefined") ++ "}")
        /\ sha256 digest (JObj [(key, JFun)])
           = Normal (digest ("{" ++ (JSON_quote key ++ ":undefined") ++ "}")))
  /\ canonicalizeJSON JFun = None
  /\ sha256 digest JFun = Throw (TypeError update_undefined_message).
Proof.
  split; [reflexivity|]. split; [reflexivity|].
  split; [vm_compute; reflexivity|].
  split.
  { intros before after key.
    apply (special_number_as_null digest NaN). reflexivity. }
  split.
  { intros negative before after key.
    destruct (special_number_as_null digest (Infinity negative)
                before after key eq_refl) as (H1 & H2 & _).
    split; assumption. }
  split; [reflexivity|]. split; [reflexivity|].
  split; [|split; reflexivity].
  intros key.
  assert (Ht : canonicalizeJSON (JObj [(key, JFun)])
               = Some ("{" ++ (JSON_quote key ++ ":undefined") ++ "}")).
  { rewrite canonicalizeJSON_object. unfold object_text. simpl.
    rewrite String.eqb_refl. simpl. rewrite String.eqb_refl. reflexivity. }
  split; [exact Ht|]. unfold sha256. rewrite Ht. reflexivity.
Qed.

(** ** Documents: C9 *)

Section DocumentFacts.

Variable host : Host.

Lemma registerDocument_runs (w : World) (documentData : DocumentData.t)
  (h : string) :
  truthy (DocumentData.content documentData) = true ->
  truthy (DocumentData.sha256Hash documentData) = false ->
  hashDocument (digest host) (DocumentData.content documentData) = Normal h ->
  let document :=
    createDocument (uuidv4 host (tick w)) (now_iso host (S (tick w)))
      (DocumentData.with_hash (JStr h) documentData) in
  registerDocument host documentData w
  = (Normal document,
     {| db := saveDocument document (db w); anchoring := anchoring w;
        tick := S (S (tick w)) |}).
Proof.
  intros Hc Hh Hd document. unfold registerDocument.
  rewrite Hc, Hh, Hd. reflexivity.
Qed.

Lemma verifyDocument_runs (w : World) (documentId : string)
  (doc : Document.t) (content : jsval) (h : string) :
  getDocument (db w) documentId = Some doc ->
  hashDocument (digest host) content = Normal h ->
  exists v,
    verifyDocument host documentId content w = (Normal v, w)
    /\ valid v = str_strict_eq h (Document.sha256Hash doc).
Proof.
  intros Hget Hh. unfold verifyDocument, verifyDocumentHash. unfold_monad.
  rewrite Hget, Hh. eexists. split; reflexivity.
Qed.

End DocumentFacts.

(** C9 (counterexample).  A document registered with the empty string as its
    content and no precomputed hash is stored without a hash, although
    hashDocument of the empty string is a digest; verifyDocument with the same
    content then answers [valid = false]. *)
Lemma empty_content_is_not_fingerprinted :
  DocumentData.sha256Hash emptyDocumentData = JUndefined
  /\ hashDocument SHA256.hex (DocumentData.content emptyDocumentData)
     = Normal "e3b0c44298fc1c149afbf4c8996fb92427ae41e4649b934ca495991b7852b855"
  /\ exists doc w',
      registerDocument sampleHost emptyDocumentData newWorld = (Normal doc, w')
      /\ Document.sha256Hash doc = JUndefined
      /\ exists v w'',
          verifyDocument sampleHost (Document.documentId doc)
            (DocumentData.content emptyDocumentData) w' = (Normal v, w'')
          /\ valid v = false.
Proof.
  split; [reflexivity|]. split; [vm_compute; reflexivity|].
  eexists; eexists. split; [vm_compute; reflexivity|].
  split; [reflexivity|].
  eexists; eexists. split; [vm_compute; reflexivity|]. reflexivity.
Qed.

(** C9 (amended).  A document registered with a content that is truthy (for
    a string: not empty) and no precomputed hash is stored with
    [sha256Hash = hashDocument(content)], the stored record has no content
    property, verifyDocument of it with the same content answers
    [valid = true], and with any content of a different hash
    [valid = false]. *)
Theorem document_fingerprint_round_trip
  (host : Host) (w : World) (documentData : DocumentData.t) (h : string) :
  truthy (DocumentData.content documentData) = true ->
  truthy (DocumentData.sha256Hash documentData) = false ->
  hashDocument (digest host) (DocumentData.content documentData) = Normal h ->
  exists doc w',
    registerDocument host documentData w = (Normal doc, w')
    /\ Document.sha256Hash doc = JStr h
    /\ ~ In "content" (object_keys (Document.obj doc))
    /\ getDocument (db w') (Document.documentId doc) = Some doc
    /\ (exists v,
        verifyDocument host (Document.documentId doc)
          (DocumentData.content documentData) w' = (Normal v, w')
        /\ valid v = true)
    /\ (forall content' h',
        hashDocument (digest host) content' = Normal h' ->
        h' <> h ->
        exists v,
          verifyDocument host (Document.documentId doc) content' w'
          = (Normal v, w')
          /\ valid v = false).
Proof.
  intros Hc Hh Hd.
  pose proof (registerDocument_runs host w documentData h Hc Hh Hd) as Hrun.
  cbv zeta in Hrun.
  set (doc := createDocument (uuidv4 host (tick w)) (now_iso host (S (tick w)))
                (DocumentData.with_hash (JStr h) documentData)) in *.
  set (w' := {| db := saveDocument doc (db w); anchoring := anchoring w;
                tick := S (S (tick w)) |}) in *.
  exists doc, w'. split; [exact Hrun|].
  split; [reflexivity|].
  split; [simpl; intuition discriminate|].
  assert (Hget : getDocument (db w') (Document.documentId doc) = Some doc).
  { unfold getDocument. simpl. apply map_get_set. }
  split; [exact Hget|]. split.
  - destruct (verifyDocument_runs host w' _ doc _ h Hget Hd)
      as (v & Hv & Hvalid).
    exists v. split; [exact Hv|]. rewrite Hvalid. simpl. apply String.eqb_refl.
  - intros content' h' Hd' Hne.
    destruct (verifyDocument_runs host w' _ doc content' h' Hget Hd')
      as (v & Hv & Hvalid).
    exists v. split; [exact Hv|]. rewrite Hvalid. simpl.
    apply String.eqb_neq. exact Hne.
Qed.

Lemma document_fingerprint_round_trip_witness :
  exists doc w',
    registerDocument sampleHost sampleDocumentData newWorld = (Normal doc, w')
    /\ Document.sha256Hash doc
       = JStr "2cf24dba5fb0a30e26e83b2ac5b9e29e1b161e5c1fa7425e73043362938b9824"
    /\ (exists v,
        verifyDocument sampleHost (Document.documentId doc) (JStr "hello") w'
        = (Normal v, w')
        /\ valid v = true)
    /\ (exists v,
        verifyDocument sampleHost (Document.documentId doc) (JStr "hullo") w'
        = (Normal v, w')
        /\ valid v = false).
Proof.
  destruct (document_fingerprint_round_trip sampleHost newWorld
              sampleDocumentData
              "2cf24dba5fb0a30e26e83b2ac5b9e29e1b161e5c1fa7425e73043362938b9824")
    as (doc & w' & Hrun & Hhash & _ & _ & Hsame & Hother).
  - reflexivity.
  - reflexivity.
  - vm_compute. reflexivity.
  - exists doc, w'. split; [exact Hrun|]. split; [exact Hhash|].
    split; [exact Hsame|].
    apply (Hother (JStr "hullo")
             "7835066a1457504217688c8f5d06909c6591e0ca78c254ccf17450d0d999cab0").
    + vm_compute. reflexivity.
    + discriminate.
Defined.

(* ================================================================== *)
(** * Further properties of the code *)

(** ** The Map-based store *)

Lemma map_get_map_set {V : Type} (k k' : string) (v : V)
  (m : list (string * V)) :
  map_get k' (map_set k v m) = if (k' =? k) then Some v else map_get k' m.
Proof.
  induction m as [|[k0 v0] rest IH]; simpl.
  - rewrite (String.eqb_sym k' k). destruct (k =? k'); reflexivity.
  - destruct (k =? k0) eqn:E; simpl.
    + apply String.eqb_eq in E. subst k0. destruct (k' =? k); reflexivity.
    + rewrite IH. destruct (k' =? k0) eqn:E0; trivial.
      apply String.eqb_eq in E0. subst k0.
      rewrite (String.eqb_sym k' k), E. reflexivity.
Qed.

Lemma In_map_set {V : Type} (k k' : string) (v v' : V)
  (m : list (string * V)) :
  In (k', v') (map_set k v m) -> (k' = k /\ v' = v) \/ In (k', v') m.
Proof.
  induction m as [|[k0 v0] rest IH]; simpl.
  - intros [H|[]]. inversion H. auto.
  - destruct (k =? k0); simpl.
    + intros [H|H]; [inversion H; auto | auto].
    + intros [H|H]; [auto | destruct (IH H); auto].
Qed.

Lemma map_get_In {V : Type} (k : string) (v : V) (m : list (string * V)) :
  map_get k m = Some v -> In (k, v) m.
Proof.
  induction m as [|[k0 v0] rest IH]; simpl; [discriminate|].
  destruct (k =? k0) eqn:E.
  - apply String.eqb_eq in E. intros H. inversion H. subst. auto.
  - auto.
Qed.

Lemma In_map_get {V : Type} (k : string) (v : V) (m : list (string * V)) :
  In (k, v) m -> map_get k m <> None.
Proof.
  induction m as [|[k0 v0] rest IH]; simpl; [tauto|].
  intros [H|H].
  - inversion H. rewrite String.eqb_refl. discriminate.
  - destruct (k =? k0); [discriminate | auto].
Qed.

Lemma map_get_set_keeps {V : Type} (k k' : string) (v : V)
  (m : list (string * V)) :
  map_get k' m <> None -> map_get k' (map_set k v m) <> None.
Proof.
  intros H. rewrite map_get_map_set. destruct (k' =? k); [discriminate | exact H].
Qed.

(** [set] keeps the keys in place: a present key keeps its position, a new
    key goes to the end. *)
Lemma keys_map_set {V : Type} (k : string) (v : V) (m : list (string * V)) :
  keys (map_set k v m)
  = if existsb (String.eqb k) (keys m) then keys m else (keys m ++ [k])%list.
Proof.
  induction m as [|[k0 v0] rest IH]; simpl; trivial.
  destruct (k =? k0) eqn:E; simpl.
  - apply String.eqb_eq in E. subst. reflexivity.
  - rewrite IH. destruct (existsb (String.eqb k) (keys rest)); reflexivity.
Qed.

Lemma NoDup_keys_map_set {V : Type} (k : string) (v : V)
  (m : list (string * V)) :
  NoDup (keys m) -> NoDup (keys (map_set k v m)).
Proof.
  intros Hnd. rewrite keys_map_set.
  destruct (existsb (String.eqb k) (keys m)) eqn:E; trivial.
  assert (Hnot : ~ In k (keys m)).
  { intros Hin. apply Bool.not_true_iff_false in E. apply E.
    apply existsb_exists. exists k. split; trivial. apply String.eqb_refl. }
  clear E. induction (keys m) as [|a l IH]; simpl.
  - constructor; [tauto | constructor].
  - inversion Hnd; subst. constructor.
    + rewrite in_app_iff. simpl. intros [H|[H|[]]]; [tauto|].
      apply Hnot. left. symmetry. exact H.
    + apply IH; trivial. intros H. apply Hnot. right. exact H.
Qed.

(** ** The anchoring service *)

Section AnchoringFacts.

Variable host : Host.

Lemma anchorHash_simulated (id hash : string) (w : World) :
  simulationMode (anchoring w) = true ->
  let anchorRecord :=
    {| ar_id := id; ar_hash := hash;
       ar_timestamp := now_iso host (tick w);
       ar_txHash := "0x" ++ random_hex64 host (S (tick w));
       ar_blockNumber := (random_block host (S (S (tick w))) + 50000000)%Z;
       ar_explorerUrl :=
         explorerUrl (anchoring w) ++ "/tx/" ++ "0x"
         ++ random_hex64 host (S (tick w));
       ar_simulated := true |} in
  anchorHash host id hash w
  = (Normal (AnchorSuccess anchorRecord),
     {| db := db w;
        anchoring := push_simulated anchorRecord (anchoring w);
        tick := S (S (S (tick w))) |}).
Proof.
  intros Hsim anchorRecord. unfold anchorHash. unfold_monad.
  rewrite Hsim. reflexivity.
Qed.


Lemma verifyAnchor_simulated (txHash : jsval) (w : World) :
  simulationMode (anchoring w) = true ->
  verifyAnchor host txHash w
  = (Normal
       {| verified :=
            existsb (fun t => str_strict_eq (ar_txHash t) txHash)
                    (simulatedTransactions (anchoring w));
          ac_record :=
            find (fun t => str_strict_eq (ar_txHash t) txHash)
                 (simulatedTransactions (anchoring w)) |},
     w).
Proof.
  intros Hsim. unfold verifyAnchor. unfold_monad. rewrite Hsim.
  do 3 f_equal.
  induction (simulatedTransactions (anchoring w)) as [|t l IH]; simpl; trivial.
  destruct (str_strict_eq (ar_txHash t) txHash); trivial.
Qed.

Lemma verifyAnchor_frame (txHash : jsval) (w : World) :
  exists c w',
    verifyAnchor host txHash w = (Normal c, w')
    /\ db w' = db w /\ anchoring w' = anchoring w.
Proof.
  unfold verifyAnchor. unfold_monad.
  destruct (simulationMode (anchoring w)).
  - eexists; eexists; repeat split.
  - simpl. destruct (ledger_receipt host (tick w) txHash);
      eexists; eexists; repeat split.
Qed.

End AnchoringFacts.

(** ** The event-recording services *)

Section RecordingShape.

Variable host : Host.
Variable ToString : jsval -> string.

Ltac run_recording Hget :=
  erewrite bind_run by (apply batch_or_throw_found; exact Hget);
  erewrite bind_run by reflexivity;
  erewrite bind_run by reflexivity;
  cbv zeta; rewrite computeEventHash_normal by reflexivity;
  erewrite bind_run by reflexivity;
  match goal with
  | |- context [bind (anchorEvent host ?i ?h) _ ?W] =>
      let a := fresh "anchor" in
      let wa := fresh "wa" in
      let Ha := fresh "Ha" in
      let Hdb := fresh "Hdb" in
      destruct (anchorEvent_total host i h W) as (a & wa & Ha & Hdb);
      erewrite bind_run by exact Ha;
      erewrite bind_run by reflexivity;
      erewrite bind_run by reflexivity;
      cbn [db anchoring tick] in Hdb |- *;
      eexists; eexists; split; [reflexivity|];
      exists h, wa; cbn [rec_event rec_batch rec_anchor];
      split; [exact Ha|]; split; [exact Hdb|];
      rewrite Hdb;
      repeat split; try reflexivity;
      rewrite computeEventHash_normal by reflexivity; reflexivity
  end.

Lemma recordShipment_recording (w : World) (batchId : string)
  (batch : Batch.t) (data : ShipmentData.t) :
  getBatch (db w) batchId = Some batch ->
  exists r w',
    recordShipment host batchId data w = (Normal r, w')
    /\ recording host EventType.SHIP batchId
         (Batch.set_status BatchStatus.IN_TRANSIT) w batch r w'.
Proof.
  intros Hget. unfold recordShipment, recording. run_recording Hget.
Qed.

Lemma recordTransfer_recording (w : World) (batchId : string)
  (batch : Batch.t) (data : ShipmentData.t) :
  getBatch (db w) batchId = Some batch ->
  exists r w',
    recordTransfer host batchId data w = (Normal r, w')
    /\ recording host EventType.TRANSFER batchId
         (Batch.set_ownerPartyId (ShipmentData.toPartyId data)) w batch r w'.
Proof.
  intros Hget. unfold recordTransfer, recording. run_recording Hget.
Qed.

Lemma recordReceipt_recording (w : World) (batchId : string)
  (batch : Batch.t) (data : ReceiptData.t) :
  getBatch (db w) batchId = Some batch ->
  exists r w',
    recordReceipt host batchId data w = (Normal r, w')
    /\ recording host EventType.RECEIVE batchId
         (fun b => Batch.set_ownerPartyId (ReceiptData.receiverPartyId data)
                     (Batch.set_status BatchStatus.RECEIVED b))
         w batch r w'.
Proof.
  intros Hget. unfold recordReceipt, recording. run_recording Hget.
Qed.

Lemma recordInspection_recording (w : World) (batchId : string)
  (batch : Batch.t) (data : InspectionData.t) :
  getBatch (db w) batchId = Some batch ->
  exists r w',
    recordInspection host batchId data w = (Normal r, w')
    /\ recording host EventType.INSPECT_TEST batchId (fun b => b) w batch r w'.
Proof.
  intros Hget. unfold recordInspection, recording. run_recording Hget.
Qed.

Lemma recordAssayFinalized_recording (w : World) (batchId : string)
  (batch : Batch.t) (data : AssayData.t) :
  getBatch (db w) batchId = Some batch ->
  exists r w',
    recordAssayFinalized host ToString batchId data w = (Normal r, w')
    /\ recording host EventType.ASSAY_FINALIZED batchId
         (Batch.set_declaredAssay
            (JObj [("value", AssayData.assayValue data);
                   ("unit", or_else (AssayData.assayUnit data) (JStr "g/t"))]))
         w batch r w'.
Proof.
  intros Hget. unfold recordAssayFinalized, recording. run_recording Hget.
Qed.

Lemma recordDispute_recording (w : World) (batchId : string)
  (batch : Batch.t) (data : DisputeData.t) :
  getBatch (db w) batchId = Some batch ->
  exists r w',
    recordDispute host batchId data w = (Normal r, w')
    /\ recording host EventType.DISPUTE batchId
         (Batch.set_status BatchStatus.DISPUTE) w batch r w'.
Proof.
  intros Hget. unfold recordDispute, recording. run_recording Hget.
Qed.

End RecordingShape.

(** ** Verification reads and does not write *)

Section VerificationFacts.

Variable host : Host.

(** In simulation mode the loop leaves the world as it is, reports for each
    event whether its transaction is among the simulated ones, and adds one
    anchor verification per event that carries a transaction. *)
Lemma verify_events_simulated (events : list Event.t) :
  forall (acc : VerificationResults) (w : World),
  simulationMode (anchoring w) = true ->
  forallb hashable events = true ->
  exists r checks,
    verify_events host events acc w = (Normal r, w)
    /\ vr_events r = (vr_events acc ++ checks)%list
    /\ Forall2
         (fun e c =>
            anchorValid c
            = if truthy (Event.onChainTxHash e)
              then Some (existsb
                           (fun t => str_strict_eq (ar_txHash t)
                                       (Event.onChainTxHash e))
                           (simulatedTransactions (anchoring w)))
              else None)
         events checks
    /\ map av_eventId (anchorVerifications r)
       = (map av_eventId (anchorVerifications acc)
          ++ map Event.eventId
               (filter (fun e => truthy (Event.onChainTxHash e)) events))%list.
Proof.
  induction events as [|e rest IH]; intros acc w Hsim Hok.
  - exists acc, []. simpl. rewrite !app_nil_r. repeat split. constructor.
  - cbn [forallb] in Hok. apply andb_prop in Hok. destruct Hok as [He0 Hrest].
    unfold hashable in He0.
    cbn [verify_events]. rewrite (computeEventHash_normal _ _ He0).
    erewrite bind_run by reflexivity.
    destruct (truthy (Event.onChainTxHash e)) eqn:Htx.
    + erewrite bind_run
        by (erewrite bind_run by (apply verifyAnchor_simulated; exact Hsim);
            reflexivity).
      cbv beta zeta. cbn [fst snd verified].
      match goal with
      | |- context [verify_events host rest ?a w] =>
          destruct (IH a w Hsim Hrest) as (r & checks & Hrun & He & Hf & Hav)
      end.
      rewrite Hrun.
      exists r,
        ({| ec_eventId := Event.eventId e;
            ec_eventType := Event.eventType e;
            ec_storedHash := Event.eventPayloadHash e;
            ec_computedHash := digest host (object_text (eventPayload e));
            hashMatch :=
              str_strict_eq (digest host (object_text (eventPayload e)))
                (Event.eventPayloadHash e);
            anchorValid := Some (existsb
                                   (fun t => str_strict_eq (ar_txHash t)
                                               (Event.onChainTxHash e))
                                   (simulatedTransactions (anchoring w))) |} :: checks).
      split; [reflexivity|]. split.
      { rewrite He.
        destruct (str_strict_eq _ (Event.eventPayloadHash e)); simpl;
          rewrite <- app_assoc; reflexivity. }
      split.
      { constructor; [|exact Hf]. simpl. rewrite Htx. reflexivity. }
      rewrite Hav. cbn [filter]. rewrite Htx.
      destruct (str_strict_eq _ (Event.eventPayloadHash e)); simpl;
        rewrite map_app, <- app_assoc; reflexivity.
    + erewrite bind_run by reflexivity.
      cbv beta zeta. cbn [fst snd].
      match goal with
      | |- context [verify_events host rest ?a w] =>
          destruct (IH a w Hsim Hrest) as (r & checks & Hrun & He & Hf & Hav)
      end.
      rewrite Hrun.
      exists r,
        ({| ec_eventId := Event.eventId e;
            ec_eventType := Event.eventType e;
            ec_storedHash := Event.eventPayloadHash e;
            ec_computedHash := digest host (object_text (eventPayload e));
            hashMatch :=
              str_strict_eq (digest host (object_text (eventPayload e)))
                (Event.eventPayloadHash e);
            anchorValid := None |} :: checks).
      split; [reflexivity|]. split.
      { rewrite He.
        destruct (str_strict_eq _ (Event.eventPayloadHash e)); simpl;
          rewrite <- app_assoc; reflexivity. }
      split.
      { constructor; [|exact Hf]. simpl. rewrite Htx. reflexivity. }
      rewrite Hav. cbn [filter]. rewrite Htx.
      destruct (str_strict_eq _ (Event.eventPayloadHash e)); reflexivity.
Qed.

Lemma verifyDocument_frame (documentId : string) (content : jsval)
  (w : World) :
  snd (verifyDocument host documentId content w) = w.
Proof.
  unfold verifyDocument, verifyDocumentHash. unfold_monad.
  destruct (getDocument (db w) documentId); [|reflexivity].
  destruct (hashDocument (digest host) content); reflexivity.
Qed.

End VerificationFacts.

(** ** What the services keep true of the store *)

Section Soundness.

Variable host : Host.
Variable ToString : jsval -> string.

Lemma sound_newWorld : sound host newWorld.
Proof. constructor; simpl; try reflexivity; intros; contradiction. Qed.

Lemma getEvent_put_keeps (e : Event.t) (d : Database) (id : string) :
  getEvent d id <> None -> getEvent (put_event e d) id <> None.
Proof. unfold getEvent. simpl. apply map_get_set_keeps. Qed.

Lemma getBatch_put_keeps (b : Batch.t) (d : Database) (id : string) :
  getBatch d id <> None -> getBatch (put_batch b d) id <> None.
Proof. unfold getBatch. simpl. apply map_get_set_keeps. Qed.

(** Writing a fingerprinted, anchored event of a stored batch, together with
    the batch it was pushed on, keeps the store sound. *)
Lemma sound_write (w : World) (batch : Batch.t) (event : Event.t)
  (records : list AnchorRecord) (t : AnchorRecord) (n : nat)
  (log : list AuditEntry) (docs : list (string * Document.t)) :
  sound host w ->
  (Batch.status batch <> BatchStatus.CLOSED) ->
  normalizable (Batch.creationTimestamp batch) = true ->
  (forall id, In id (Batch.eventIds batch) ->
              id = Event.eventId event \/ getEvent (db w) id <> None) ->
  Event.batchId event = Batch.batchId batch ->
  fingerprint_intact (digest host) event = true ->
  Event.eventType event <> EventType.RESOLVE ->
  truthy (Event.onChainTxHash event) = true ->
  In t (simulatedTransactions (anchoring w) ++ records)%list ->
  Event.onChainTxHash event = JStr (ar_txHash t) ->
  Event.eventPayloadHash event = JStr (ar_hash t) ->
  ar_id t = "event:" ++ Event.eventId event ->
  (forall k x, In (k, x) docs -> Document.documentId x = k) ->
  sound host
    {| db := {| batches := map_set (Batch.batchId batch) batch (batches (db w));
                events := map_set (Event.eventId event) event (events (db w));
                documents := docs;
                auditLog := log |};
       anchoring :=
         {| explorerUrl := explorerUrl (anchoring w);
            simulationMode := simulationMode (anchoring w);
            simulatedTransactions :=
              (simulatedTransactions (anchoring w) ++ records)%list |};
       tick := n |}.
Proof.
  intros [Hsim Hb He Hd] Hst Hts Hids Hbid Hfp Hty Htr Hin Htx Hh Hid Hdocs.
  constructor; cbn [db anchoring batches events documents simulationMode
                    simulatedTransactions].
  - exact Hsim.
  - intros k b Hkb. apply In_map_set in Hkb.
    destruct Hkb as [[-> ->]|Hold].
    + split; [reflexivity|]. split; [exact Hst|]. split; [|exact Hts].
      intros id Hi. unfold getEvent. cbn [events]. rewrite map_get_map_set.
      destruct (id =? Event.eventId event) eqn:E; [discriminate|].
      destruct (Hids id Hi) as [->|Hold]; [|exact Hold].
      rewrite String.eqb_refl in E. discriminate.
    + destruct (Hb k b Hold) as (H1 & H2 & H3 & H4).
      split; [exact H1|]. split; [exact H2|]. split; [|exact H4].
      intros id Hi. unfold getEvent. cbn [events].
      apply map_get_set_keeps. apply (H3 id Hi).
  - intros k e Hke. apply In_map_set in Hke.
    destruct Hke as [[-> ->]|Hold].
    + split; [reflexivity|]. split; [exact Hfp|]. split; [exact Hty|].
      split; [|split; [exact Htr|]].
      * unfold getBatch. cbn [batches]. rewrite Hbid, map_get_set. discriminate.
      * exists t. repeat split; assumption.
    + destruct (He k e Hold) as (H1 & H2 & H3 & H4 & H7 & t0 & H5 & H6).
      split; [exact H1|]. split; [exact H2|]. split; [exact H3|].
      split; [|split; [exact H7|]].
      * unfold getBatch. cbn [batches]. apply map_get_set_keeps. exact H4.
      * exists t0. split; [apply in_or_app; left; exact H5 | exact H6].
  - exact Hdocs.
Qed.

Lemma sound_recording (ty : EventType.t) (batchId : string)
  (update : Batch.t -> Batch.t) (w w' : World) (batch : Batch.t)
  (r : Recorded) :
  sound host w ->
  getBatch (db w) batchId = Some batch ->
  keeps_batch update ->
  ty <> EventType.RESOLVE ->
  recording host ty batchId update w batch r w' ->
  sound host w'.
Proof.
  intros Hs Hget Hkeep Hty
    (h & wa & Ha & Hdb & Hid & Hety & Hbid & _ & Hh & Hc & Htx & Hb & ->).
  pose proof Hs as [Hsim Hbs Hes Hds].
  apply map_get_In in Hget.
  destruct (Hbs _ _ Hget) as (Hk & Hst & Hids & Hts).
  destruct (Hkeep batch) as (Hkid & Hkev & Hkst & Hkts).
  unfold anchorEvent in Ha. rewrite anchorHash_simulated in Ha by exact Hsim.
  inversion Ha as [[Hanchor Hwa]]. clear Ha.
  rewrite <- Hanchor in Htx. cbn [anchor_txHash ar_txHash] in Htx.
  cbn [db anchoring tick push_simulated].
  unfold saveEvent, updateBatch, logAction, put_event, put_batch.
  cbn [batches events documents auditLog].
  eapply (sound_write w (rec_batch r) (rec_event r) [_] _); try eassumption.
  - rewrite Hb. cbn [Batch.status Batch.push_eventId]. apply Hkst. exact Hst.
  - rewrite Hb. cbn [Batch.creationTimestamp Batch.push_eventId].
    rewrite Hkts. exact Hts.
  - intros id Hi. rewrite Hb in Hi. cbn [Batch.eventIds Batch.push_eventId] in Hi.
    apply in_app_or in Hi. destruct Hi as [Hi|[<-|[]]].
    + right. apply Hids. rewrite <- Hkev. exact Hi.
    + left. symmetry. exact Hid.
  - rewrite Hb. cbn [Batch.batchId Batch.push_eventId]. congruence.
  - unfold fingerprint_intact. rewrite Hc, Hh. apply String.eqb_refl.
  - congruence.
  - rewrite Htx. reflexivity.
  - apply in_or_app. right. left. reflexivity.
  - exact Htx.
  - exact Hh.
  - cbn [ar_id]. rewrite Hid. reflexivity.
Qed.

Lemma keeps_batch_status (s : BatchStatus.t) :
  s <> BatchStatus.CLOSED -> keeps_batch (Batch.set_status s).
Proof. intros Hs b. repeat split. intros _. exact Hs. Qed.

Lemma keeps_batch_owner (o : jsval) : keeps_batch (Batch.set_ownerPartyId o).
Proof. intros b. repeat split. intros H. exact H. Qed.

Lemma keeps_batch_assay (a : jsval) : keeps_batch (Batch.set_declaredAssay a).
Proof. intros b. repeat split. intros H. exact H. Qed.

Lemma keeps_batch_id : keeps_batch (fun b => b).
Proof. intros b. repeat split. intros H. exact H. Qed.

Lemma keeps_batch_compose (f g : Batch.t -> Batch.t) :
  keeps_batch f -> keeps_batch g -> keeps_batch (fun b => f (g b)).
Proof.
  intros Hf Hg b. destruct (Hg b) as (G1 & G2 & G3 & G4).
  destruct (Hf (g b)) as (F1 & F2 & F3 & F4).
  repeat split; try congruence. auto.
Qed.

Lemma run_throw {A : Type} (m : M A) (w : World) (e : JsError) :
  m w = (Throw e, w) -> run m w = w.
Proof. intros H. unfold run. rewrite H. reflexivity. Qed.

Lemma run_normal {A : Type} (m : M A) (w w' : World) (a : A) :
  m w = (Normal a, w') -> run m w = w'.
Proof. intros H. unfold run. rewrite H. reflexivity. Qed.

Lemma batch_or_throw_bind_missing {A : Type} (k : Batch.t -> M A)
  (w : World) (batchId : string) :
  getBatch (db w) batchId = None ->
  bind (batch_or_throw batchId) k w
  = (Throw (Error ("Batch " ++ batchId ++ " not found")), w).
Proof.
  intros H. erewrite bind_throw by (apply batch_or_throw_missing; exact H).
  reflexivity.
Qed.

End Soundness.

Section Creation.

Variable host : Host.
Variable ToString : jsval -> string.

(** Linking documents touches the documents only, keeps each document under
    its key with its id and its stored hash, and links exactly the listed
    ones. *)
Lemma link_documents_frame (ids : list jsval) (b e : jsval) :
  forall d,
    batches (link_documents ids b e d) = batches d
    /\ events (link_documents ids b e d) = events d
    /\ auditLog (link_documents ids b e d) = auditLog d
    /\ ((forall k x, In (k, x) (documents d) -> Document.documentId x = k) ->
        forall k x, In (k, x) (documents (link_documents ids b e d)) ->
                    Document.documentId x = k).
Proof.
  induction ids as [|id rest IH]; intros d; cbn [link_documents].
  - repeat split; trivial.
  - destruct (lookup_document d id) as [doc|] eqn:Hget; [|apply IH].
    destruct (IH (put_document (Document.link b e doc) d))
      as (H1 & H2 & H3 & H4).
    repeat split; trivial.
    intros Hd. apply H4. cbn [put_document documents].
    intros k x Hin. apply In_map_set in Hin.
    destruct Hin as [[-> ->]|Hold]; [reflexivity | auto].
Qed.

Lemma created_store_frame (documentIds : jsval) (batch : Batch.t)
  (event : Event.t) (d : Database) :
  batches (created_store documentIds batch event d)
  = batches (saveEvent event (saveBatch batch d))
  /\ events (created_store documentIds batch event d)
     = events (saveEvent event (saveBatch batch d))
  /\ auditLog (created_store documentIds batch event d)
     = auditLog (saveEvent event (saveBatch batch d))
  /\ ((forall k x, In (k, x) (documents d) -> Document.documentId x = k) ->
      forall k x,
        In (k, x) (documents (created_store documentIds batch event d)) ->
        Document.documentId x = k).
Proof.
  unfold created_store.
  destruct (forEach_items documentIds) as [items|err].
  - destruct (link_documents_frame items (JStr (Batch.batchId batch))
                (JStr (Event.eventId event))
                (saveEvent event (saveBatch batch d)))
      as (H1 & H2 & H3 & H4).
    repeat split; trivial.
  - repeat split; trivial.
Qed.

(** createBatchAtMine in simulation mode: it returns when [forEach] can be
    called on the document ids and throws otherwise, in both cases after
    batch and event were anchored and saved. *)
Lemma createBatchAtMine_simulated (w : World) (batchData : BatchData.t)
  (documentIds : jsval) :
  simulationMode (anchoring w) = true ->
  let ids := with_default documentIds (JArr []) in
  let bid := uuidv4 host (tick w) in
  let eid := uuidv4 host (S (S (tick w))) in
  let created :=
    Batch.set_documentIds ids
      (createBatch bid (now_iso host (S (tick w))) batchData) in
  exists res w' batchRecord eventRecord h,
    createBatchAtMine host batchData documentIds w
    = (match forEach_items ids with
       | Normal _ => Normal res
       | Throw err => Throw err
       end, w')
    /\ bc_batch res = Batch.push_eventId eid created
    /\ bc_batchAnchor res = AnchorSuccess batchRecord
    /\ bc_eventAnchor res = AnchorSuccess eventRecord
    /\ computeBatchHash (digest host) created = Normal (ar_hash batchRecord)
    /\ ar_id batchRecord = "batch:" ++ bid
    /\ Event.eventId (bc_event res) = eid
    /\ Event.eventType (bc_event res) = EventType.CREATE
    /\ Event.batchId (bc_event res) = bid
    /\ Event.toPartyId (bc_event res)
       = with_default (BatchData.ownerPartyId batchData) JNull
    /\ computeEventHash (digest host) (bc_event res) = Normal h
    /\ Event.eventPayloadHash (bc_event res) = JStr h
    /\ ar_hash eventRecord = h
    /\ ar_id eventRecord = "event:" ++ eid
    /\ Event.onChainTxHash (bc_event res) = JStr (ar_txHash eventRecord)
    /\ truthy (JStr (ar_txHash eventRecord)) = true
    /\ db w' = created_store ids (bc_batch res) (bc_event res) (db w)
    /\ anchoring w'
       = push_simulated eventRecord (push_simulated batchRecord (anchoring w))
    /\ tick w' = (10 + tick w)%nat.
Proof.
  intros Hsim ids bid eid created. unfold createBatchAtMine.
  cbv zeta. fold ids.
  erewrite bind_run by reflexivity.
  erewrite bind_run by reflexivity.
  erewrite bind_run by reflexivity.
  erewrite bind_run by reflexivity.
  rewrite computeEventHash_normal by reflexivity.
  erewrite bind_run by reflexivity.
  rewrite computeBatchHash_normal by reflexivity.
  erewrite bind_run by reflexivity.
  unfold anchorBatch, anchorEvent.
  erewrite bind_run by (apply anchorHash_simulated; exact Hsim).
  erewrite bind_run by (apply anchorHash_simulated; exact Hsim).
  erewrite bind_run by reflexivity.
  erewrite bind_run by reflexivity.
  match goal with
  | |- context [bind (lift (forEach_items ids)) _ ?W] =>
      match goal with
      | |- context [ret ?res] =>
          exists res,
            {| db := created_store ids (bc_batch res) (bc_event res) (db w);
               anchoring := anchoring W; tick := tick W |}
      end
  end.
  do 3 eexists. split.
  { unfold created_store.
    destruct (forEach_items ids) as [items|err].
    - erewrite bind_run by reflexivity.
      erewrite bind_run by reflexivity. reflexivity.
    - erewrite bind_throw by reflexivity. reflexivity. }
  cbn [bc_batch bc_event bc_batchAnchor bc_eventAnchor db anchoring tick].
  do 3 (split; [reflexivity|]).
  split; [apply computeBatchHash_normal; reflexivity|].
  do 5 (split; [reflexivity|]).
  refine (conj _ (conj eq_refl _)).
  - rewrite computeEventHash_normal by reflexivity. reflexivity.
  - repeat split; reflexivity.
Qed.

Lemma sound_createBatchAtMine (w : World) (batchData : BatchData.t)
  (documentIds : jsval) :
  sound host w ->
  sound host (run (createBatchAtMine host batchData documentIds) w).
Proof.
  intros Hs. pose proof Hs as [Hsim Hbs Hes Hds].
  destruct (createBatchAtMine_simulated w batchData documentIds Hsim)
    as (res & w' & rb & re & h & Hrun & Hb & _ & _ & _ & _ & Hid & Hty & Hbid
        & _ & Hc & Hh & Harh & Harid & Htx & Htruthy & Hdb & Ha & _).
  unfold run. rewrite Hrun. cbn [snd].
  destruct (created_store_frame (with_default documentIds (JArr []))
              (bc_batch res) (bc_event res) (db w))
    as (L1 & L2 & _ & L4).
  assert (Hw : sound host
            {| db := {| batches := batches (db w'); events := events (db w');
                        documents := documents (db w');
                        auditLog := auditLog (db w') |};
               anchoring := anchoring w'; tick := tick w' |}).
  { rewrite Hdb, L1, L2, Ha.
    unfold saveEvent, saveBatch, logAction, put_event, put_batch, push_simulated.
    cbn [batches events documents auditLog explorerUrl simulationMode
         simulatedTransactions].
    rewrite <- (app_assoc (simulatedTransactions (anchoring w))).
    eapply (sound_write host w (bc_batch res) (bc_event res) [rb; re] re).
    - exact Hs.
    - rewrite Hb. discriminate.
    - rewrite Hb. reflexivity.
    - intros id Hi. rewrite Hb in Hi. simpl in Hi.
      destruct Hi as [<-|[]]. left. symmetry. exact Hid.
    - rewrite Hb, Hbid. reflexivity.
    - unfold fingerprint_intact. rewrite Hc, Hh. apply String.eqb_refl.
    - rewrite Hty. discriminate.
    - rewrite Htx. exact Htruthy.
    - apply in_or_app. right. right. left. reflexivity.
    - exact Htx.
    - rewrite Hh, Harh. reflexivity.
    - rewrite Harid, Hid. reflexivity.
    - apply L4. exact Hds. }
  destruct w' as [[bs es ds lg] a n]. exact Hw.
Qed.

Lemma registerDocument_frame (w : World) (documentData : DocumentData.t) :
  exists res w',
    registerDocument host documentData w = (res, w')
    /\ anchoring w' = anchoring w
    /\ batches (db w') = batches (db w)
    /\ events (db w') = events (db w)
    /\ (documents (db w') = documents (db w)
        \/ exists doc,
            res = Normal doc
            /\ documents (db w')
               = map_set (Document.documentId doc) doc (documents (db w))).
Proof.
  unfold registerDocument.
  destruct (truthy (DocumentData.content documentData)
            && negb (truthy (DocumentData.sha256Hash documentData))).
  - destruct (hashDocument (digest host) (DocumentData.content documentData))
      as [h|err] eqn:Hh.
    + eexists; eexists. split; [reflexivity|].
      repeat split. right. eexists. split; reflexivity.
    + eexists; eexists. split; [reflexivity|]. repeat split. left. reflexivity.
  - eexists; eexists. split; [reflexivity|].
    repeat split. right. eexists. split; reflexivity.
Qed.

Lemma sound_registerDocument (w : World) (documentData : DocumentData.t) :
  sound host w -> sound host (run (registerDocument host documentData) w).
Proof.
  intros [Hsim Hbs Hes Hds].
  destruct (registerDocument_frame w documentData)
    as (res & w' & Hrun & Ha & Hb & He & Hd).
  unfold run. rewrite Hrun. cbn [snd].
  constructor.
  - rewrite Ha. exact Hsim.
  - intros k b Hin. rewrite Hb in Hin.
    destruct (Hbs k b Hin) as (H1 & H2 & H3 & H4).
    repeat split; trivial. intros id Hi. unfold getEvent. rewrite He.
    apply (H3 id Hi).
  - intros k e Hin. rewrite He in Hin.
    destruct (Hes k e Hin) as (H1 & H2 & H3 & H4 & H6 & H5).
    repeat split; trivial.
    + unfold getBatch. rewrite Hb. exact H4.
    + rewrite Ha. exact H5.
  - intros k x Hin. destruct Hd as [Hd|(doc & _ & Hd)]; rewrite Hd in Hin.
    + apply (Hds k x Hin).
    + apply In_map_set in Hin. destruct Hin as [[-> ->]|Hold];
        [reflexivity | apply (Hds k x Hold)].
Qed.

(** One call of the service keeps the store sound. *)
Lemma sound_serve (w : World) (q : Request) :
  sound host w -> sound host (serve host ToString w q).
Proof.
  intros Hs. pose proof Hs as [Hsim _ _ _].
  destruct q as [d|id c|d ids|id d|id d|id d|id d|id d|id d|id];
    cbn [serve].
  - apply sound_registerDocument. exact Hs.
  - unfold run. rewrite verifyDocument_frame. exact Hs.
  - apply sound_createBatchAtMine. exact Hs.
  - destruct (getBatch (db w) id) as [batch|] eqn:Hget.
    + destruct (recordShipment_recording host w id batch d Hget)
        as (r & w' & Hrun & Hrec).
      rewrite (run_normal _ _ _ _ Hrun).
      eapply sound_recording; try eassumption;
        [apply keeps_batch_status|]; discriminate.
    + erewrite run_throw; [exact Hs|].
      apply batch_or_throw_bind_missing. exact Hget.
  - destruct (getBatch (db w) id) as [batch|] eqn:Hget.
    + destruct (recordTransfer_recording host w id batch d Hget)
        as (r & w' & Hrun & Hrec).
      rewrite (run_normal _ _ _ _ Hrun).
      eapply sound_recording; try eassumption;
        [apply keeps_batch_owner|]; discriminate.
    + erewrite run_throw; [exact Hs|].
      apply batch_or_throw_bind_missing. exact Hget.
  - destruct (getBatch (db w) id) as [batch|] eqn:Hget.
    + destruct (recordReceipt_recording host w id batch d Hget)
        as (r & w' & Hrun & Hrec).
      rewrite (run_normal _ _ _ _ Hrun).
      eapply sound_recording; try eassumption.
      * apply (keeps_batch_compose
                 (Batch.set_ownerPartyId (ReceiptData.receiverPartyId d))
                 (Batch.set_status BatchStatus.RECEIVED)).
        -- apply keeps_batch_owner.
        -- apply keeps_batch_status. discriminate.
      * discriminate.
    + erewrite run_throw; [exact Hs|].
      apply batch_or_throw_bind_missing. exact Hget.
  - destruct (getBatch (db w) id) as [batch|] eqn:Hget.
    + destruct (recordInspection_recording host w id batch d Hget)
        as (r & w' & Hrun & Hrec).
      rewrite (run_normal _ _ _ _ Hrun).
      eapply sound_recording; try eassumption;
        [apply keeps_batch_id|]; discriminate.
    + erewrite run_throw; [exact Hs|].
      apply batch_or_throw_bind_missing. exact Hget.
  - destruct (getBatch (db w) id) as [batch|] eqn:Hget.
    + destruct (recordAssayFinalized_recording host ToString w id batch d Hget)
        as (r & w' & Hrun & Hrec).
      rewrite (run_normal _ _ _ _ Hrun).
      eapply sound_recording; try eassumption;
        [apply keeps_batch_assay|]; discriminate.
    + erewrite run_throw; [exact Hs|].
      apply batch_or_throw_bind_missing. exact Hget.
  - destruct (getBatch (db w) id) as [batch|] eqn:Hget.
    + destruct (recordDispute_recording host w id batch d Hget)
        as (r & w' & Hrun & Hrec).
      rewrite (run_normal _ _ _ _ Hrun).
      eapply sound_recording; try eassumption;
        [apply keeps_batch_status|]; discriminate.
    + erewrite run_throw; [exact Hs|].
      apply batch_or_throw_bind_missing. exact Hget.
  - destruct (verifyBatchIntegrity_frame host id w) as (_ & _ & Hsame).
    unfold run. rewrite (Hsame Hsim). exact Hs.
Qed.

Lemma sound_fold (qs : list Request) :
  forall w, sound host w -> sound host (fold_left (serve host ToString) qs w).
Proof.
  induction qs as [|q rest IH]; intros w Hs; simpl; [exact Hs|].
  apply IH. apply sound_serve. exact Hs.
Qed.

End Creation.

(** ** What holds after any sequence of calls *)

Lemma Forall2_and {A B : Type} (R1 R2 : A -> B -> Prop) (l : list A)
  (l' : list B) :
  Forall2 R1 l l' -> Forall2 R2 l l' ->
  Forall2 (fun a b => R1 a b /\ R2 a b) l l'.
Proof.
  intros H1. induction H1; intros H2; inversion H2; subst; constructor; auto.
Qed.

Lemma Forall2_In_l {A B : Type} (R : A -> B -> Prop) (P : B -> Prop)
  (l : list A) (l' : list B) :
  Forall2 R l l' -> (forall a b, In a l -> R a b -> P b) -> Forall P l'.
Proof.
  induction 1 as [|a b l l' Hr _ IH]; intros HP; constructor.
  - apply (HP a b); [left; reflexivity | exact Hr].
  - apply IH. intros a0 b0 Hin. apply HP. right. exact Hin.
Qed.

Lemma In_getAllEvents (d : Database) (e : Event.t) :
  In e (getAllEvents d) -> exists k, In (k, e) (events d).
Proof.
  unfold getAllEvents. rewrite in_map_iff. intros ([k e0] & Heq & Hin).
  simpl in Heq. subst. exists k. exact Hin.
Qed.

(** On a sound store every batch verifies completely. *)
Lemma sound_verifies (host : Host) (w : World) (batchId : string)
  (batch : Batch.t) :
  sound host w ->
  getBatch (db w) batchId = Some batch ->
  exists r,
    verifyBatchIntegrity host batchId w = (Normal (Verification r), w)
    /\ overallValid r = true
    /\ Forall (fun c => hashMatch c = true /\ anchorValid c = Some true)
              (vr_events r)
    /\ map ec_eventId (vr_events r)
       = map Event.eventId
           (getEventsByBatch (Date_value host) (db w) batchId)
    /\ map av_eventId (anchorVerifications r) = map ec_eventId (vr_events r).
Proof.
  intros Hs Hget. pose proof Hs as [Hsim Hbs Hes _].
  assert (Hts : normalizable (Batch.creationTimestamp batch) = true).
  { apply map_get_In in Hget. apply (Hbs _ _ Hget). }
  set (es := getEventsByBatch (Date_value host) (db w) batchId).
  assert (Hgood : forall e, In e es ->
             fingerprint_intact (digest host) e = true
             /\ truthy (Event.onChainTxHash e) = true
             /\ existsb (fun t => str_strict_eq (ar_txHash t)
                                    (Event.onChainTxHash e))
                        (simulatedTransactions (anchoring w)) = true).
  { intros e Hin. apply getEventsByBatch_In in Hin. destruct Hin as [Hin _].
    apply In_getAllEvents in Hin. destruct Hin as [k Hin].
    destruct (Hes k e Hin) as (_ & Hfp & _ & _ & Htr & t & Ht & Htx & _).
    split; [exact Hfp|]. split; [exact Htr|].
    apply existsb_exists. exists t. split; [exact Ht|].
    rewrite Htx. simpl. apply String.eqb_refl. }
  assert (Hhashable : forallb hashable es = true).
  { apply forallb_forall. intros e Hin. unfold hashable.
    apply (fingerprint_intact_normalizable (digest host)).
    apply (Hgood e Hin). }
  unfold verifyBatchIntegrity. unfold_monad. rewrite Hget.
  rewrite (computeBatchHash_normal _ _ Hts). cbv beta iota. fold es.
  match goal with
  | |- context [verify_events host es ?a w] =>
      destruct (verify_events_simulated host es a w Hsim Hhashable)
        as (r & checks & Hrun & He & Hf & Hav);
      destruct (verify_events_spec host es a w Hhashable)
        as (r1 & w1 & checks1 & Hrun1 & _ & _ & Ho & He1 & Hf1)
  end.
  rewrite Hrun in Hrun1. inversion Hrun1; subst r1 w1. clear Hrun1.
  rewrite Hrun. exists r. split; [reflexivity|].
  cbn [vr_events overallValid anchorVerifications app map andb] in *.
  rewrite He1 in He. subst checks1. rename He1 into He.
  assert (Hall : forallb (fingerprint_intact (digest host)) es = true).
  { apply forallb_forall. intros e Hin. apply (Hgood e Hin). }
  split; [rewrite Ho; exact Hall|].
  rewrite He.
  split.
  { apply (Forall2_In_l _ _ _ _ (Forall2_and _ _ _ _ Hf1 Hf)).
    intros e c Hin [Hr Hv]. destruct (Hgood e Hin) as (Hfp & Htr & Hex).
    split.
    - rewrite (reports_hashMatch _ _ _ Hr). exact Hfp.
    - rewrite Hv, Htr, Hex. reflexivity. }
  assert (Hids : map ec_eventId checks = map Event.eventId es).
  { clear - Hf1. induction Hf1 as [|e c l l' Hr _ IH]; simpl; trivial.
    destruct Hr as (Hid & _). rewrite Hid, IH. reflexivity. }
  split; [exact Hids|].
  rewrite Hav, Hids. f_equal.
  clear - Hgood. induction es as [|e l IH]; simpl; trivial.
  destruct (Hgood e (or_introl eq_refl)) as (_ & -> & _).
  simpl. f_equal. apply IH. intros e0 H0. apply Hgood. right. exact H0.
Qed.

(** X1.  Chain integrity.  Start the service afresh (simulation mode, empty
    store) and make any sequence of calls of the provenance service.  Then
    verifyBatchIntegrity of any stored batch returns, leaves the world as it
    is, and reports [overallValid = true], every event of the batch with
    [hashMatch = true] and [anchorValid = true], and one anchor verification
    per event. *)
Theorem served_batches_verify (host : Host) (ToString : jsval -> string)
  (qs : list Request) (batchId : string) (batch : Batch.t) :
  getBatch (db (serve_all host ToString qs)) batchId = Some batch ->
  exists r,
    verifyBatchIntegrity host batchId (serve_all host ToString qs)
    = (Normal (Verification r), serve_all host ToString qs)
    /\ overallValid r = true
    /\ Forall (fun c => hashMatch c = true /\ anchorValid c = Some true)
              (vr_events r)
    /\ map ec_eventId (vr_events r)
       = map Event.eventId
           (getEventsByBatch (Date_value host)
              (db (serve_all host ToString qs)) batchId)
    /\ map av_eventId (anchorVerifications r) = map ec_eventId (vr_events r).
Proof.
  intros Hget. apply (sound_verifies host _ batchId batch); [|exact Hget].
  apply sound_fold. apply sound_newWorld.
Qed.

Lemma sampleSession_world :
  serve_all sampleHost sampleToString sampleSession = worldSession.
Proof. vm_compute. reflexivity. Qed.

Lemma served_batches_verify_witness :
  exists r,
    verifyBatchIntegrity sampleHost "uuid-0"
      (serve_all sampleHost sampleToString sampleSession)
    = (Normal (Verification r),
       serve_all sampleHost sampleToString sampleSession)
    /\ overallValid r = true
    /\ map ec_eventType (vr_events r)
       = [EventType.CREATE; EventType.SHIP; EventType.INSPECT_TEST;
          EventType.RECEIVE; EventType.ASSAY_FINALIZED].
Proof.
  pose proof (served_batches_verify sampleHost sampleToString sampleSession
                "uuid-0") as H.
  rewrite sampleSession_world in *.
  assert (Hb : exists b, getBatch (db worldSession) "uuid-0" = Some b)
    by (vm_compute; eexists; reflexivity).
  destruct Hb as [b Hb].
  destruct (H b Hb) as (r & Hrun & Hvalid & _).
  exists r. split; [exact Hrun|]. split; [exact Hvalid|].
  assert (Hv : exists r0 w0,
             verifyBatchIntegrity sampleHost "uuid-0" worldSession
             = (Normal (Verification r0), w0)
             /\ map ec_eventType (vr_events r0)
                = [EventType.CREATE; EventType.SHIP; EventType.INSPECT_TEST;
                   EventType.RECEIVE; EventType.ASSAY_FINALIZED]).
  { eexists; eexists. split; [vm_compute; reflexivity | reflexivity]. }
  destruct Hv as (r0 & w0 & Hrun0 & Hty).
  rewrite Hrun0 in Hrun. inversion Hrun. subst. exact Hty.
Defined.

(** X2.  After any sequence of calls on the fresh service no stored batch is
    in status Closed and no stored event is of type Resolve: the service has
    no operation that closes a batch or resolves a dispute. *)
Theorem served_batches_never_closed (host : Host)
  (ToString : jsval -> string) (qs : list Request) :
  (forall b, In b (getAllBatches (db (serve_all host ToString qs))) ->
             Batch.status b <> BatchStatus.CLOSED)
  /\ (forall e, In e (getAllEvents (db (serve_all host ToString qs))) ->
                Event.eventType e <> EventType.RESOLVE).
Proof.
  assert (Hs : sound host (serve_all host ToString qs))
    by (apply sound_fold; apply sound_newWorld).
  destruct Hs as [_ Hbs Hes _]. split.
  - intros b Hin. unfold getAllBatches in Hin. apply in_map_iff in Hin.
    destruct Hin as ([k b0] & Heq & Hin). simpl in Heq. subst.
    apply (Hbs k b Hin).
  - intros e Hin. apply In_getAllEvents in Hin. destruct Hin as [k Hin].
    apply (Hes k e Hin).
Qed.

(** X3.  Referential integrity after any sequence of calls on the fresh
    service: every stored event belongs to a stored batch, every id in a
    batch's [eventIds] is the id of a stored event, and batches, events and
    documents are stored under their own ids. *)
Theorem served_store_is_linked (host : Host) (ToString : jsval -> string)
  (qs : list Request) :
  let d := db (serve_all host ToString qs) in
  (forall e, In e (getAllEvents d) -> getBatch d (Event.batchId e) <> None)
  /\ (forall b id, In b (getAllBatches d) -> In id (Batch.eventIds b) ->
                   getEvent d id <> None)
  /\ (forall id b, getBatch d id = Some b -> Batch.batchId b = id)
  /\ (forall id e, getEvent d id = Some e -> Event.eventId e = id)
  /\ (forall id x, getDocument d id = Some x -> Document.documentId x = id).
Proof.
  assert (Hs : sound host (serve_all host ToString qs))
    by (apply sound_fold; apply sound_newWorld).
  destruct Hs as [_ Hbs Hes Hds]. cbv zeta. repeat split.
  - intros e Hin. apply In_getAllEvents in Hin. destruct Hin as [k Hin].
    apply (Hes k e Hin).
  - intros b id Hin Hid. unfold getAllBatches in Hin. apply in_map_iff in Hin.
    destruct Hin as ([k b0] & Heq & Hin). simpl in Heq. subst.
    destruct (Hbs k b Hin) as (_ & _ & H & _). apply (H id Hid).
  - intros id b Hget. apply map_get_In in Hget. apply (Hbs id b Hget).
  - intros id e Hget. apply map_get_In in Hget. apply (Hes id e Hget).
  - intros id x Hget. apply map_get_In in Hget. apply (Hds id x Hget).
Qed.

(** X4.  After any sequence of calls on the fresh service every stored event
    carries the fingerprint of its own fields and has a simulated transaction
    recorded for it: a record with id "event:<eventId>", the event's
    fingerprint as hash and the event's [onChainTxHash] as transaction
    hash. *)
Theorem served_events_are_anchored (host : Host) (ToString : jsval -> string)
  (qs : list Request) (e : Event.t) :
  let w := serve_all host ToString qs in
  In e (getAllEvents (db w)) ->
  fingerprint_intact (digest host) e = true
  /\ exists t,
      In t (getSimulatedTransactions (anchoring w))
      /\ ar_id t = "event:" ++ Event.eventId e
      /\ Event.eventPayloadHash e = JStr (ar_hash t)
      /\ Event.onChainTxHash e = JStr (ar_txHash t).
Proof.
  intros w Hin.
  assert (Hs : sound host w) by (apply sound_fold; apply sound_newWorld).
  destruct Hs as [_ _ Hes _].
  apply In_getAllEvents in Hin. destruct Hin as [k Hin].
  destruct (Hes k e Hin) as (_ & Hfp & _ & _ & _ & t & Ht & Htx & Hh & Hid).
  split; [exact Hfp|]. exists t. repeat split; assumption.
Qed.

Lemma served_batches_never_closed_witness :
  exists b,
    In b (getAllBatches
            (db (serve_all sampleHost sampleToString sampleSession)))
    /\ Batch.status b = BatchStatus.RECEIVED
    /\ Batch.status b <> BatchStatus.CLOSED.
Proof.
  pose proof (proj1 (served_batches_never_closed sampleHost sampleToString
                       sampleSession)) as H.
  rewrite sampleSession_world in *.
  eexists. split; [left; reflexivity|]. split; [reflexivity|].
  apply H. left. reflexivity.
Defined.

Lemma served_store_is_linked_witness :
  exists b,
    getBatch (db (serve_all sampleHost sampleToString sampleSession)) "uuid-0"
    = Some b
    /\ Batch.batchId b = "uuid-0"
    /\ length (Batch.eventIds b) = 5
    /\ forall id, In id (Batch.eventIds b) ->
         getEvent (db (serve_all sampleHost sampleToString sampleSession)) id
         <> None.
Proof.
  destruct (served_store_is_linked sampleHost sampleToString sampleSession)
    as (_ & Hids & Hb & _).
  rewrite sampleSession_world in *.
  eexists. split; [reflexivity|]. split; [apply Hb; reflexivity|].
  split; [reflexivity|].
  intros id Hin. eapply Hids; [|exact Hin]. left. reflexivity.
Defined.

Lemma served_events_are_anchored_witness :
  exists e,
    In e (getAllEvents (db (serve_all sampleHost sampleToString sampleSession)))
    /\ Event.eventType e = EventType.ASSAY_FINALIZED
    /\ fingerprint_intact (digest sampleHost) e = true.
Proof.
  assert (Hin : exists e,
             In e (getAllEvents
                     (db (serve_all sampleHost sampleToString sampleSession)))
             /\ Event.eventType e = EventType.ASSAY_FINALIZED).
  { rewrite sampleSession_world. eexists.
    split; [do 4 right; left; reflexivity | reflexivity]. }
  destruct Hin as (e & Hin & Hty). exists e. split; [exact Hin|].
  split; [exact Hty|].
  apply (served_events_are_anchored sampleHost sampleToString sampleSession e Hin).
Defined.

(** ** Verification: what it returns, when it throws, and that it never
       writes *)



(** ** The audit trail *)

Section AuditFacts.

Variable host : Host.
Variable ToString : jsval -> string.

Lemma audit_recording (ty : EventType.t) (batchId : string)
  (update : Batch.t -> Batch.t) (w w' : World) (batch : Batch.t)
  (r : Recorded) :
  recording host ty batchId update w batch r w' ->
  auditLog (db w')
  = (auditLog (db w)
     ++ [{| action := "UPDATE"; entityType := "Batch";
            entityId := Batch.batchId (rec_batch r); userId := "system" |};
         {| action := "CREATE"; entityType := "Event";
            entityId := Event.eventId (rec_event r);
            userId := "system" |}])%list.
Proof.
  intros (h & wa & _ & _ & _ & _ & _ & _ & _ & _ & _ & _ & ->).
  simpl. rewrite <- app_assoc. reflexivity.
Qed.

Lemma createBatchAtMine_db (w : World) (batchData : BatchData.t)
  (documentIds : jsval) :
  let ids := with_default documentIds (JArr []) in
  exists res w',
    createBatchAtMine host batchData documentIds w
    = (match forEach_items ids with
       | Normal _ => Normal res
       | Throw err => Throw err
       end, w')
    /\ db w' = created_store ids (bc_batch res) (bc_event res) (db w)
    /\ bc_batch res
       = Batch.push_eventId (uuidv4 host (S (S (tick w))))
           (Batch.set_documentIds ids
              (createBatch (uuidv4 host (tick w)) (now_iso host (S (tick w)))
                 batchData))
    /\ Event.eventId (bc_event res) = uuidv4 host (S (S (tick w)))
    /\ Event.eventType (bc_event res) = EventType.CREATE
    /\ Event.batchId (bc_event res) = uuidv4 host (tick w)
    /\ Event.references (bc_event res) = ids
    /\ fingerprint_intact (digest host) (bc_event res) = true.
Proof.
  intros ids. unfold createBatchAtMine. cbv zeta. fold ids.
  erewrite bind_run by reflexivity.
  erewrite bind_run by reflexivity.
  erewrite bind_run by reflexivity.
  erewrite bind_run by reflexivity.
  rewrite computeEventHash_normal by reflexivity.
  erewrite bind_run by reflexivity.
  rewrite computeBatchHash_normal by reflexivity.
  erewrite bind_run by reflexivity.
  unfold anchorBatch.
  match goal with
  | |- context [bind (anchorHash host ?i ?h) _ ?W] =>
      destruct (anchorHash_total host i h W) as (a1 & w1 & Ha1 & Hdb1)
  end.
  erewrite bind_run by exact Ha1.
  match goal with
  | |- context [bind (anchorEvent host ?i ?h) _ ?W] =>
      destruct (anchorEvent_total host i h W) as (a2 & w2 & Ha2 & Hdb2)
  end.
  erewrite bind_run by exact Ha2.
  erewrite bind_run by reflexivity.
  erewrite bind_run by reflexivity.
  cbn [db anchoring tick]. rewrite Hdb2, Hdb1. cbn [db].
  match goal with
  | |- context [ret ?res] =>
      exists res,
        {| db := created_store ids (bc_batch res) (bc_event res) (db w);
           anchoring := anchoring w2; tick := tick w2 |}
  end.
  split.
  { unfold created_store.
    destruct (forEach_items ids) as [items|err].
    - erewrite bind_run by reflexivity.
      erewrite bind_run by reflexivity. reflexivity.
    - erewrite bind_throw by reflexivity. reflexivity. }
  cbn [bc_batch bc_event db].
  repeat split; try reflexivity.
  - unfold ids. destruct documentIds; reflexivity.
  - unfold fingerprint_intact.
    rewrite computeEventHash_normal by reflexivity.
    apply String.eqb_refl.
Qed.

Lemma registerDocument_audit (w : World) (documentData : DocumentData.t) :
  exists suffix,
    auditLog (db (run (registerDocument host documentData) w))
    = (auditLog (db w) ++ suffix)%list
    /\ (length suffix <= 1)%nat /\ system_entries suffix.
Proof.
  unfold run, registerDocument.
  destruct (truthy (DocumentData.content documentData)
            && negb (truthy (DocumentData.sha256Hash documentData))).
  - destruct (hashDocument (digest host) (DocumentData.content documentData))
      as [h|err] eqn:Hh.
    + eexists. split; [reflexivity|]. split; [simpl; lia|].
      repeat constructor.
    + exists []. simpl. rewrite app_nil_r. repeat split; [lia | constructor].
  - eexists. split; [reflexivity|]. split; [simpl; lia|]. repeat constructor.
Qed.

Lemma serve_audit (w : World) (q : Request) :
  exists suffix,
    auditLog (db (serve host ToString w q)) = (auditLog (db w) ++ suffix)%list
    /\ (length suffix <= 2)%nat /\ system_entries suffix.
Proof.
  assert (Hnone : exists suffix,
             auditLog (db w) = (auditLog (db w) ++ suffix)%list
             /\ (length suffix <= 2)%nat /\ system_entries suffix).
  { exists []. rewrite app_nil_r. repeat split; [simpl; lia | constructor]. }
  assert (Hrec : forall ty id up batch r w',
             recording host ty id up w batch r w' ->
             exists suffix,
               auditLog (db w') = (auditLog (db w) ++ suffix)%list
               /\ (length suffix <= 2)%nat /\ system_entries suffix).
  { intros ty id up batch r w' H. eexists.
    split; [apply (audit_recording _ _ _ _ _ _ _ H)|].
    split; [simpl; lia | repeat constructor]. }
  destruct q as [d|id c|d ids|id d|id d|id d|id d|id d|id d|id];
    cbn [serve].
  - destruct (registerDocument_audit w d) as (s & H1 & H2 & H3).
    exists s. repeat split; trivial. lia.
  - unfold run. rewrite verifyDocument_frame. exact Hnone.
  - destruct (createBatchAtMine_db w d ids) as (res & w' & Hrun & Hdb & _).
    unfold run. rewrite Hrun. cbn [snd]. rewrite Hdb.
    destruct (created_store_frame (with_default ids (JArr []))
                (bc_batch res) (bc_event res) (db w))
      as (_ & _ & -> & _).
    eexists. split; [simpl; rewrite <- app_assoc; reflexivity|].
    split; [simpl; lia | repeat constructor].
  - destruct (getBatch (db w) id) as [batch|] eqn:Hget.
    + destruct (recordShipment_recording host w id batch d Hget)
        as (r & w' & Hrun & H).
      rewrite (run_normal _ _ _ _ Hrun). eapply Hrec; exact H.
    + erewrite run_throw; [exact Hnone|].
      apply batch_or_throw_bind_missing. exact Hget.
  - destruct (getBatch (db w) id) as [batch|] eqn:Hget.
    + destruct (recordTransfer_recording host w id batch d Hget)
        as (r & w' & Hrun & H).
      rewrite (run_normal _ _ _ _ Hrun). eapply Hrec; exact H.
    + erewrite run_throw; [exact Hnone|].
      apply batch_or_throw_bind_missing. exact Hget.
  - destruct (getBatch (db w) id) as [batch|] eqn:Hget.
    + destruct (recordReceipt_recording host w id batch d Hget)
        as (r & w' & Hrun & H).
      rewrite (run_normal _ _ _ _ Hrun). eapply Hrec; exact H.
    + erewrite run_throw; [exact Hnone|].
      apply batch_or_throw_bind_missing. exact Hget.
  - destruct (getBatch (db w) id) as [batch|] eqn:Hget.
    + destruct (recordInspection_recording host w id batch d Hget)
        as (r & w' & Hrun & H).
      rewrite (run_normal _ _ _ _ Hrun). eapply Hrec; exact H.
    + erewrite run_throw; [exact Hnone|].
      apply batch_or_throw_bind_missing. exact Hget.
  - destruct (getBatch (db w) id) as [batch|] eqn:Hget.
    + destruct (recordAssayFinalized_recording host ToString w id batch d Hget)
        as (r & w' & Hrun & H).
      rewrite (run_normal _ _ _ _ Hrun). eapply Hrec; exact H.
    + erewrite run_throw; [exact Hnone|].
      apply batch_or_throw_bind_missing. exact Hget.
  - destruct (getBatch (db w) id) as [batch|] eqn:Hget.
    + destruct (recordDispute_recording host w id batch d Hget)
        as (r & w' & Hrun & H).
      rewrite (run_normal _ _ _ _ Hrun). eapply Hrec; exact H.
    + erewrite run_throw; [exact Hnone|].
      apply batch_or_throw_bind_missing. exact Hget.
  - destruct (verifyBatchIntegrity_frame host id w) as (Hdb & _).
    unfold run. rewrite Hdb. exact Hnone.
Qed.

End AuditFacts.

(** X6.  The audit trail is append-only: whatever calls are made, on any
    world, the log afterwards is the log before followed by new entries, at
    most two per call, all written under the user id "system"; and what
    getAuditLog returned before, for one entity or for the whole log, is a
    prefix of what it returns after. *)
Theorem audit_log_only_grows (host : Host) (ToString : jsval -> string)
  (qs : list Request) (w : World) :
  exists suffix,
    auditLog (db (fold_left (serve host ToString) qs w))
    = (auditLog (db w) ++ suffix)%list
    /\ (length suffix <= 2 * length qs)%nat
    /\ Forall (fun entry => userId entry = "system") suffix
    /\ forall id, exists more,
         getAuditLog (db (fold_left (serve host ToString) qs w)) id
         = (getAuditLog (db w) id ++ more)%list.
Proof.
  assert (Hlog : exists suffix,
             auditLog (db (fold_left (serve host ToString) qs w))
             = (auditLog (db w) ++ suffix)%list
             /\ (length suffix <= 2 * length qs)%nat
             /\ Forall (fun entry => userId entry = "system") suffix).
  { revert w. induction qs as [|q rest IH]; intros w; cbn [fold_left].
    - exists []. rewrite app_nil_r. split; [reflexivity|].
      split; [simpl; lia | constructor].
    - destruct (serve_audit host ToString w q) as (s1 & H1 & L1 & F1).
      destruct (IH (serve host ToString w q)) as (s2 & H2 & L2 & F2).
      exists (s1 ++ s2)%list. rewrite H2, H1, <- app_assoc.
      split; [reflexivity|]. split.
      + rewrite length_app. simpl length. lia.
      + apply Forall_app. split; assumption. }
  destruct Hlog as (suffix & Hlog & Hlen & Hsys).
  exists suffix. split; [exact Hlog|]. split; [exact Hlen|].
  split; [exact Hsys|].
  intros id. unfold getAuditLog. rewrite Hlog.
  destruct (truthy id).
  - rewrite filter_app. eexists. reflexivity.
  - eexists. reflexivity.
Qed.

(** ** The order of a chain of custody *)

Section OrderFacts.

Variable dv : jsval -> option Z.






End OrderFacts.



(** ** Anchoring *)

(** X8.  In simulation mode anchorHash always succeeds: it leaves the store
    alone, appends one record carrying the given id and hash, and the
    transaction hash it returns is confirmed by verifyAnchor from then on;
    every transaction confirmed before is still confirmed after; a service
    that has anchored nothing confirms nothing. *)
Theorem anchor_then_verify (host : Host) (w : World) (id hash : string) :
  simulationMode (anchoring w) = true ->
  exists t w1,
    anchorHash host id hash w = (Normal (AnchorSuccess t), w1)
    /\ ar_id t = id /\ ar_hash t = hash /\ ar_simulated t = true
    /\ ar_explorerUrl t = getExplorerUrl (anchoring w) (ar_txHash t)
    /\ db w1 = db w
    /\ getSimulatedTransactions (anchoring w1)
       = (getSimulatedTransactions (anchoring w) ++ [t])%list
    /\ (exists c, verifyAnchor host (JStr (ar_txHash t)) w1 = (Normal c, w1)
                  /\ verified c = true)
    /\ (forall tx c, verifyAnchor host tx w = (Normal c, w) ->
                     verified c = true ->
                     exists c', verifyAnchor host tx w1 = (Normal c', w1)
                                /\ verified c' = true)
    /\ (forall tx, verifyAnchor host tx newWorld
                   = (Normal {| verified := false; ac_record := None |},
                      newWorld)).
Proof.
  intros Hsim. pose proof (anchorHash_simulated host id hash w Hsim) as Hrun.
  cbv zeta in Hrun. eexists; eexists. split; [exact Hrun|].
  cbn [ar_id ar_hash ar_simulated ar_explorerUrl ar_txHash db anchoring].
  do 6 (split; [reflexivity|]).
  split; [|split].
  - eexists. split; [apply verifyAnchor_simulated; exact Hsim|].
    cbn [verified anchoring push_simulated simulatedTransactions].
    rewrite existsb_app. simpl. rewrite String.eqb_refl.
    apply orb_true_r.
  - intros tx c Hv Hc. rewrite verifyAnchor_simulated in Hv by exact Hsim.
    inversion Hv; subst c. cbn [verified] in Hc.
    eexists. split; [apply verifyAnchor_simulated; exact Hsim|].
    cbn [verified anchoring push_simulated simulatedTransactions].
    rewrite existsb_app, Hc. reflexivity.
  - intros tx. reflexivity.
Qed.

Lemma anchor_then_verify_witness :
  exists t w1,
    anchorHash sampleHost "event:demo" "abc" worldCreated
    = (Normal (AnchorSuccess t), w1)
    /\ length (getSimulatedTransactions (anchoring w1)) = 3
    /\ exists c, verifyAnchor sampleHost (JStr (ar_txHash t)) w1
                 = (Normal c, w1)
                 /\ verified c = true.
Proof.
  destruct (anchor_then_verify sampleHost worldCreated "event:demo" "abc"
              eq_refl)
    as (t & w1 & Hrun & _ & _ & _ & _ & _ & Htx & Hv & _).
  exists t, w1. split; [exact Hrun|]. split; [|exact Hv].
  rewrite Htx, length_app. reflexivity.
Defined.

(** ** Recording when the ledger cannot be reached *)





(** ** What each recording call does to the batch *)



(** ** Creating a batch with documents *)

Lemma link_idempotent (b e : jsval) (doc : Document.t) :
  Document.link b e (Document.link b e doc) = Document.link b e doc.
Proof. reflexivity. Qed.

Lemma link_documents_get (ids : list jsval) (b e : jsval) (k : string) :
  forall d,
    (forall k0 x, In (k0, x) (documents d) -> Document.documentId x = k0) ->
    getDocument (link_documents ids b e d) k
    = option_map (linked ids b e k) (getDocument d k).
Proof.
  induction ids as [|id rest IH]; intros d Hd; cbn [link_documents].
  - unfold linked. simpl. destruct (getDocument d k); reflexivity.
  - destruct (lookup_document d id) as [doc|] eqn:Hget.
    + destruct id as [ | | | | s | | | | ]; try discriminate.
      cbn [lookup_document] in Hget.
      rewrite IH.
      * unfold getDocument in *. cbn [put_document documents].
        assert (Hid : Document.documentId doc = s)
          by (apply Hd; apply map_get_In; exact Hget).
        cbn [Document.link Document.documentId]. rewrite Hid.
        rewrite map_get_map_set. unfold linked. cbn [existsb str_strict_eq].
        destruct (k =? s) eqn:E.
        -- apply String.eqb_eq in E. subst k. rewrite Hget. simpl.
           destruct (existsb (str_strict_eq s) rest); reflexivity.
        -- reflexivity.
      * cbn [put_document documents]. intros k0 x Hin.
        apply In_map_set in Hin. destruct Hin as [[-> ->]|Hold];
          [reflexivity | apply Hd; exact Hold].
    + rewrite IH by exact Hd. unfold linked. cbn [existsb].
      destruct (str_strict_eq k id) eqn:E; [|reflexivity].
      destruct id as [ | | | | s | | | | ]; try discriminate.
      cbn [str_strict_eq] in E. apply String.eqb_eq in E. subst k.
      cbn [lookup_document] in Hget. rewrite Hget. reflexivity.
Qed.

(** X11.  createBatchAtMine, in either mode.  In every case the batch, in
    status Created with the given document ids and exactly one event id, and
    its Create event, carrying its own fingerprint, are stored, and no
    document's stored hash changes.  When the document ids are an array (or
    [undefined], which stands for the empty array) the call returns, and of
    the stored documents exactly those whose id is an element are linked to
    the new batch and event; an element that is the id of no document is
    ignored.  When they are [null] or any other value that is not an array,
    the call throws a TypeError after batch and event were stored, and the
    documents are as before. *)
Theorem createBatchAtMine_links_documents (host : Host) (w : World)
  (batchData : BatchData.t) (documentIds : jsval) :
  (forall k x, In (k, x) (documents (db w)) -> Document.documentId x = k) ->
  let ids := with_default documentIds (JArr []) in
  exists res w',
    snd (createBatchAtMine host batchData documentIds w) = w'
    /\ Batch.batchId (bc_batch res) = uuidv4 host (tick w)
    /\ Batch.status (bc_batch res) = BatchStatus.CREATED
    /\ Batch.documentIds (bc_batch res) = ids
    /\ Batch.eventIds (bc_batch res) = [Event.eventId (bc_event res)]
    /\ Event.eventType (bc_event res) = EventType.CREATE
    /\ Event.batchId (bc_event res) = Batch.batchId (bc_batch res)
    /\ fingerprint_intact (digest host) (bc_event res) = true
    /\ getBatch (db w') (Batch.batchId (bc_batch res)) = Some (bc_batch res)
    /\ getEvent (db w') (Event.eventId (bc_event res)) = Some (bc_event res)
    /\ (forall items,
          ids = JArr items ->
          fst (createBatchAtMine host batchData documentIds w) = Normal res
          /\ forall k,
              getDocument (db w') k
              = option_map
                  (linked items (JStr (Batch.batchId (bc_batch res)))
                     (JStr (Event.eventId (bc_event res))) k)
                  (getDocument (db w) k))
    /\ ((forall items, ids <> JArr items) ->
        carries_forEach ids = false ->
        (exists message,
            fst (createBatchAtMine host batchData documentIds w)
            = Throw (TypeError message))
        /\ documents (db w') = documents (db w))
    /\ (forall k,
          option_map Document.sha256Hash (getDocument (db w') k)
          = option_map Document.sha256Hash (getDocument (db w) k)).
Proof.
  intros Hd ids.
  destruct (createBatchAtMine_db host w batchData documentIds)
    as (res & w' & Hrun & Hdb & Hb & Hid & Hty & Hbid & _ & Hfp).
  fold ids in Hrun, Hdb, Hb.
  exists res, w'. split; [rewrite Hrun; reflexivity|].
  split; [rewrite Hb; reflexivity|].
  split; [rewrite Hb; reflexivity|]. split; [rewrite Hb; reflexivity|].
  split; [rewrite Hb, Hid; reflexivity|]. split; [exact Hty|].
  split; [rewrite Hbid, Hb; reflexivity|]. split; [exact Hfp|].
  destruct (created_store_frame ids (bc_batch res) (bc_event res) (db w))
    as (L1 & L2 & _ & _).
  split.
  { unfold getBatch. rewrite Hdb, L1. simpl. apply map_get_set. }
  split.
  { unfold getEvent. rewrite Hdb, L2. simpl. apply map_get_set. }
  assert (Hget : forall items,
             ids = JArr items ->
             forall k,
               getDocument (db w') k
               = option_map
                   (linked items (JStr (Batch.batchId (bc_batch res)))
                      (JStr (Event.eventId (bc_event res))) k)
                   (getDocument (db w) k)).
  { intros items Hitems k. rewrite Hdb. unfold created_store.
    rewrite Hitems. cbn [forEach_items].
    rewrite link_documents_get; [reflexivity|]. exact Hd. }
  assert (Hsame : (forall items, ids <> JArr items) ->
                  documents (db w') = documents (db w)).
  { intros Hno. rewrite Hdb. unfold created_store.
    destruct ids; try reflexivity. exfalso. eapply Hno. reflexivity. }
  split.
  { intros items Hitems. split; [|apply Hget; exact Hitems].
    rewrite Hrun, Hitems. reflexivity. }
  split.
  { intros Hno Hplain. split; [|apply Hsame; exact Hno].
    rewrite Hrun. cbn [fst].
    destruct ids; cbn [forEach_items]; try (eexists; reflexivity).
    exfalso. eapply Hno. reflexivity. }
  intros k.
  destruct (forEach_items ids) as [items|err] eqn:Hitems.
  - assert (Hi : ids = JArr items).
    { destruct ids; try discriminate. inversion Hitems. reflexivity. }
    rewrite (Hget items Hi).
    destruct (getDocument (db w) k) as [doc|]; trivial.
    unfold linked. simpl.
    destruct (existsb (str_strict_eq k) items); reflexivity.
  - unfold getDocument. rewrite Hsame; [reflexivity|].
    intros items Hi. rewrite Hi in Hitems. discriminate.
Qed.

Lemma createBatchAtMine_links_documents_witness :
  (exists res w',
      createBatchAtMine sampleHost sampleBatchData
        (JArr [JStr "uuid-0"; JStr "no-such-document"; JNum (Int 7)])
        worldWithDocument = (Normal res, w')
      /\ option_map Document.relatedBatchId (getDocument (db w') "uuid-0")
         = Some (JStr (Batch.batchId (bc_batch res)))
      /\ getDocument (db w') "no-such-document" = None
      /\ option_map Document.sha256Hash (getDocument (db w') "uuid-0")
         = Some (JStr "2cf24dba5fb0a30e26e83b2ac5b9e29e1b161e5c1fa7425e73043362938b9824"))
  /\ exists message w' batch,
      createBatchAtMine sampleHost sampleBatchData JNull worldWithDocument
      = (Throw (TypeError message), w')
      /\ getBatch (db w') "uuid-2" = Some batch
      /\ Batch.documentIds batch = JNull
      /\ length (Batch.eventIds batch) = 1
      /\ documents (db w') = documents (db worldWithDocument).
Proof.
  assert (Hkeyed : forall k x,
             In (k, x) (documents (db worldWithDocument)) ->
             Document.documentId x = k).
  { intros k x [H|[]]. inversion H. reflexivity. }
  split.
  - destruct (createBatchAtMine_links_documents sampleHost worldWithDocument
                sampleBatchData
                (JArr [JStr "uuid-0"; JStr "no-such-document"; JNum (Int 7)])
                Hkeyed)
      as (res & w' & Hw & _ & _ & _ & _ & _ & _ & _ & _ & _ & Harr & _
          & Hhash).
    destruct (Harr _ eq_refl) as [Hret Hlink].
    exists res, w'. split.
    { rewrite <- Hret, <- Hw. apply surjective_pairing. }
    rewrite (Hhash "uuid-0"), (Hlink "uuid-0"), (Hlink "no-such-document").
    repeat split; reflexivity.
  - destruct (createBatchAtMine_links_documents sampleHost worldWithDocument
                sampleBatchData JNull Hkeyed)
      as (res & w' & Hw & Hbid & _ & Hdocs & Hids & _ & _ & _ & Hbatch & _
          & _ & Hthrow & _).
    destruct Hthrow as [[message Hthrow] Hsame];
      [intros items; discriminate | reflexivity |].
    exists message, w', (bc_batch res). split.
    { rewrite <- Hthrow, <- Hw. apply surjective_pairing. }
    rewrite Hbid in Hbatch.
    split; [exact Hbatch|]. split; [exact Hdocs|].
    split; [rewrite Hids; reflexivity | exact Hsame].
Defined.

(** ** The canonical encoder and the digest *)

Lemma insert_sorted_Permutation (k : string) (l : list string) :
  Permutation (insert_sorted k l) (k :: l).
Proof.
  induction l as [|h t IH]; simpl; [apply Permutation_refl|].
  destruct (k <=? h); [apply Permutation_refl|].
  eapply perm_trans; [apply perm_skip; exact IH | apply perm_swap].
Qed.

Lemma sort_is_Permutation (l : list string) : Permutation (sort l) l.
Proof.
  induction l as [|k rest IH]; simpl; [constructor|].
  eapply perm_trans; [apply insert_sorted_Permutation|].
  apply perm_skip. exact IH.
Qed.

Lemma filter_insert_sorted_out (P : string -> bool) (k : string)
  (l : list string) :
  P k = false -> filter P (insert_sorted k l) = filter P l.
Proof.
  intros Hk. induction l as [|h t IH]; simpl.
  - rewrite Hk. reflexivity.
  - destruct (k <=? h); simpl; rewrite ?Hk, ?IH; reflexivity.
Qed.

(** X12.  The omission rule of canonicalizeJSON: a property whose value is
    [undefined] does not show in the canonical text, so an object and the
    same object with one more property set to [undefined] have the same
    canonical text and the same fingerprint. *)
Theorem undefined_property_is_not_encoded (digest : string -> string)
  (props : list (string * jsval)) (key : string) :
  ~ In key (keys props) ->
  canonicalizeJSON (JObj ((key, JUndefined) :: props))
  = canonicalizeJSON (JObj props)
  /\ sha256 digest (JObj ((key, JUndefined) :: props))
     = sha256 digest (JObj props).
Proof.
  intros Hnew.
  assert (Hc : canonicalizeJSON (JObj ((key, JUndefined) :: props))
               = canonicalizeJSON (JObj props)).
  { rewrite !canonicalizeJSON_object. unfold object_text.
    do 3 f_equal. f_equal.
    cbn [keys map fst sort fold_right]. fold (keys props). fold (sort (keys props)).
    rewrite filter_insert_sorted_out
      by (cbn [get]; rewrite String.eqb_refl; reflexivity).
    assert (Hget : forall k, In k (sort (keys props)) ->
               get ((key, JUndefined) :: props) k = get props k).
    { intros k Hin. cbn [get]. destruct (k =? key) eqn:E; [|reflexivity].
      apply String.eqb_eq in E. subst k. exfalso. apply Hnew.
      apply (Permutation_in _ (sort_is_Permutation (keys props))). exact Hin. }
    rewrite (filter_ext_in _ (fun k => negb (is_undefined (get props k)))).
    - apply map_ext_in. intros k Hin. apply filter_In in Hin.
      rewrite (Hget k (proj1 Hin)). reflexivity.
    - intros k Hin. rewrite (Hget k Hin). reflexivity. }
  split; [exact Hc|]. unfold sha256. rewrite Hc. reflexivity.
Qed.

Lemma undefined_property_is_not_encoded_witness :
  canonicalizeJSON
    (JObj [("notes", JUndefined); ("weight", JNum (Int 25))])
  = Some (jtext "{'weight':25}").
Proof.
  rewrite (proj1 (undefined_property_is_not_encoded SHA256.hex
                    [("weight", JNum (Int 25))] "notes"
                    ltac:(simpl; intuition discriminate))).
  reflexivity.
Defined.

(** X13.  The normalization of timestamps.  An event whose timestamp is a
    Date is fingerprinted as the same event with the text [toISOString]
    gives for the Date in its place, so keeping the timestamp as a Date or as
    its ISO text gives the same fingerprint; likewise a batch and its
    creation timestamp.  When the Date is invalid [toISOString] throws:
    computeEventHash and computeBatchHash throw a RangeError, and such an
    event never counts as intact. *)
Theorem date_is_fingerprinted_as_iso_text (digest : string -> string)
  (event : Event.t) (batch : Batch.t) :
  (forall iso,
      Event.eventTimestamp event = JDate (Some iso) ->
      computeEventHash digest event
      = computeEventHash digest (retime_event (JStr iso) event)
      /\ exists h, computeEventHash digest event = Normal h)
  /\ (Event.eventTimestamp event = JDate None ->
      computeEventHash digest event = Throw (RangeError "Invalid time value")
      /\ fingerprint_intact digest event = false)
  /\ (forall iso,
      Batch.creationTimestamp batch = JDate (Some iso) ->
      computeBatchHash digest batch
      = computeBatchHash digest (retime_batch (JStr iso) batch)
      /\ exists h, computeBatchHash digest batch = Normal h)
  /\ (Batch.creationTimestamp batch = JDate None ->
      computeBatchHash digest batch
      = Throw (RangeError "Invalid time value")).
Proof.
  split; [|split; [|split]].
  - intros iso H. split.
    + unfold computeEventHash, eventPayload.
      cbn [retime_event Event.eventId Event.eventType Event.eventTimestamp
           Event.batchId Event.fromPartyId Event.toPartyId
           Event.fromFacilityId Event.toFacilityId Event.quantity
           Event.references].
      rewrite H. reflexivity.
    + eexists. apply computeEventHash_normal. rewrite H. reflexivity.
  - intros H.
    assert (Hthrow : computeEventHash digest event
                     = Throw (RangeError "Invalid time value"))
      by (apply computeEventHash_invalid; rewrite H; reflexivity).
    split; [exact Hthrow|]. unfold fingerprint_intact. rewrite Hthrow.
    reflexivity.
  - intros iso H. split.
    + unfold computeBatchHash, batchPayload.
      cbn [retime_batch Batch.batchId Batch.externalReferenceNumber
           Batch.commodityType Batch.originFacilityId Batch.ownerPartyId
           Batch.creationTimestamp Batch.quantity Batch.declaredAssay].
      rewrite H. reflexivity.
    + eexists. apply computeBatchHash_normal. rewrite H. reflexivity.
  - intros H. apply computeBatchHash_invalid. rewrite H. reflexivity.
Qed.

Lemma date_is_fingerprinted_as_iso_text_witness :
  computeEventHash SHA256.hex
    (retime_event (JDate (Some "2024-01-01T00:00:30.000Z")) sampleBareEvent)
  = computeEventHash SHA256.hex sampleBareEvent
  /\ computeEventHash SHA256.hex (retime_event (JDate None) sampleBareEvent)
     = Throw (RangeError "Invalid time value").
Proof.
  split.
  - destruct (date_is_fingerprinted_as_iso_text SHA256.hex
                (retime_event (JDate (Some "2024-01-01T00:00:30.000Z"))
                   sampleBareEvent)
                (createBatch "b" "t" sampleBatchData))
      as (H & _).
    exact (proj1 (H _ eq_refl)).
  - destruct (date_is_fingerprinted_as_iso_text SHA256.hex
                (retime_event (JDate None) sampleBareEvent)
                (createBatch "b" "t" sampleBatchData))
      as (_ & H & _).
    exact (proj1 (H eq_refl)).
Defined.

(** ** Documents *)

(** X14.  A document registered with an object as content (and no
    precomputed hash) is stored with the digest of the object's canonical
    text, and verifyDocument accepts as its content the string holding that
    canonical text as well as the object itself and the object with its
    properties in any other order. *)
Theorem structured_content_verifies_as_text
  (host : Host) (w : World) (documentData : DocumentData.t)
  (props props' : list (string * jsval)) :
  DocumentData.content documentData = JObj props ->
  truthy (DocumentData.sha256Hash documentData) = false ->
  wf (JObj props) ->
  Permutation props props' ->
  exists doc w',
    registerDocument host documentData w = (Normal doc, w')
    /\ Document.sha256Hash doc = JStr (digest host (object_text props))
    /\ (exists v, verifyDocument host (Document.documentId doc)
                    (JStr (object_text props)) w' = (Normal v, w')
                  /\ valid v = true)
    /\ (exists v, verifyDocument host (Document.documentId doc)
                    (JObj props') w' = (Normal v, w')
                  /\ valid v = true).
Proof.
  intros Hc Hh Hwf Hperm.
  assert (Hd : hashDocument (digest host) (DocumentData.content documentData)
               = Normal (digest host (object_text props))).
  { rewrite Hc. apply sha256_object. }
  pose proof (registerDocument_runs host w documentData _
                ltac:(rewrite Hc; reflexivity) Hh Hd) as Hrun.
  cbv zeta in Hrun.
  set (doc := createDocument (uuidv4 host (tick w)) (now_iso host (S (tick w)))
                (DocumentData.with_hash
                   (JStr (digest host (object_text props))) documentData)) in *.
  set (w' := {| db := saveDocument doc (db w); anchoring := anchoring w;
                tick := S (S (tick w)) |}) in *.
  exists doc, w'. split; [exact Hrun|]. split; [reflexivity|].
  assert (Hget : getDocument (db w') (Document.documentId doc) = Some doc).
  { unfold getDocument. simpl. apply map_get_set. }
  split.
  - destruct (verifyDocument_runs host w' _ doc (JStr (object_text props))
                (digest host (object_text props)) Hget eq_refl)
      as (v & Hv & Hvalid).
    exists v. split; [exact Hv|]. rewrite Hvalid. simpl. apply String.eqb_refl.
  - assert (Hsame : canonicalizeJSON (JObj props) = canonicalizeJSON (JObj props')).
    { apply canonicalizeJSON_same_content; [exact Hwf|].
      apply sc_obj with (l' := props); [|exact Hperm].
      clear. induction props as [|p l IH]; constructor; auto.
      split; [reflexivity | apply same_content_refl]. }
    assert (Htext : object_text props = object_text props').
    { rewrite !canonicalizeJSON_object in Hsame. congruence. }
    destruct (verifyDocument_runs host w' _ doc (JObj props')
                (digest host (object_text props')) Hget
                (sha256_object _ _))
      as (v & Hv & Hvalid).
    exists v. split; [exact Hv|]. rewrite Hvalid, <- Htext. simpl.
    apply String.eqb_refl.
Qed.

Lemma structured_content_verifies_as_text_witness :
  exists doc w',
    registerDocument sampleHost structuredDocumentData newWorld
    = (Normal doc, w')
    /\ exists v,
        verifyDocument sampleHost (Document.documentId doc)
          (JStr (jtext "{'assayer':'Acme','grade':22}")) w' = (Normal v, w')
        /\ valid v = true.
Proof.
  destruct (structured_content_verifies_as_text sampleHost newWorld
              structuredDocumentData
              [("grade", JNum (Int 22)); ("assayer", JStr "Acme")]
              [("assayer", JStr "Acme"); ("grade", JNum (Int 22))]
              eq_refl eq_refl)
    as (doc & w' & Hrun & _ & Htext & _).
  - simpl. repeat split; repeat constructor; simpl; intuition discriminate.
  - apply perm_swap.
  - exists doc, w'. split; [exact Hrun|]. exact Htext.
Defined.

(** X15.  registerDocument at its edges.  A precomputed hash is stored as
    given, whatever the content, and nothing is hashed.  A function as
    content (with no precomputed hash) makes the call throw a TypeError with
    the world unchanged.  In every case where the call returns, the document
    is stored under the id drawn, with confidentiality level Restricted
    unless one was given, and the anchoring service is not involved. *)
Theorem registerDocument_edges (host : Host) (w : World)
  (documentData : DocumentData.t) :
  (truthy (DocumentData.sha256Hash documentData) = true ->
   exists doc w',
     registerDocument host documentData w = (Normal doc, w')
     /\ Document.sha256Hash doc = DocumentData.sha256Hash documentData)
  /\ (DocumentData.content documentData = JFun ->
      truthy (DocumentData.sha256Hash documentData) = false ->
      exists message,
        registerDocument host documentData w = (Throw (TypeError message), w))
  /\ (forall doc w',
        registerDocument host documentData w = (Normal doc, w') ->
        Document.documentId doc = uuidv4 host (tick w)
        /\ getDocument (db w') (Document.documentId doc) = Some doc
        /\ Document.confidentialityLevel doc
           = with_default (DocumentData.confidentialityLevel documentData)
               (JStr "Restricted")
        /\ anchoring w' = anchoring w
        /\ batches (db w') = batches (db w)
        /\ events (db w') = events (db w)).
Proof.
  split; [|split].
  - intros Hh. unfold registerDocument. rewrite Hh, andb_false_r.
    eexists; eexists. split; reflexivity.
  - intros Hc Hh. unfold registerDocument. rewrite Hc, Hh.
    eexists. reflexivity.
  - intros doc w' Hrun. unfold registerDocument in Hrun.
    destruct (truthy (DocumentData.content documentData)
              && negb (truthy (DocumentData.sha256Hash documentData))).
    + destruct (hashDocument (digest host) (DocumentData.content documentData))
        as [h|err]; [|discriminate Hrun].
      inversion Hrun; subst. repeat split.
      unfold getDocument. simpl. apply map_get_set.
    + inversion Hrun; subst. repeat split.
      unfold getDocument. simpl. apply map_get_set.
Qed.

Lemma registerDocument_edges_witness :
  (exists message,
      registerDocument sampleHost (with_content JFun sampleDocumentData)
        newWorld = (Throw (TypeError message), newWorld))
  /\ exists doc w',
      registerDocument sampleHost sampleDocumentData newWorld = (Normal doc, w')
      /\ Document.confidentialityLevel doc = JStr "Restricted".
Proof.
  destruct (registerDocument_edges sampleHost newWorld
              (with_content JFun sampleDocumentData)) as (_ & Hthrow & _).
  split; [apply Hthrow; reflexivity|].
  destruct (registerDocument_edges sampleHost newWorld sampleDocumentData)
    as (_ & _ & Hret).
  eexists; eexists. split; [vm_compute; reflexivity|].
  eapply Hret. vm_compute. reflexivity.
Defined.

(** ** The displayed verification status *)

(** X16.  _computeVerificationStatus answers VERIFIED exactly when the batch
    is not in dispute, some event is the Create event, at least one document
    is attached and every event carries a transaction reference; a batch in
    dispute is always DISPUTED.  The answer depends on the events only
    through their types and through whether they carry a transaction
    reference: it never looks at a fingerprint. *)
Theorem display_status_decision (batch : Batch.t) (events : list Event.t)
  (documents : list Document.t) :
  (_computeVerificationStatus batch events documents = DISPLAY_VERIFIED
   <-> Batch.status batch <> BatchStatus.DISPUTE
       /\ (exists e, In e events /\ Event.eventType e = EventType.CREATE)
       /\ documents <> []
       /\ (forall e, In e events -> truthy (Event.onChainTxHash e) = true))
  /\ (_computeVerificationStatus batch events documents = DISPLAY_DISPUTED
      <-> Batch.status batch = BatchStatus.DISPUTE)
  /\ (forall events',
        map Event.eventType events' = map Event.eventType events ->
        map (fun e => truthy (Event.onChainTxHash e)) events'
        = map (fun e => truthy (Event.onChainTxHash e)) events ->
        _computeVerificationStatus batch events' documents
        = _computeVerificationStatus batch events documents).
Proof.
  assert (Hcreate : existsb (fun e => is_create (Event.eventType e)) events
                    = true
                    <-> exists e, In e events
                                  /\ Event.eventType e = EventType.CREATE).
  { rewrite existsb_exists. split; intros (e & Hin & He); exists e;
      (split; [exact Hin|]).
    - destruct (Event.eventType e); try discriminate. reflexivity.
    - rewrite He. reflexivity. }
  assert (Hall : forallb (fun e => truthy (Event.onChainTxHash e)) events = true
                 <-> forall e, In e events ->
                               truthy (Event.onChainTxHash e) = true)
    by apply forallb_forall.
  assert (Hdocs : (0 <? length documents)%nat = true <-> documents <> []).
  { destruct documents; simpl; split; try discriminate; try reflexivity.
    intros H. exfalso. apply H. reflexivity. }
  assert (Hdisp : is_dispute_status (Batch.status batch) = true
                  <-> Batch.status batch = BatchStatus.DISPUTE).
  { destruct (Batch.status batch); simpl; split; try discriminate;
      reflexivity. }
  unfold _computeVerificationStatus. split; [|split].
  - destruct (is_dispute_status (Batch.status batch)) eqn:Ed.
    + split; [discriminate|]. intros (H & _). exfalso. apply H.
      apply Hdisp. reflexivity.
    + destruct (existsb _ events) eqn:Ec; cbn [negb].
      * destruct (0 <? length documents)%nat eqn:El; cbn [negb].
        -- destruct (forallb _ events) eqn:Ea; cbn [negb].
           ++ split; [|reflexivity]. intros _.
              split; [intros H; apply Hdisp in H; discriminate|].
              split; [apply Hcreate; reflexivity|].
              split; [apply Hdocs; reflexivity | apply Hall; reflexivity].
           ++ split; [discriminate|]. intros (_ & _ & _ & H).
              apply Hall in H. discriminate.
        -- split; [discriminate|]. intros (_ & _ & H & _).
           apply Hdocs in H. discriminate.
      * split; [discriminate|]. intros (_ & H & _).
        apply Hcreate in H. discriminate.
  - destruct (is_dispute_status (Batch.status batch)) eqn:Ed.
    + split; [intros _; apply Hdisp; reflexivity | reflexivity].
    + split.
      * destruct (negb (existsb _ events)); [discriminate|].
        destruct (negb (0 <? length documents)%nat); [discriminate|].
        destruct (negb (forallb _ events)); discriminate.
      * intros H. apply Hdisp in H. discriminate.
  - intros events' Hty Htx.
    assert (E1 : existsb (fun e => is_create (Event.eventType e)) events'
                 = existsb (fun e => is_create (Event.eventType e)) events).
    { clear - Hty. revert events Hty.
      induction events' as [|a l IH]; intros [|b m] H; try discriminate;
        trivial.
      simpl in H. inversion H as [[Ha Hl]]. simpl. rewrite Ha, (IH m Hl).
      reflexivity. }
    assert (E2 : forallb (fun e => truthy (Event.onChainTxHash e)) events'
                 = forallb (fun e => truthy (Event.onChainTxHash e)) events).
    { clear - Htx. revert events Htx.
      induction events' as [|a l IH]; intros [|b m] H; try discriminate;
        trivial.
      simpl in H. inversion H as [[Ha Hl]]. simpl. rewrite Ha, (IH m Hl).
      reflexivity. }
    rewrite E1, E2. reflexivity.
Qed.

Lemma display_status_decision_witness :
  _computeVerificationStatus
    (Batch.set_status BatchStatus.RECEIVED
       (createBatch "b" "2024-01-01T00:00:00.000Z" sampleBatchData))
    (getEventsByBatch (Date_value sampleHost) (db worldEventTampered) "uuid-0")
    [createDocument "d" "2024-01-01T00:00:00.000Z" sampleDocumentData]
  = DISPLAY_VERIFIED.
Proof.
  apply (display_status_decision _ _ _).
  split; [discriminate|]. split.
  - eexists. split; [left; reflexivity | reflexivity].
  - split; [discriminate|].
    intros e Hin. simpl in Hin.
    destruct Hin as [<-|[<-|[<-|[]]]]; reflexivity.
Defined.

(** ** The store: writing and reading back *)

(** X17.  saveEvent and updateBatch write one entry and nothing else.  The
    entry is read back by its id and every other id reads as before; the
    other collections are untouched; an id that was present keeps its place
    in the enumeration order and a new one goes last; distinct keys stay
    distinct. *)
Theorem store_write_then_read (d : Database) (event : Event.t)
  (batch : Batch.t) (id : string) :
  getEvent (saveEvent event d) id
  = (if (id =? Event.eventId event) then Some event else getEvent d id)
  /\ getBatch (updateBatch batch d) id
     = (if (id =? Batch.batchId batch) then Some batch else getBatch d id)
  /\ getBatch (saveEvent event d) id = getBatch d id
  /\ getEvent (updateBatch batch d) id = getEvent d id
  /\ getDocument (saveEvent event (updateBatch batch d)) id = getDocument d id
  /\ keys (events (saveEvent event d))
     = (if existsb (String.eqb (Event.eventId event)) (keys (events d))
        then keys (events d)
        else (keys (events d) ++ [Event.eventId event])%list)
  /\ (NoDup (keys (events d)) -> NoDup (keys (events (saveEvent event d))))
  /\ (NoDup (keys (batches d)) ->
      NoDup (keys (batches (updateBatch batch d)))).
Proof.
  unfold getEvent, getBatch, getDocument. simpl.
  repeat split; try reflexivity.
  - apply map_get_map_set.
  - apply map_get_map_set.
  - apply keys_map_set.
  - apply NoDup_keys_map_set.
  - apply NoDup_keys_map_set.
Qed.

(** ** A blind spot of the event fingerprint *)

(** X18.  The payload maps every falsy value of an optional field to
    [null]: an event whose recipient is absent and the same event with the
    recipient overwritten by any other falsy value (the empty string, 0,
    false, NaN, undefined) have the same fingerprint, so verifyBatchIntegrity
    reports the same [hashMatch] for both. *)
Theorem falsy_recipient_is_not_fingerprinted (digest : string -> string)
  (event : Event.t) (v : jsval) :
  truthy (Event.toPartyId event) = false ->
  truthy v = false ->
  computeEventHash digest (retarget_event v event)
  = computeEventHash digest event
  /\ fingerprint_intact digest (retarget_event v event)
     = fingerprint_intact digest event.
Proof.
  intros He Hv.
  assert (Hp : eventPayload (retarget_event v event) = eventPayload event).
  { unfold eventPayload, retarget_event, or_else. simpl. rewrite He, Hv.
    reflexivity. }
  unfold fingerprint_intact, computeEventHash. rewrite Hp.
  split; reflexivity.
Qed.

Lemma falsy_recipient_is_not_fingerprinted_witness :
  computeEventHash SHA256.hex (retarget_event (JStr "") sampleBareEvent)
  = computeEventHash SHA256.hex sampleBareEvent.
Proof.
  apply (falsy_recipient_is_not_fingerprinted SHA256.hex sampleBareEvent
           (JStr "")); reflexivity.
Defined.

(** ** The routes *)

Section RouteFacts.

Variable host : Host.
Variable ToString : jsval -> string.




End RouteFacts.




